(** * chimee: the event binder (src/dispatcher/binder.js)

    A shallow embedding of the Binder class and of the descriptor resolver
    that precedes it in the file, followed by the properties checked against
    the specification.

    JavaScript objects that the Binder mutates ([this.bindedEventNames],
    [this.bindedEventInfo], [this.pendingEventsInfo], [this.buses], the
    dispatcher's [dom] and [kernel], the DOM listener tables and the log)
    are fields of one explicit state, threaded by a small state-and-exception
    monad. *)

From Stdlib Require Import List String Ascii Bool Arith ZArith Lia.
Import ListNotations.

Local Open Scope string_scope.
Local Open Scope list_scope.

(* ===================================================================== *)
(** * Values                                                              *)
(* ===================================================================== *)

(** [binderTarget]: the closed set of target kinds (Flow type of the same
    name; the strings 'kernel', 'container', 'wrapper', 'video',
    'video-dom', 'plugin', 'esFullscreen'). *)
Inductive binderTarget : Type :=
| T_kernel
| T_container
| T_wrapper
| T_video
| T_video_dom
| T_plugin
| T_esFullscreen.

(** [eventStage]: 'before' | 'after' | 'main' | '_'. *)
Inductive eventStage : Type :=
| S_before
| S_after
| S_main
| S_private.

Definition binderTarget_eqb (a b : binderTarget) : bool :=
  match a, b with
  | T_kernel, T_kernel | T_container, T_container | T_wrapper, T_wrapper
  | T_video, T_video | T_video_dom, T_video_dom | T_plugin, T_plugin
  | T_esFullscreen, T_esFullscreen => true
  | _, _ => false
  end.

Definition eventStage_eqb (a b : eventStage) : bool :=
  match a, b with
  | S_before, S_before | S_after, S_after | S_main, S_main
  | S_private, S_private => true
  | _, _ => false
  end.

(** The string a target kind is written as in the source. *)
Definition target_string (t : binderTarget) : string :=
  match t with
  | T_kernel => "kernel"
  | T_container => "container"
  | T_wrapper => "wrapper"
  | T_video => "video"
  | T_video_dom => "video-dom"
  | T_plugin => "plugin"
  | T_esFullscreen => "esFullscreen"
  end.

(** DOM nodes are identified by a number. *)
Definition Node : Type := nat.

(** The fields of a native pointer event that the binder reads. *)
Record DomEvent : Type := mkDomEvent {
  toElement : option Node;
  currentTarget : option Node;
  relatedTarget : option Node;
  type : string
}.

(** Functions are compared by identity.  A closure allocated by the binder
    carries the allocation number [uid] and the variables it captured; its
    body is given by [callFn] below. *)
Inductive Fn : Type :=
| UserFn (uid : nat)
    (* a handler supplied by application code *)
| RelaySync (uid : nat) (target : binderTarget) (name id : string)
    (* (...args) => this.triggerSync({ target, name, id }, ...args) *)
| RelayDeferred (uid : nat) (target : binderTarget) (name id : string)
    (* (...args) => this.trigger({ target, name, id }, ...args) *)
| MouseMoveFn (uid : nat) (name : string).
    (* the closure built in listenOnMouseMoveEvent *)

Definition fn_uid (f : Fn) : nat :=
  match f with
  | UserFn u | RelaySync u _ _ _ | RelayDeferred u _ _ _ | MouseMoveFn u _ => u
  end.

Definition Fn_eqb (f g : Fn) : bool :=
  match f, g with
  | UserFn u, UserFn v => Nat.eqb u v
  | RelaySync u t n i, RelaySync v t' n' i' =>
      Nat.eqb u v && binderTarget_eqb t t' && String.eqb n n' && String.eqb i i'
  | RelayDeferred u t n i, RelayDeferred v t' n' i' =>
      Nat.eqb u v && binderTarget_eqb t t' && String.eqb n n' && String.eqb i i'
  | MouseMoveFn u n, MouseMoveFn v n' => Nat.eqb u v && String.eqb n n'
  | _, _ => false
  end.

(** The four dispatch operations of a Bus. *)
Inductive DispatchKind : Type := D_emit | D_emitSync | D_trigger | D_triggerSync.

(** JavaScript values as far as the binder inspects them. [VBusReturn] is
    what a Bus dispatch handed back; the binder passes it through and never
    looks at it. *)
Inductive JSVal : Type :=
| VUndefined
| VNull
| VBool (b : bool)
| VNum (n : Z)
| VStr (s : string)
| VObject (tag : nat)
| VEvent (e : DomEvent)
| VFun (f : Fn)
| VBusReturn (k : DispatchKind).

(** chimee-helper predicates. *)
Definition isFunction (v : JSVal) : bool :=
  match v with VFun _ => true | _ => false end.

Definition isString (v : JSVal) : bool :=
  match v with VStr _ => true | _ => false end.

(** JavaScript truthiness of the values above.  A Bus result is opaque. *)
Definition truthy (v : JSVal) : bool :=
  match v with
  | VUndefined | VNull => false
  | VBool b => b
  | VNum n => negb (Z.eqb n 0)
  | VStr s => negb (String.eqb s EmptyString)
  | VObject _ | VEvent _ | VFun _ => true
  | VBusReturn _ => true
  end.

(** A value known to be falsy: undefined, null, false, 0 or ''. *)
Definition falsy (v : JSVal) : bool :=
  match v with
  | VUndefined | VNull => true
  | VBool b => negb b
  | VNum n => Z.eqb n 0
  | VStr s => String.eqb s EmptyString
  | _ => false
  end.

(** [typeof v]. *)
Definition typeof (v : JSVal) : string :=
  match v with
  | VUndefined => "undefined"
  | VNull => "object"
  | VBool _ => "boolean"
  | VNum _ => "number"
  | VStr _ => "string"
  | VObject _ | VEvent _ | VBusReturn _ => "object"
  | VFun _ => "function"
  end.

(** [Log.warn] and [Log.error] append to a log. *)
Inductive LogEntry : Type :=
| LogWarn (msg : string)
| LogError (msg : string).

Definition isWarn (e : LogEntry) : bool :=
  match e with LogWarn _ => true | LogError _ => false end.

Definition isError (e : LogEntry) : bool :=
  match e with LogError _ => true | LogWarn _ => false end.

(* ===================================================================== *)
(** * Arrays and strings                                                  *)
(* ===================================================================== *)

(** [Array.prototype.indexOf] on an array of strings: the first index of
    [x], or -1. *)
Fixpoint indexOf (l : list string) (x : string) : Z :=
  match l with
  | [] => (-1)%Z
  | y :: l' =>
      if String.eqb y x then 0%Z
      else let i := indexOf l' x in
           if (i <? 0)%Z then (-1)%Z else (i + 1)%Z
  end.

(** [l.splice(i, 1)]: the array without its element at index [i]. *)
Fixpoint splice1 {A : Type} (i : nat) (l : list A) {struct l} : list A :=
  match l, i with
  | [], _ => []
  | _ :: l', O => l'
  | x :: l', S i' => x :: splice1 i' l'
  end.

(** [l.pop()]: the last element and the array without it. *)
Fixpoint pop {A : Type} (l : list A) : option (A * list A) :=
  match l with
  | [] => None
  | x :: l' =>
      match pop l' with
      | None => Some (x, [])
      | Some (y, r) => Some (y, x :: r)
      end
  end.

(** The string without its first [n] characters. *)
Fixpoint drop (n : nat) (s : string) : string :=
  match n, s with
  | O, _ => s
  | S n', String _ s' => drop n' s'
  | S _, EmptyString => EmptyString
  end.

(* ===================================================================== *)
(** * What the file imports                                               *)
(* ===================================================================== *)

(** The tables of helper/const, [camelize] of chimee-helper and
    [process.env.NODE_ENV] are not part of the file; the development is
    parameterised by them. *)
Record Env : Type := mkEnv {
  videoEvents : list string;
  domEvents : list string;
  kernelEvents : list string;
  passiveEvents : list string;
  esFullscreenEvents : list string;
  mustListenVideoDomEvents : list string;
  camelize : string -> string;
  NODE_ENV : string
}.

(* ===================================================================== *)
(** * The descriptor resolver                                             *)
(* ===================================================================== *)

Record rawEventInfo : Type := mkRaw {
  r_id : string;
  r_fn : JSVal;
  r_name : string;
  r_target : option binderTarget;
  r_stage : option eventStage
}.

Record additionalEventInfo : Type := mkInfo {
  i_name : string;
  i_stage : eventStage;
  i_target : binderTarget
}.

Record wholeEventInfo : Type := mkWhole {
  w_id : string;
  w_fn : JSVal;
  w_name : string;
  w_target : binderTarget;
  w_stage : eventStage
}.

(** [secondaryReg = /^(before|after|_)/]: the stage matched at the start of
    [name] ([matches[0]]), if any. *)
Definition secondaryReg_match (name : string) : option eventStage :=
  if String.prefix "before" name then Some S_before
  else if String.prefix "after" name then Some S_after
  else if String.prefix "_" name then Some S_private
  else None.

(** The matched text, which is the stage's own spelling. *)
Definition stage_string (st : eventStage) : string :=
  match st with
  | S_before => "before"
  | S_after => "after"
  | S_main => "main"
  | S_private => "_"
  end.

Definition secondaryReg_test (name : string) : bool :=
  match secondaryReg_match name with Some _ => true | None => false end.

(** [name.replace(secondaryReg, '')]. *)
Definition secondaryReg_strip (name : string) : string :=
  match secondaryReg_match name with
  | Some st => drop (String.length (stage_string st)) name
  | None => name
  end.

(** [targetKeyReg = new RegExp('^(c|w)_')]. *)
Definition targetKeyReg_test (name : string) : bool :=
  String.prefix "c_" name || String.prefix "w_" name.

Definition targetKeyReg_strip (name : string) : string :=
  if targetKeyReg_test name then drop 2 name else name.

Section Resolver.

Variable env : Env.

Definition warnOldName (oldName name : string) (target : binderTarget) : string :=
  "We no longer support event names like " ++ oldName
    ++ ". Please use " ++ name ++ " and options like { target: '"
    ++ target_string target ++ "' } instead".

(** [getEventTargetByOldLogic]: the translation of the names used before
    0.10.0, with the warnings it logs.  [None] is the source's [false]. *)
Definition getEventTargetByOldLogic (oldName : string)
  : option (string * binderTarget) * list LogEntry :=
  if targetKeyReg_test oldName then
    let name := targetKeyReg_strip oldName in
    let target := if String.prefix "c" oldName then T_container else T_wrapper in
    let warned :=
      if negb (String.eqb (NODE_ENV env) "production")
      then [LogWarn (warnOldName oldName name target)]
      else [] in
    (Some (name, target), warned)
  else if String.eqb oldName "error" then
    (Some ("error", T_kernel), [])
  else (None, []).

(** [getEventStage]. *)
Definition getEventStage (name : string) : string * eventStage :=
  match secondaryReg_match name with
  | Some st => (camelize env (secondaryReg_strip name), st)
  | None => (name, S_main)
  end.

(** [getEventTargetByEventName]. *)
Definition getEventTargetByEventName (name : string) : binderTarget :=
  if (indexOf (videoEvents env) name >? -1)%Z then T_video
  else if (indexOf (kernelEvents env) name >? -1)%Z then T_kernel
  else if (indexOf (domEvents env) name >? -1)%Z then T_video_dom
  else if (indexOf (esFullscreenEvents env) name >? -1)%Z then T_esFullscreen
  else T_plugin.

(** [getEventInfo], with the warnings logged on the way. *)
Definition getEventInfo (name : string) (target : option binderTarget)
           (stage : option eventStage)
  : additionalEventInfo * list LogEntry :=
  let '(oldInfo, warned) := getEventTargetByOldLogic name in
  let '(name, target) :=
    match oldInfo with
    | Some (n, t) => (n, Some t)
    | None => (name, target)
    end in
  let '(newName, newStage) := getEventStage name in
  let name := newName in
  let target :=
    match target with
    | Some t => t
    | None => getEventTargetByEventName name
    end in
  ({| i_name := name;
      i_stage := match stage with Some st => st | None => newStage end;
      i_target := target |}, warned).

Definition getEventInfo_raw (r : rawEventInfo) : additionalEventInfo * list LogEntry :=
  getEventInfo (r_name r) (r_target r) (r_stage r).

End Resolver.

(** A canonical descriptor, read back as the input of the resolver. *)
Definition raw_of (d : additionalEventInfo) : rawEventInfo :=
  {| r_id := EmptyString; r_fn := VUndefined;
     r_name := i_name d; r_target := Some (i_target d); r_stage := Some (i_stage d) |}.

(* ===================================================================== *)
(** * One value per target kind                                           *)
(* ===================================================================== *)

(** The objects [{ [binderTarget]: ... }] of the class are filled for the
    seven kinds by the constructor and only ever indexed by a kind. *)
Record perKind (A : Type) : Type := mkPerKind {
  at_kernel : A;
  at_container : A;
  at_wrapper : A;
  at_video : A;
  at_video_dom : A;
  at_plugin : A;
  at_esFullscreen : A
}.

Arguments mkPerKind {A}.
Arguments at_kernel {A}.
Arguments at_container {A}.
Arguments at_wrapper {A}.
Arguments at_video {A}.
Arguments at_video_dom {A}.
Arguments at_plugin {A}.
Arguments at_esFullscreen {A}.

Definition pk_get {A : Type} (m : perKind A) (t : binderTarget) : A :=
  match t with
  | T_kernel => at_kernel m
  | T_container => at_container m
  | T_wrapper => at_wrapper m
  | T_video => at_video m
  | T_video_dom => at_video_dom m
  | T_plugin => at_plugin m
  | T_esFullscreen => at_esFullscreen m
  end.

Definition pk_set {A : Type} (m : perKind A) (t : binderTarget) (v : A) : perKind A :=
  match t with
  | T_kernel =>
      mkPerKind v (at_container m) (at_wrapper m) (at_video m)
                (at_video_dom m) (at_plugin m) (at_esFullscreen m)
  | T_container =>
      mkPerKind (at_kernel m) v (at_wrapper m) (at_video m)
                (at_video_dom m) (at_plugin m) (at_esFullscreen m)
  | T_wrapper =>
      mkPerKind (at_kernel m) (at_container m) v (at_video m)
                (at_video_dom m) (at_plugin m) (at_esFullscreen m)
  | T_video =>
      mkPerKind (at_kernel m) (at_container m) (at_wrapper m) v
                (at_video_dom m) (at_plugin m) (at_esFullscreen m)
  | T_video_dom =>
      mkPerKind (at_kernel m) (at_container m) (at_wrapper m) (at_video m)
                v (at_plugin m) (at_esFullscreen m)
  | T_plugin =>
      mkPerKind (at_kernel m) (at_container m) (at_wrapper m) (at_video m)
                (at_video_dom m) v (at_esFullscreen m)
  | T_esFullscreen =>
      mkPerKind (at_kernel m) (at_container m) (at_wrapper m) (at_video m)
                (at_video_dom m) (at_plugin m) v
  end.

Definition pk_all {A : Type} (v : A) : perKind A := mkPerKind v v v v v v v.

(* ===================================================================== *)
(** * The Bus                                                             *)
(* ===================================================================== *)

Record Subscriber : Type := mkSub {
  s_id : string;
  s_name : string;
  s_fn : JSVal;
  s_stage : eventStage;
  s_once : bool
}.

Record Dispatch : Type := mkDispatch {
  d_kind : DispatchKind;
  d_name : string;
  d_args : list JSVal
}.

(** Modelled from the spec: the class Bus of ./bus is not in the file.  The
    spec describes it as the per-target store of subscriber lists keyed by
    event name and stage, which knows for a name whether any subscriber
    remains, with the operations on, off, once, emit, emitSync, trigger and
    triggerSync.  The model keeps the subscribers in arrival order and
    records every dispatch request; running the subscribers' handlers is
    application code and is not modelled. *)
Record Bus : Type := mkBus {
  subscribers : list Subscriber;
  dispatched : list Dispatch
}.

Definition same_fn (a b : JSVal) : bool :=
  match a, b with
  | VFun f, VFun g => Fn_eqb f g
  | _, _ => false
  end.

Definition sub_matches (id name : string) (fn : JSVal) (stage : eventStage)
           (x : Subscriber) : bool :=
  String.eqb (s_id x) id && String.eqb (s_name x) name
  && same_fn (s_fn x) fn && eventStage_eqb (s_stage x) stage.

Module BusModel.

(** Modelled from the spec: a Bus as the constructor of ./bus leaves it,
    without subscribers. *)
Definition empty : Bus := mkBus [] [].

(** Modelled from the spec: [on(id, name, fn, stage)] of ./bus registers a
    logical subscriber under the event name and stage. *)
Definition on (b : Bus) (id name : string) (fn : JSVal) (stage : eventStage) : Bus :=
  mkBus (subscribers b ++ [mkSub id name fn stage false]) (dispatched b).

(** Modelled from the spec: [once(id, name, fn, stage)] of ./bus registers
    a subscriber that is meant to run a single time. *)
Definition once (b : Bus) (id name : string) (fn : JSVal) (stage : eventStage) : Bus :=
  mkBus (subscribers b ++ [mkSub id name fn stage true]) (dispatched b).

(** Modelled from the spec: [off(id, name, fn, stage)] of ./bus removes the
    logical subscriber registered with these four values. *)
Definition off (b : Bus) (id name : string) (fn : JSVal) (stage : eventStage) : Bus :=
  mkBus (filter (fun x => negb (sub_matches id name fn stage x)) (subscribers b))
        (dispatched b).

(** Modelled from the spec: [bus.events[name]] of ./bus, the introspection
    of the subscribers that remain for [name]. *)
Definition events (b : Bus) (name : string) : list Subscriber :=
  filter (fun x => String.eqb (s_name x) name) (subscribers b).

(** Modelled from the spec: [emit], [emitSync], [trigger] and [triggerSync]
    of ./bus, as the request that the Bus receives. *)
Definition dispatch (b : Bus) (k : DispatchKind) (name : string) (args : list JSVal) : Bus :=
  mkBus (subscribers b) (dispatched b ++ [mkDispatch k name args]).

End BusModel.

(** [isEmpty] of chimee-helper on [bus.events[name]]. *)
Definition isEmpty {A : Type} (l : list A) : bool :=
  match l with [] => true | _ :: _ => false end.

(* ===================================================================== *)
(** * State                                                               *)
(* ===================================================================== *)

(** [this.__dispatcher.dom], as far as the binder reads and writes it. *)
Record Dom : Type := mkDom {
  container : Node;
  wrapper : Node;
  videoElement : Node;
  videoExtendedNodes : list Node;
  mouseInVideo : bool;
  isNodeInsideVideo : option Node -> bool
}.

(** One registration made with [addEvent]. *)
Record DomListener : Type := mkListener {
  l_node : Node;
  l_type : string;
  l_fn : JSVal;
  l_passive : bool
}.

Record State : Type := mkState {
  bindedEventNames : perKind (list string);
  bindedEventInfo : perKind (list (string * JSVal));
  buses : perKind Bus;
  pendingEventsInfo : perKind (list (string * string));
  (* this.__dispatcher.kernel, with the listeners registered on it *)
  kernel : option (list (string * JSVal));
  dom : Dom;
  (* the document's listener table *)
  domListeners : list DomListener;
  log : list LogEntry;
  (* allocation counter for closures *)
  nextFn : nat
}.

Definition set_bindedEventNames (v : perKind (list string)) (s : State) : State :=
  mkState v (bindedEventInfo s) (buses s) (pendingEventsInfo s) (kernel s)
          (dom s) (domListeners s) (log s) (nextFn s).

Definition set_bindedEventInfo (v : perKind (list (string * JSVal))) (s : State) : State :=
  mkState (bindedEventNames s) v (buses s) (pendingEventsInfo s) (kernel s)
          (dom s) (domListeners s) (log s) (nextFn s).

Definition set_buses (v : perKind Bus) (s : State) : State :=
  mkState (bindedEventNames s) (bindedEventInfo s) v (pendingEventsInfo s) (kernel s)
          (dom s) (domListeners s) (log s) (nextFn s).

Definition set_pendingEventsInfo (v : perKind (list (string * string))) (s : State) : State :=
  mkState (bindedEventNames s) (bindedEventInfo s) (buses s) v (kernel s)
          (dom s) (domListeners s) (log s) (nextFn s).

Definition set_kernel (v : option (list (string * JSVal))) (s : State) : State :=
  mkState (bindedEventNames s) (bindedEventInfo s) (buses s) (pendingEventsInfo s) v
          (dom s) (domListeners s) (log s) (nextFn s).

Definition set_dom (v : Dom) (s : State) : State :=
  mkState (bindedEventNames s) (bindedEventInfo s) (buses s) (pendingEventsInfo s)
          (kernel s) v (domListeners s) (log s) (nextFn s).

Definition set_domListeners (v : list DomListener) (s : State) : State :=
  mkState (bindedEventNames s) (bindedEventInfo s) (buses s) (pendingEventsInfo s)
          (kernel s) (dom s) v (log s) (nextFn s).

Definition set_log (v : list LogEntry) (s : State) : State :=
  mkState (bindedEventNames s) (bindedEventInfo s) (buses s) (pendingEventsInfo s)
          (kernel s) (dom s) (domListeners s) v (nextFn s).

Definition set_nextFn (v : nat) (s : State) : State :=
  mkState (bindedEventNames s) (bindedEventInfo s) (buses s) (pendingEventsInfo s)
          (kernel s) (dom s) (domListeners s) (log s) v.

Definition set_mouseInVideo (b : bool) (d : Dom) : Dom :=
  mkDom (container d) (wrapper d) (videoElement d) (videoExtendedNodes d) b
        (isNodeInsideVideo d).

(* ===================================================================== *)
(** * Computations: state and exceptions                                  *)
(* ===================================================================== *)

Inductive JsError : Type :=
| Error (msg : string)
| TypeError (msg : string).

(** A call either returns a value or throws; both leave a state behind. *)
Inductive outcome (A : Type) : Type :=
| Return (a : A) (s : State)
| Throw (e : JsError) (s : State).

Arguments Return {A}.
Arguments Throw {A}.

Definition M (A : Type) : Type := State -> outcome A.

Definition ret {A : Type} (a : A) : M A := fun s => Return a s.

Definition bind {A B : Type} (c : M A) (k : A -> M B) : M B :=
  fun s => match c s with
           | Return a s' => k a s'
           | Throw e s' => Throw e s'
           end.

Definition throw {A : Type} (e : JsError) : M A := fun s => Throw e s.

Definition gets {A : Type} (f : State -> A) : M A := fun s => Return (f s) s.

Definition modify (f : State -> State) : M unit := fun s => Return tt (f s).

Declare Scope js_scope.
Delimit Scope js_scope with js.

Notation "x <- c ;; k" := (bind c (fun x => k))
  (at level 61, c at next level, right associativity) : js_scope.
Notation "c ;; k" := (bind c (fun _ => k))
  (at level 61, right associativity) : js_scope.

Local Open Scope js_scope.

(** [l.forEach(f)]. *)
Fixpoint forEach {A : Type} (l : list A) (f : A -> M unit) : M unit :=
  match l with
  | [] => ret tt
  | x :: l' => f x ;; forEach l' f
  end.

(** The state a call leaves behind, whether it returned or threw. *)
Definition final {A : Type} (o : outcome A) : State :=
  match o with Return _ s => s | Throw _ s => s end.

Definition returned {A : Type} (o : outcome A) : bool :=
  match o with Return _ _ => true | Throw _ _ => false end.

(* ===================================================================== *)
(** * Primitives of the collaborators                                     *)
(* ===================================================================== *)

Definition same_listener (element : Node) (key : string) (fn : JSVal)
           (l : DomListener) : bool :=
  Nat.eqb (l_node l) element && String.eqb (l_type l) key && same_fn (l_fn l) fn.

(** [addEvent(element, key, fn, ...)] of chimee-helper, that is
    [element.addEventListener]: a registration that is already there is
    not added again, and a callback that is no function is ignored. *)
Definition addEvent (element : Node) (key : string) (fn : JSVal) (passive : bool) : M unit :=
  modify (fun s =>
    if negb (isFunction fn) then s
    else if existsb (same_listener element key fn) (domListeners s) then s
    else set_domListeners (domListeners s ++ [mkListener element key fn passive]) s).

(** [removeEvent(element, key, fn)]: detaching what is not attached does
    nothing. *)
Definition removeEvent (element : Node) (key : string) (fn : JSVal) : M unit :=
  modify (fun s =>
    set_domListeners
      (filter (fun l => negb (same_listener element key fn l)) (domListeners s)) s).

Definition same_kernel_listener (name : string) (fn : JSVal) (l : string * JSVal) : bool :=
  String.eqb (fst l) name && same_fn (snd l) fn.

Definition noKernel : JsError :=
  TypeError "Cannot read properties of undefined".

(** [this.__dispatcher.kernel.on(name, fn)]. *)
Definition kernel_on (name : string) (fn : JSVal) : M unit :=
  fun s => match kernel s with
           | Some ls => Return tt (set_kernel (Some (ls ++ [(name, fn)])) s)
           | None => Throw noKernel s
           end.

(** [this.__dispatcher.kernel.off(name, fn)]. *)
Definition kernel_off (name : string) (fn : JSVal) : M unit :=
  fun s => match kernel s with
           | Some ls =>
               Return tt (set_kernel
                 (Some (filter (fun l => negb (same_kernel_listener name fn l)) ls)) s)
           | None => Throw noKernel s
           end.

(** Media engines that are passed as arguments ([oldKernel], [newKernel])
    are objects of their own: a store gives the listener table of each
    engine, by reference, so that two arguments may be the same object. *)
Definition KernelRef : Type := nat.

Definition KernelStore : Type := KernelRef -> list (string * JSVal).

Definition store_set (h : KernelStore) (r : KernelRef) (v : list (string * JSVal))
  : KernelStore :=
  fun r' => if Nat.eqb r' r then v else h r'.

(** [engine.on(name, fn)] on the engine [r]. *)
Definition engine_on (r : KernelRef) (name : string) (fn : JSVal) (h : KernelStore)
  : KernelStore :=
  store_set h r (h r ++ [(name, fn)]).

(** [engine.off(name, fn)] on the engine [r]. *)
Definition engine_off (r : KernelRef) (name : string) (fn : JSVal) (h : KernelStore)
  : KernelStore :=
  store_set h r (filter (fun l => negb (same_kernel_listener name fn l)) (h r)).

Definition Log_warn (msg : string) : M unit :=
  modify (fun s => set_log (log s ++ [LogWarn msg]) s).

Definition Log_error (msg : string) : M unit :=
  modify (fun s => set_log (log s ++ [LogError msg]) s).

Definition logAll (es : list LogEntry) : M unit :=
  modify (fun s => set_log (log s ++ es) s).

(** Allocation of a closure. *)
Definition newFn : M nat :=
  fun s => Return (nextFn s) (set_nextFn (S (nextFn s)) s).

(** A call of a method of [this.buses[target]]. *)
Definition onBus (target : binderTarget) (f : Bus -> Bus) : M unit :=
  modify (fun s => set_buses (pk_set (buses s) target (f (pk_get (buses s) target))) s).

(* ===================================================================== *)
(** * The Binder                                                          *)
(* ===================================================================== *)

Record emitEventInfo : Type := mkEmit {
  e_id : JSVal;
  e_name : JSVal;
  e_target : option binderTarget
}.

Definition kinds : list binderTarget :=
  [T_kernel; T_container; T_wrapper; T_video; T_video_dom; T_plugin; T_esFullscreen].

(** [new Binder(dispatcher)]: the state right after construction, for a
    dispatcher with the given [dom] and media engine. *)
Definition constructor (d : Dom) (k : option (list (string * JSVal)))
           (ls : list DomListener) : State :=
  {| bindedEventNames := pk_all [];
     bindedEventInfo := pk_all [];
     buses := pk_all BusModel.empty;
     pendingEventsInfo := pk_all [];
     kernel := k;
     dom := d;
     domListeners := ls;
     log := [];
     nextFn := 0 |}.

(** The search loop of [_removeEventListenerOnTargetWhenIsUseless]: the
    index at which the loop stops and the value of [fn] then. *)
Fixpoint findBinded (l : list (string * JSVal)) (name : string) : nat * JSVal :=
  match l with
  | [] => (O, VUndefined)
  | (n, f) :: l' =>
      if String.eqb n name then (O, f)
      else let '(i, g) := findBinded l' name in (S i, g)
  end.

Definition emitNameError : string :=
  "You must provide a legal event name, which is string and could not started with before/after/_".

Definition emitIdError : string := "You must provide the id of emitter".

Definition handlerError (name : string) (fn : JSVal) : string :=
  "You must provide a function to handle with event " ++ name
    ++ ", but not " ++ typeof fn.

Section Binder.

Variable env : Env.

(** [prettifyEventParameter], the hook that [@before] runs ahead of
    [on], [off] and [once]. *)
Definition prettifyEventParameter (info : rawEventInfo) : M wholeEventInfo :=
  let id := r_id info in
  let fn := r_fn info in
  let '(i, warned) := getEventInfo_raw env info in
  logAll warned ;;
  if negb (isFunction fn) then throw (Error (handlerError (i_name i) fn))
  else ret {| w_id := id; w_fn := fn; w_name := i_name i;
              w_target := i_target i; w_stage := i_stage i |}.

(** [isEventEmitalbe], the guard that [@runnable] evaluates. *)
Definition isEventEmitalbe (info : emitEventInfo) : M bool :=
  let name := e_name info in
  let id := e_id info in
  if negb (truthy name) || negb (isString name)
     || match name with VStr n => secondaryReg_test n | _ => false end
  then Log_error emitNameError ;; ret false
  else if negb (truthy id) || negb (isString id)
  then Log_error emitIdError ;; ret false
  else ret true.

(** [checkEventEmitParameter]: [info.target = getEventInfo(info).target].
    Reading [name.match] of something that is no string throws. *)
Definition checkEventEmitParameter (info : emitEventInfo) : M emitEventInfo :=
  match e_name info with
  | VStr n =>
      let '(i, warned) := getEventInfo env n (e_target info) None in
      logAll warned ;;
      ret {| e_id := e_id info; e_name := e_name info; e_target := Some (i_target i) |}
  | _ => throw (TypeError "name.match is not a function")
  end.

(** [@runnable(isEventEmitalbe, { backup })] around
    [@before(checkEventEmitParameter)] around the method: the guard runs
    on the caller's arguments; when it does not return true the backup's
    value, or undefined without a backup, is returned instead. *)
Definition guardedDispatch (k : DispatchKind) (backup : option JSVal)
           (info : emitEventInfo) (args : list JSVal) : M JSVal :=
  ok <- isEventEmitalbe info ;;
  if ok then
    info' <- checkEventEmitParameter info ;;
    match e_target info', e_name info' with
    | Some target, VStr name =>
        onBus target (fun b => BusModel.dispatch b k name args) ;;
        ret (VBusReturn k)
    | _, _ => throw (TypeError "Cannot read properties of undefined")
    end
  else ret (match backup with Some v => v | None => VUndefined end).

Definition emit : emitEventInfo -> list JSVal -> M JSVal :=
  guardedDispatch D_emit None.

Definition emitSync : emitEventInfo -> list JSVal -> M JSVal :=
  guardedDispatch D_emitSync (Some (VBool false)).

Definition trigger : emitEventInfo -> list JSVal -> M JSVal :=
  guardedDispatch D_trigger None.

Definition triggerSync : emitEventInfo -> list JSVal -> M JSVal :=
  guardedDispatch D_triggerSync (Some (VBool false)).

Definition _getTargetDom (target : binderTarget) : M Node :=
  gets (fun s =>
    match target with
    | T_container => container (dom s)
    | T_wrapper => wrapper (dom s)
    | _ => videoElement (dom s)
    end).

Definition _isEventNeedToBeHandled (target : binderTarget) (name : string) : bool :=
  negb (binderTarget_eqb target T_plugin)
  && negb (binderTarget_eqb target T_esFullscreen)
  && ((indexOf (mustListenVideoDomEvents env) name <? 0)%Z
      || negb (binderTarget_eqb target T_video)).

Definition _addEventOnDom (element : Node) (key : string) (fn : JSVal) : M unit :=
  if (indexOf (passiveEvents env) key >? -1)%Z
  then addEvent element key fn true
  else addEvent element key fn false.

Definition addPendingEvent (target : binderTarget) (name id : string) : M unit :=
  modify (fun s =>
    set_pendingEventsInfo
      (pk_set (pendingEventsInfo s) target
              (pk_get (pendingEventsInfo s) target ++ [(name, id)])) s).

(** The two [push] calls that end [_addEventListenerOnTarget]. *)
Definition recordBinding (target : binderTarget) (name : string) (fn : JSVal) : M unit :=
  modify (fun s =>
    set_bindedEventInfo
      (pk_set (bindedEventInfo s) target
              (pk_get (bindedEventInfo s) target ++ [(name, fn)]))
      (set_bindedEventNames
         (pk_set (bindedEventNames s) target
                 (pk_get (bindedEventNames s) target ++ [name])) s)).

Definition _addEventListenerOnTarget (name : string) (target : binderTarget)
           (id : string) : M unit :=
  if negb (_isEventNeedToBeHandled target name) then ret tt
  else
    names <- gets (fun s => pk_get (bindedEventNames s) target) ;;
    if (indexOf names name >? -1)%Z then ret tt
    else
      targetDom <- _getTargetDom target ;;
      match target with
      | T_kernel =>
          k <- gets kernel ;;
          match k with
          | None => addPendingEvent target name id
          | Some _ =>
              u <- newFn ;;
              let fn := VFun (RelaySync u target name "kernel") in
              kernel_on name fn ;;
              recordBinding target name fn
          end
      | T_container | T_wrapper =>
          u <- newFn ;;
          let fn := VFun (RelaySync u target name (target_string target)) in
          _addEventOnDom targetDom name fn ;;
          recordBinding target name fn
      | T_video =>
          u <- newFn ;;
          let fn := VFun (RelayDeferred u target name (target_string target)) in
          _addEventOnDom targetDom name fn ;;
          recordBinding target name fn
      | T_video_dom =>
          u <- newFn ;;
          let fn := VFun (RelaySync u target name (target_string target)) in
          nodes <- gets (fun s => videoExtendedNodes (dom s)) ;;
          forEach nodes (fun node => _addEventOnDom node name fn) ;;
          _addEventOnDom targetDom name fn ;;
          recordBinding target name fn
      | T_plugin | T_esFullscreen =>
          (* no branch of the chain applies: fn is still undefined *)
          recordBinding target name VUndefined
      end.

Definition _removeEventListenerOnTargetWhenIsUseless (name : string)
           (target : binderTarget) : M unit :=
  if negb (_isEventNeedToBeHandled target name) then ret tt
  else
    eventNamesList <- gets (fun s => pk_get (bindedEventNames s) target) ;;
    let nameIndex := indexOf eventNamesList name in
    if (nameIndex <? 0)%Z then ret tt
    else
      bus <- gets (fun s => pk_get (buses s) target) ;;
      if negb (isEmpty (BusModel.events bus name)) then ret tt
      else
        bindedEventInfoList <- gets (fun s => pk_get (bindedEventInfo s) target) ;;
        let '(index, fn) := findBinded bindedEventInfoList name in
        if negb (isFunction fn) then ret tt
        else
          (match target with
           | T_kernel => kernel_off name fn
           | _ =>
               targetDom <- _getTargetDom target ;;
               removeEvent targetDom name fn ;;
               if binderTarget_eqb target T_video_dom then
                 nodes <- gets (fun s => videoExtendedNodes (dom s)) ;;
                 forEach nodes (fun node => removeEvent node name fn)
               else ret tt
           end) ;;
          modify (fun s =>
            set_bindedEventNames
              (pk_set (bindedEventNames s) target
                      (splice1 (Z.to_nat nameIndex)
                               (pk_get (bindedEventNames s) target)))
              (set_bindedEventInfo
                 (pk_set (bindedEventInfo s) target
                         (splice1 index (pk_get (bindedEventInfo s) target))) s)).

Definition on_body (w : wholeEventInfo) : M unit :=
  _addEventListenerOnTarget (w_name w) (w_target w) (w_id w) ;;
  onBus (w_target w) (fun b => BusModel.on b (w_id w) (w_name w) (w_fn w) (w_stage w)).

Definition off_body (w : wholeEventInfo) : M unit :=
  onBus (w_target w) (fun b => BusModel.off b (w_id w) (w_name w) (w_fn w) (w_stage w)) ;;
  _removeEventListenerOnTargetWhenIsUseless (w_name w) (w_target w).

Definition once_body (w : wholeEventInfo) : M unit :=
  onBus (w_target w) (fun b => BusModel.once b (w_id w) (w_name w) (w_fn w) (w_stage w)).

(** [@before(prettifyEventParameter) on(...)], and likewise [off] and
    [once].  What the Bus method returns is handed back as it is; the
    model keeps the effect on the state only. *)
Definition on (info : rawEventInfo) : M unit :=
  w <- prettifyEventParameter info ;; on_body w.

Definition off (info : rawEventInfo) : M unit :=
  w <- prettifyEventParameter info ;; off_body w.

Definition once (info : rawEventInfo) : M unit :=
  w <- prettifyEventParameter info ;; once_body w.

Definition bindEventOnPenetrateNode (node : Node) (remove : bool) : M unit :=
  l <- gets (fun s => pk_get (bindedEventInfo s) T_video_dom) ;;
  forEach l (fun '(name, fn) =>
    if remove then removeEvent node name fn else _addEventOnDom node name fn).

Definition bindEventOnVideo (node : Node) (remove : bool) : M unit :=
  l <- gets (fun s => pk_get (bindedEventInfo s) T_video_dom
                       ++ pk_get (bindedEventInfo s) T_video) ;;
  forEach l (fun '(name, fn) =>
    if remove then removeEvent node name fn else _addEventOnDom node name fn).

(** The body of the closure that [listenOnMouseMoveEvent] builds for
    [name]. *)
Definition mouseMoveHandler (name : string) (args : list JSVal) : M JSVal :=
  match args with
  | VEvent ev :: _ =>
      let to := match toElement ev with Some n => Some n | None => relatedTarget ev end in
      d <- gets dom ;;
      if mouseInVideo d && String.eqb (type ev) "mouseleave"
         && negb (isNodeInsideVideo d to)
      then
        modify (fun s => set_dom (set_mouseInVideo false (dom s)) s) ;;
        triggerSync {| e_id := VStr "_vm"; e_name := VStr name;
                       e_target := Some T_video_dom |} args
      else if negb (mouseInVideo d) && String.eqb (type ev) "mouseenter"
              && isNodeInsideVideo d (currentTarget ev)
      then
        modify (fun s => set_dom (set_mouseInVideo true (dom s)) s) ;;
        triggerSync {| e_id := VStr "_vm"; e_name := VStr name;
                       e_target := Some T_video_dom |} args
      else ret VUndefined
  | VUndefined :: _ | VNull :: _ | [] =>
      throw (TypeError "Cannot destructure args[0]")
  | _ :: _ =>
      (* every destructured field is undefined *)
      ret VUndefined
  end.

Definition listenOnMouseMoveEvent (node : Node) : M unit :=
  let target := T_video_dom in
  forEach (mustListenVideoDomEvents env) (fun name =>
    u <- newFn ;;
    let fn := VFun (MouseMoveFn u name) in
    _addEventOnDom node name fn ;;
    names <- gets (fun s => pk_get (bindedEventNames s) target) ;;
    if (indexOf names name <? 0)%Z then recordBinding target name fn
    else ret tt).

(** [migrateKernelEvent(oldKernel, newKernel)]: the binder's own state is
    only read; the listener tables of the two engines are what changes. *)
Definition migrateKernelEvent (oldKernel newKernel : KernelRef) (s : State)
           (h : KernelStore) : KernelStore :=
  fold_left (fun acc '(name, fn) =>
               engine_on newKernel name fn (engine_off oldKernel name fn acc))
            (pk_get (bindedEventInfo s) T_kernel) h.

Definition destroy : M unit :=
  forEach kinds (fun target =>
    (match target with
     | T_kernel =>
         l <- gets (fun s => pk_get (bindedEventInfo s) T_kernel) ;;
         forEach l (fun '(name, fn) => kernel_off name fn)
     | _ =>
         targetDom <- _getTargetDom target ;;
         l <- gets (fun s => pk_get (bindedEventInfo s) target) ;;
         forEach l (fun '(name, fn) =>
           removeEvent targetDom name fn ;;
           if binderTarget_eqb target T_video_dom then
             nodes <- gets (fun s => videoExtendedNodes (dom s)) ;;
             forEach nodes (fun node => removeEvent node name fn)
           else ret tt)
     end) ;;
    modify (fun s =>
      set_bindedEventNames (pk_set (bindedEventNames s) T_kernel [])
        (set_bindedEventInfo (pk_set (bindedEventInfo s) T_kernel []) s))).

(** The [while] loop of [applyPendingEvents]; [fuel] bounds the number of
    iterations, and the length of the copy is always enough. *)
Fixpoint drainPending (fuel : nat) (target : binderTarget)
         (pendingEventsCopy : list (string * string)) : M unit :=
  match fuel with
  | O => ret tt
  | S fuel' =>
      match pop pendingEventsCopy with
      | None => ret tt
      | Some ((name, id), rest) =>
          _addEventListenerOnTarget name target id ;;
          drainPending fuel' target rest
      end
  end.

Definition applyPendingEvents (target : binderTarget) : M unit :=
  pendingEventsCopy <- gets (fun s => pk_get (pendingEventsInfo s) target) ;;
  (* pendingEvents.splice(0, pendingEvents.length) *)
  modify (fun s => set_pendingEventsInfo (pk_set (pendingEventsInfo s) target []) s) ;;
  drainPending (List.length pendingEventsCopy) target pendingEventsCopy.

(** Calling a function value with [args]. *)
Definition callFn (fn : JSVal) (args : list JSVal) : M JSVal :=
  match fn with
  | VFun (RelaySync _ target name id) =>
      triggerSync {| e_id := VStr id; e_name := VStr name; e_target := Some target |} args
  | VFun (RelayDeferred _ target name id) =>
      trigger {| e_id := VStr id; e_name := VStr name; e_target := Some target |} args
  | VFun (MouseMoveFn _ name) => mouseMoveHandler name args
  | VFun (UserFn _) => ret VUndefined
  | _ => throw (TypeError "not a function")
  end.

(** The browser delivers [ev] to the listeners registered on [node] for
    [ev]'s type, in registration order. *)
Definition fireDomEvent (node : Node) (ev : DomEvent) : M unit :=
  ls <- gets (fun s =>
          filter (fun l => Nat.eqb (l_node l) node && String.eqb (l_type l) (type ev))
                 (domListeners s)) ;;
  forEach ls (fun l => callFn (l_fn l) [VEvent ev] ;; ret tt).

End Binder.

(* ===================================================================== *)
(** * Sample parameters                                                   *)
(* ===================================================================== *)

Definition isLetter (c : ascii) : bool :=
  let n := nat_of_ascii c in
  ((65 <=? n)%nat && (n <=? 90)%nat) || ((97 <=? n)%nat && (n <=? 122)%nat).

Definition toLower (c : ascii) : ascii :=
  let n := nat_of_ascii c in
  if (65 <=? n)%nat && (n <=? 90)%nat then ascii_of_nat (n + 32) else c.

Definition toUpper (c : ascii) : ascii :=
  let n := nat_of_ascii c in
  if (97 <=? n)%nat && (n <=? 122)%nat then ascii_of_nat (n - 32) else c.

(** The scan behind [camelizeSample]: [atStart] holds while no letter has
    been seen, [run] is the pending run of characters that are no letters. *)
Fixpoint camelizeFrom (atStart : bool) (run : string) (s : string) : string :=
  match s with
  | EmptyString => run
  | String c s' =>
      if isLetter c then
        if atStart then String (toLower c) (camelizeFrom false EmptyString s')
        else if String.eqb run EmptyString then String c (camelizeFrom false EmptyString s')
        else String (toUpper c) (camelizeFrom false EmptyString s')
      else camelizeFrom atStart (run ++ String c EmptyString) s'
  end.

(** A stand-in for chimee-helper's [camelize], used where a concrete
    environment is needed: a letter at the head of the string is lowered,
    a letter after a run of other characters is raised and the run dropped. *)
Definition camelizeSample (s : string) : string := camelizeFrom true EmptyString s.

(** Modelled from the spec: helper/const is not in the file.  The tables
    below are a sample of what the spec calls the static membership tables;
    the always-on whitelist holds the pointer enter and leave events. *)
Definition sampleEnv : Env :=
  {| videoEvents := ["play"; "pause"; "timeupdate"; "ended"];
     domEvents := ["click"; "dblclick"; "mouseenter"; "mouseleave"; "mousemove"];
     kernelEvents := ["mediaInfo"; "heartbeat"; "error"];
     passiveEvents := ["wheel"; "touchstart"; "touchmove"];
     esFullscreenEvents := ["fullscreenchange"; "fullscreenerror"];
     mustListenVideoDomEvents := ["mouseenter"; "mouseleave"];
     camelize := camelizeSample;
     NODE_ENV := "development" |}.

(** The same tables in a production build. *)
Definition productionEnv : Env :=
  {| videoEvents := videoEvents sampleEnv;
     domEvents := domEvents sampleEnv;
     kernelEvents := kernelEvents sampleEnv;
     passiveEvents := passiveEvents sampleEnv;
     esFullscreenEvents := esFullscreenEvents sampleEnv;
     mustListenVideoDomEvents := mustListenVideoDomEvents sampleEnv;
     camelize := camelizeSample;
     NODE_ENV := "production" |}.

(** A page: container 1, wrapper 2, video element 3, one extended node 4;
    node 9 lies outside the video surface. *)
Definition sampleDom : Dom :=
  {| container := 1;
     wrapper := 2;
     videoElement := 3;
     videoExtendedNodes := [4];
     mouseInVideo := false;
     isNodeInsideVideo := fun n =>
       match n with
       | Some 3 | Some 4 => true
       | _ => false
       end |}.

(** A binder right after construction, without and with a media engine. *)
Definition freshNoKernel : State := constructor sampleDom None [].
Definition freshWithKernel : State := constructor sampleDom (Some []) [].

Definition handlerA : JSVal := VFun (UserFn 100).
Definition handlerB : JSVal := VFun (UserFn 101).

(** A descriptor is canonical when its name carries neither a legacy
    prefix nor a stage prefix, and the bare name 'error' goes with the
    kernel target. *)
Definition canonical (d : additionalEventInfo) : Prop :=
  targetKeyReg_test (i_name d) = false
  /\ secondaryReg_test (i_name d) = false
  /\ (i_name d = "error" -> i_target d = T_kernel).

(* ===================================================================== *)
(** * Notions used by the statements                                      *)
(* ===================================================================== *)

(** The descriptor that the resolver returns for the name "c_c_click". *)
Definition nestedPrefixOnce : additionalEventInfo :=
  fst (getEventInfo_raw sampleEnv (mkRaw EmptyString VUndefined "c_c_click" None None)).

(** The warnings of one call that translates [oldName]: one outside a
    production build, none in a production build. *)
Definition legacyWarnings (env : Env) (oldName name : string) (target : binderTarget)
  : list LogEntry :=
  if String.eqb (NODE_ENV env) "production" then []
  else [LogWarn (warnOldName oldName name target)].

(** What a call may not touch when it fails or is refused: the Buses, the
    relay bookkeeping, the pending queues and the native listeners. *)
Definition sameBinderState (s s' : State) : Prop :=
  buses s' = buses s
  /\ bindedEventNames s' = bindedEventNames s
  /\ bindedEventInfo s' = bindedEventInfo s
  /\ pendingEventsInfo s' = pendingEventsInfo s
  /\ kernel s' = kernel s
  /\ domListeners s' = domListeners s.

(** The emission requests that the specification calls invalid: the name
    is absent (undefined, null or the empty string), is no string or starts
    with a stage prefix, or the id is absent or is no string. *)
Definition emitRejected (info : emitEventInfo) : Prop :=
  truthy (e_name info) = false
  \/ isString (e_name info) = false
  \/ (exists n, e_name info = VStr n /\ secondaryReg_test n = true)
  \/ truthy (e_id info) = false
  \/ isString (e_id info) = false.

(** The listener table after [_addEventOnDom element key fn]. *)
Definition attach (env : Env) (element : Node) (key : string) (fn : JSVal)
           (ls : list DomListener) : list DomListener :=
  if existsb (same_listener element key fn) ls then ls
  else ls ++ [mkListener element key fn (indexOf (passiveEvents env) key >? -1)%Z].

Definition attachAll (env : Env) (nodes : list Node) (key : string) (fn : JSVal)
           (ls : list DomListener) : list DomListener :=
  fold_left (fun acc node => attach env node key fn acc) nodes ls.

(** The listener table after [removeEvent element key fn]. *)
Definition detach (element : Node) (key : string) (fn : JSVal)
           (ls : list DomListener) : list DomListener :=
  filter (fun l => negb (same_listener element key fn l)) ls.

Definition detachAll (nodes : list Node) (key : string) (fn : JSVal)
           (ls : list DomListener) : list DomListener :=
  fold_left (fun acc node => detach node key fn acc) nodes ls.

(** The state after the two [push] calls that record a relay. *)
Definition bound (t : binderTarget) (n : string) (fn : JSVal) (s : State) : State :=
  set_bindedEventInfo
    (pk_set (bindedEventInfo s) t (pk_get (bindedEventInfo s) t ++ [(n, fn)]))
    (set_bindedEventNames
       (pk_set (bindedEventNames s) t (pk_get (bindedEventNames s) t ++ [n])) s).

(** The relay closure that [_addEventListenerOnTarget] builds for a kind. *)
Definition relayFor (t : binderTarget) (u : nat) (n : string) : JSVal :=
  match t with
  | T_kernel => VFun (RelaySync u t n "kernel")
  | T_video => VFun (RelayDeferred u t n (target_string t))
  | T_plugin | T_esFullscreen => VUndefined
  | _ => VFun (RelaySync u t n (target_string t))
  end.

Definition targetDomOf (s : State) (t : binderTarget) : Node :=
  match t with
  | T_container => container (dom s)
  | T_wrapper => wrapper (dom s)
  | _ => videoElement (dom s)
  end.

Definition enqueued (t : binderTarget) (n id : string) (s : State) : State :=
  set_pendingEventsInfo
    (pk_set (pendingEventsInfo s) t (pk_get (pendingEventsInfo s) t ++ [(n, id)])) s.

(** The state in which [_addEventListenerOnTarget name target id] leaves
    [s], in closed form. *)
Definition afterAdd (env : Env) (n : string) (t : binderTarget) (id : string)
           (s : State) : State :=
  if negb (_isEventNeedToBeHandled env t n) then s
  else if (indexOf (pk_get (bindedEventNames s) t) n >? -1)%Z then s
  else
    let fn := relayFor t (nextFn s) n in
    let s1 := set_nextFn (S (nextFn s)) s in
    match t with
    | T_kernel =>
        match kernel s with
        | None => enqueued t n id s
        | Some ls => bound t n fn (set_kernel (Some (ls ++ [(n, fn)])) s1)
        end
    | T_video_dom =>
        bound t n fn
          (set_domListeners
             (attach env (videoElement (dom s)) n fn
                (attachAll env (videoExtendedNodes (dom s)) n fn (domListeners s))) s1)
    | T_plugin | T_esFullscreen => bound t n VUndefined s
    | _ =>
        bound t n fn
          (set_domListeners (attach env (targetDomOf s t) n fn (domListeners s)) s1)
    end.

(** The physical state after the relay [fn] of [(t, n)] is taken off its
    source. *)
Definition unplugged (t : binderTarget) (n : string) (fn : JSVal) (s : State) : State :=
  match t with
  | T_kernel =>
      match kernel s with
      | Some ls =>
          set_kernel (Some (filter (fun l => negb (same_kernel_listener n fn l)) ls)) s
      | None => s
      end
  | T_video_dom =>
      set_domListeners
        (detachAll (videoExtendedNodes (dom s)) n fn
           (detach (videoElement (dom s)) n fn (domListeners s))) s
  | _ => set_domListeners (detach (targetDomOf s t) n fn (domListeners s)) s
  end.

(** The bookkeeping after the two [splice] calls. *)
Definition forgotten (t : binderTarget) (nameIndex index : nat) (s : State) : State :=
  set_bindedEventNames
    (pk_set (bindedEventNames s) t (splice1 nameIndex (pk_get (bindedEventNames s) t)))
    (set_bindedEventInfo
       (pk_set (bindedEventInfo s) t (splice1 index (pk_get (bindedEventInfo s) t))) s).

(** The state in which [_removeEventListenerOnTargetWhenIsUseless] leaves
    [s] when it returns, in closed form. *)
Definition afterRemove (env : Env) (n : string) (t : binderTarget) (s : State) : State :=
  if negb (_isEventNeedToBeHandled env t n) then s
  else
    let nameIndex := indexOf (pk_get (bindedEventNames s) t) n in
    if (nameIndex <? 0)%Z then s
    else if negb (isEmpty (BusModel.events (pk_get (buses s) t) n)) then s
    else
      let '(index, fn) := findBinded (pk_get (bindedEventInfo s) t) n in
      if negb (isFunction fn) then s
      else forgotten t (Z.to_nat nameIndex) index (unplugged t n fn s).

(** A physical event source: the media engine or a DOM node. *)
Inductive Source : Type :=
| OnKernel
| OnNode (node : Node).

(** The DOM nodes a relay of kind [t] is attached to. *)
Definition domNodes (s : State) (t : binderTarget) : list Node :=
  match t with
  | T_kernel | T_plugin | T_esFullscreen => []
  | T_video_dom => videoExtendedNodes (dom s) ++ [videoElement (dom s)]
  | _ => [targetDomOf s t]
  end.

(** The physical sources of kind [t]: the media engine for kernel, the DOM
    node(s) for container, wrapper, video and video-dom, none for plugin and
    esFullscreen. *)
Definition sourcesOf (s : State) (t : binderTarget) : list Source :=
  match t with
  | T_kernel => [OnKernel]
  | _ => map OnNode (domNodes s t)
  end.

(** [fn] is a closure that the binder built as a relay of kind [t]. *)
Definition relayOf (t : binderTarget) (fn : JSVal) : bool :=
  match fn with
  | VFun (RelaySync _ t' _ _) | VFun (RelayDeferred _ t' _ _) => binderTarget_eqb t' t
  | VFun (MouseMoveFn _ _) => binderTarget_eqb T_video_dom t
  | _ => false
  end.

Definition nativeOn (t : binderTarget) (n : string) (node : Node) (l : DomListener) : bool :=
  Nat.eqb (l_node l) node && String.eqb (l_type l) n && relayOf t (l_fn l).

(** The native listeners of [(t, n)] registered on a source: the relays of
    kind [t] listening there for the event [n]. *)
Definition attachedOn (s : State) (t : binderTarget) (n : string) (src : Source)
  : list JSVal :=
  match src with
  | OnKernel =>
      match kernel s with
      | Some ls =>
          map snd (filter (fun l => String.eqb (fst l) n && relayOf t (snd l)) ls)
      | None => []
      end
  | OnNode node => map l_fn (filter (nativeOn t n node) (domListeners s))
  end.

(** Whether the function [fn] is registered on a source for the event [n]. *)
Definition registeredOn (s : State) (src : Source) (n : string) (fn : JSVal) : bool :=
  match src with
  | OnKernel =>
      match kernel s with
      | Some ls => existsb (same_kernel_listener n fn) ls
      | None => false
      end
  | OnNode node => existsb (same_listener node n fn) (domListeners s)
  end.

(** The bookkeeping of [(t, n)] agrees with the sources: a bound name has
    exactly one native listener on each source of [t], an unbound name has
    none. *)
Definition relayConsistent (s : State) (t : binderTarget) (n : string) : Prop :=
  (In n (pk_get (bindedEventNames s) t) ->
   forall src, In src (sourcesOf s t) -> List.length (attachedOn s t n src) = 1)
  /\ (~ In n (pk_get (bindedEventNames s) t) ->
      forall src, In src (sourcesOf s t) -> attachedOn s t n src = []).

(** Well-formed bookkeeping of one kind: the names are those of the relay
    entries, in the same order and without repetition; every recorded relay
    is a function; every bound name is one the binder handles. *)
Definition wfTarget (env : Env) (s : State) (t : binderTarget) : Prop :=
  pk_get (bindedEventNames s) t = map fst (pk_get (bindedEventInfo s) t)
  /\ NoDup (pk_get (bindedEventNames s) t)
  /\ (forall n fn, In (n, fn) (pk_get (bindedEventInfo s) t) -> isFunction fn = true)
  /\ (forall n, In n (pk_get (bindedEventNames s) t) ->
                _isEventNeedToBeHandled env t n = true).

(** Well-formed binder: every kind is, and kernel relays are only bound
    while there is a media engine. *)
Definition wf (env : Env) (s : State) : Prop :=
  (forall t, wfTarget env s t)
  /\ (pk_get (bindedEventNames s) T_kernel <> [] -> kernel s <> None).

(** A name is settled for [t] when a further [_addEventListenerOnTarget]
    cannot attach anything for it. *)
Definition settled (env : Env) (s : State) (t : binderTarget) (n : string) : Prop :=
  _isEventNeedToBeHandled env t n = false
  \/ In n (pk_get (bindedEventNames s) t)
  \/ (t = T_kernel /\ kernel s = None).

(** Two subscribers with different ids and handlers for the same name on
    the plugin target, in a binder with a media engine. *)
Definition twoPluginSubscribers : outcome unit :=
  on sampleEnv (mkRaw "b" handlerB "custom" (Some T_plugin) None)
     (final (on sampleEnv (mkRaw "a" handlerA "custom" (Some T_plugin) None)
                freshWithKernel)).

(** Replaying a list of pending entries, first to last. *)
Definition replay (env : Env) (t : binderTarget) (l : list (string * string))
           (s : State) : State :=
  fold_left (fun acc p => afterAdd env (fst p) t (snd p) acc) l s.

(** The bound names after one more name was asked for. *)
Definition addName (acc : list string) (n : string) : list string :=
  if (indexOf acc n >? -1)%Z then acc else acc ++ [n].

(** The state after [pendingEvents.splice(0, pendingEvents.length)]. *)
Definition cleared (t : binderTarget) (s : State) : State :=
  set_pendingEventsInfo (pk_set (pendingEventsInfo s) t []) s.

(** [toElement || relatedTarget]. *)
Definition destination (ev : DomEvent) : option Node :=
  match toElement ev with Some m => Some m | None => relatedTarget ev end.

(** The first test of the closure: the pointer is inside, the event is a
    leave and its destination is outside the surface. *)
Definition leaving (s : State) (ev : DomEvent) : bool :=
  mouseInVideo (dom s) && String.eqb (type ev) "mouseleave"
  && negb (isNodeInsideVideo (dom s) (destination ev)).

(** The second test: the pointer is outside, the event is an enter and it
    is delivered on a node of the surface. *)
Definition entering (s : State) (ev : DomEvent) : bool :=
  negb (mouseInVideo (dom s)) && String.eqb (type ev) "mouseenter"
  && isNodeInsideVideo (dom s) (currentTarget ev).

(** The state after the boolean is set to [inVideo] and the synthetic event
    [name] is dispatched synchronously on the video-dom Bus. *)
Definition synthetic (name : string) (args : list JSVal) (inVideo : bool) (s : State)
  : State :=
  set_buses
    (pk_set (buses s) T_video_dom
       (BusModel.dispatch (pk_get (buses s) T_video_dom) D_triggerSync name args))
    (set_dom (set_mouseInVideo inVideo (dom s)) s).

Definition clickOnContainer : rawEventInfo :=
  mkRaw "a" handlerA "click" (Some T_container) None.

(** A binder with one subscriber and its relay on the container. *)
Definition boundClick : State := final (on sampleEnv clickOnContainer freshWithKernel).

(** Three kernel subscriptions made before the media engine exists, two of
    them for the same name, and the engine attached afterwards. *)
Definition queuedKernel : State :=
  set_kernel (Some [])
    (final (on sampleEnv (mkRaw "c" handlerA "mediaInfo" None None)
      (final (on sampleEnv (mkRaw "b" handlerB "heartbeat" None None)
        (final (on sampleEnv (mkRaw "a" handlerA "heartbeat" None None)
                   freshNoKernel)))))).

(** The page with the tracker listening on the video element and on the
    extended node. *)
Definition trackedPage : State :=
  final (bindEventOnPenetrateNode sampleEnv 4 false
           (final (listenOnMouseMoveEvent sampleEnv 3 freshWithKernel))).

Definition enterParent : DomEvent := mkDomEvent None (Some 3) (Some 9) "mouseenter".
Definition enterChild : DomEvent := mkDomEvent None (Some 4) (Some 3) "mouseenter".
Definition leaveParent : DomEvent := mkDomEvent None (Some 3) (Some 4) "mouseleave".
Definition leaveChild : DomEvent := mkDomEvent None (Some 4) (Some 9) "mouseleave".

(** [P] holds of the state a computation leaves behind, returned or
    thrown, whenever it held before. *)
Definition invariant {A : Type} (P : State -> Prop) (c : M A) : Prop :=
  forall s, P s -> P (final (c s)).

(** A property of the relay bookkeeping and of the presence of the media
    engine only. *)
Definition bookkeepingOnly (P : State -> Prop) : Prop :=
  forall s s',
    bindedEventNames s' = bindedEventNames s ->
    bindedEventInfo s' = bindedEventInfo s ->
    (kernel s <> None -> kernel s' <> None) ->
    P s -> P s'.

(** A property that does not depend on the Buses, on the pending queues,
    on the log or on the allocation counter. *)
Definition silentOnly (P : State -> Prop) : Prop :=
  forall s s',
    bindedEventNames s' = bindedEventNames s ->
    bindedEventInfo s' = bindedEventInfo s ->
    kernel s' = kernel s ->
    dom s' = dom s ->
    domListeners s' = domListeners s ->
    P s -> P s'.

(** The two assignments that end every round of [destroy]. *)
Definition kernelCleared (s : State) : State :=
  set_bindedEventNames (pk_set (bindedEventNames s) T_kernel [])
    (set_bindedEventInfo (pk_set (bindedEventInfo s) T_kernel []) s).

(** The detaching part of one round of [destroy]. *)
Definition detachKind (target : binderTarget) : M unit :=
  match target with
  | T_kernel =>
      l <- gets (fun s => pk_get (bindedEventInfo s) T_kernel) ;;
      forEach l (fun '(name, fn) => kernel_off name fn)
  | _ =>
      targetDom <- _getTargetDom target ;;
      l <- gets (fun s => pk_get (bindedEventInfo s) target) ;;
      forEach l (fun '(name, fn) =>
        removeEvent targetDom name fn ;;
        if binderTarget_eqb target T_video_dom then
          nodes <- gets (fun s => videoExtendedNodes (dom s)) ;;
          forEach nodes (fun node => removeEvent node name fn)
        else ret tt)
  end.

(** The bookkeeping of kind [t] is in step with the sources: every
    recorded relay is a relay of that kind and is the one native listener
    of its name on every source of [t]; a name that is not bound has no
    native listener there. *)
Definition relaySynced (s : State) (t : binderTarget) : Prop :=
  (forall n fn, In (n, fn) (pk_get (bindedEventInfo s) t) ->
     relayOf t fn = true
     /\ forall src, In src (sourcesOf s t) -> attachedOn s t n src = [fn])
  /\ (forall n, ~ In n (pk_get (bindedEventNames s) t) ->
        forall src, In src (sourcesOf s t) -> attachedOn s t n src = []).

Definition synced (s : State) : Prop := forall t, relaySynced s t.

(** The states a binder goes through between its construction and its
    teardown: subscriptions, unsubscriptions, emissions, flushes of the
    pending queues, and the dispatcher attaching a media engine. *)
Inductive reachable (env : Env) : State -> Prop :=
| reach_new (d : Dom) : reachable env (constructor d None [])
| reach_new_engine (d : Dom) : reachable env (constructor d (Some []) [])
| reach_engine (s : State) :
    reachable env s -> kernel s = None -> reachable env (set_kernel (Some []) s)
| reach_on (s : State) (info : rawEventInfo) :
    reachable env s -> reachable env (final (on env info s))
| reach_off (s : State) (info : rawEventInfo) :
    reachable env s -> reachable env (final (off env info s))
| reach_once (s : State) (info : rawEventInfo) :
    reachable env s -> reachable env (final (once env info s))
| reach_dispatch (s : State) (k : DispatchKind) (backup : option JSVal)
                 (info : emitEventInfo) (args : list JSVal) :
    reachable env s -> reachable env (final (guardedDispatch env k backup info args s))
| reach_flush (s : State) (t : binderTarget) :
    reachable env s -> reachable env (final (applyPendingEvents env t s)).

(** The listener of [(t, n)] neither shows nor hides the native listeners
    of another name or of another kind. *)
Definition unrelated (t t' : binderTarget) (n n' : string) (fn : JSVal) : Prop :=
  n' <> n \/ relayOf t' fn = false.

(** A computation that never throws. *)
Definition total {A : Type} (c : M A) : Prop :=
  forall s, returned (c s) = true.

(** One entry of the loop over the recorded relays of a kind, for the
    target node read before the loop. *)
Definition detachEntry (t : binderTarget) (targetDom : Node) (p : string * JSVal)
  : M unit :=
  match t with
  | T_kernel => kernel_off (fst p) (snd p)
  | _ =>
      removeEvent targetDom (fst p) (snd p) ;;
      if binderTarget_eqb t T_video_dom then
        nodes <- gets (fun s => videoExtendedNodes (dom s)) ;;
        forEach nodes (fun node => removeEvent node (fst p) (snd p))
      else ret tt
  end.

(** The method of the binder that asks the Bus for a dispatch of kind [k]. *)
Definition emissionMethod (env : Env) (k : DispatchKind)
  : emitEventInfo -> list JSVal -> M JSVal :=
  match k with
  | D_emit => emit env
  | D_emitSync => emitSync env
  | D_trigger => trigger env
  | D_triggerSync => triggerSync env
  end.

(** The state after one request of kind [k] reached the Bus of [t]. *)
Definition dispatchedOn (t : binderTarget) (k : DispatchKind) (name : string)
           (args : list JSVal) (s : State) : State :=
  set_buses (pk_set (buses s) t (BusModel.dispatch (pk_get (buses s) t) k name args)) s.

(** The dispatch a relay of kind [t] asks for: deferred for video,
    synchronous for the other kinds. *)
Definition relayKind (t : binderTarget) : DispatchKind :=
  match t with
  | T_video => D_trigger
  | _ => D_triggerSync
  end.

(** The listener table after [_addEventOnDom node name fn] for every entry
    of [l], and after [removeEvent node name fn] for every entry. *)
Definition attachEntries (env : Env) (node : Node) (l : list (string * JSVal))
           (ls : list DomListener) : list DomListener :=
  fold_left (fun acc p => attach env node (fst p) (snd p) acc) l ls.

Definition detachEntries (node : Node) (l : list (string * JSVal))
           (ls : list DomListener) : list DomListener :=
  fold_left (fun acc p => detach node (fst p) (snd p) acc) l ls.

(** The entries that [bindEventOnPenetrateNode] and [bindEventOnVideo] go
    through. *)
Definition penetrateEntries (s : State) : list (string * JSVal) :=
  pk_get (bindedEventInfo s) T_video_dom.

Definition videoEntries (s : State) : list (string * JSVal) :=
  pk_get (bindedEventInfo s) T_video_dom ++ pk_get (bindedEventInfo s) T_video.

(** The listeners that are registered on another node than [node]. *)
Definition elsewhere (node : Node) (ls : list DomListener) : list DomListener :=
  filter (fun x => negb (Nat.eqb (l_node x) node)) ls.

(** A binder with one subscriber to the DOM event click of the video
    element. *)
Definition clickOnVideo : State :=
  final (on sampleEnv (mkRaw "a" handlerA "click" None None) freshWithKernel).

(** One round of the loop of [migrateKernelEvent]. *)
Definition migrateEntry (oldKernel newKernel : KernelRef) (h : KernelStore)
           (p : string * JSVal) : KernelStore :=
  engine_on newKernel (fst p) (snd p) (engine_off oldKernel (fst p) (snd p) h).

(** A binder with an engine and one kernel subscription. *)
Definition boundHeartbeat : State :=
  final (on sampleEnv (mkRaw "a" handlerA "heartbeat" None None) freshWithKernel).

(** Engine 0 carries the listeners of the binder's engine, engine 1 is
    new. *)
Definition twoEngines : KernelStore :=
  fun r => match r with
           | O => match kernel boundHeartbeat with Some ls => ls | None => [] end
           | _ => []
           end.

(** The state after one round of the loop of [listenOnMouseMoveEvent]. *)
Definition tracked (env : Env) (node : Node) (name : string) (s : State) : State :=
  let fn := VFun (MouseMoveFn (nextFn s) name) in
  let s1 := set_domListeners (attach env node name fn (domListeners s))
              (set_nextFn (S (nextFn s)) s) in
  if (indexOf (pk_get (bindedEventNames s) T_video_dom) name <? 0)%Z
  then bound T_video_dom name fn s1
  else s1.

Definition trackedAll (env : Env) (node : Node) (names : list string) (s : State)
  : State :=
  fold_left (fun acc name => tracked env node name acc) names s.

(** A property of the Buses, of the pending queues and of the dom only. *)
Definition logicalOnly (P : State -> Prop) : Prop :=
  forall s s',
    buses s' = buses s -> pendingEventsInfo s' = pendingEventsInfo s ->
    dom s' = dom s -> P s -> P s'.

(** The stage a prefix stands for. *)
Definition stageOfPrefix (p : string) : option eventStage :=
  if String.eqb p "before" then Some S_before
  else if String.eqb p "after" then Some S_after
  else if String.eqb p "_" then Some S_private
  else None.

(* ===================================================================== *)
(** * The resolver                                                        *)
(* ===================================================================== *)

Example stage_extraction :
  fst (getEventInfo sampleEnv "beforePlay" None None)
  = {| i_name := "play"; i_stage := S_before; i_target := T_video |}.
Proof. reflexivity. Qed.

Lemma prefix_empty (s : string) : String.prefix EmptyString s = true.
Proof. destruct s; reflexivity. Qed.

Lemma getEventStage_plain env name :
  secondaryReg_test name = false -> getEventStage env name = (name, S_main).
Proof.
  unfold secondaryReg_test, getEventStage.
  destruct (secondaryReg_match name); [discriminate | reflexivity].
Qed.

Lemma getEventTargetByOldLogic_plain env name :
  targetKeyReg_test name = false -> name <> "error" ->
  getEventTargetByOldLogic env name = (None, []).
Proof.
  intros Hk He. unfold getEventTargetByOldLogic. rewrite Hk.
  destruct (String.eqb_spec name "error"); [contradiction | reflexivity].
Qed.

(** C6, counterexample: resolving the name "c_c_click" gives a descriptor
    named "c_click"; resolving that descriptor again gives another one,
    named "click".  The resolver is not idempotent on this input. *)
Lemma getEventInfo_twice_differs :
  nestedPrefixOnce = {| i_name := "c_click"; i_stage := S_main; i_target := T_container |}
  /\ fst (getEventInfo_raw sampleEnv (raw_of nestedPrefixOnce))
     = {| i_name := "click"; i_stage := S_main; i_target := T_container |}
  /\ fst (getEventInfo_raw sampleEnv (raw_of nestedPrefixOnce)) <> nestedPrefixOnce.
Proof. cbv. repeat split; discriminate. Qed.

(** C6, amended: a descriptor whose name carries no legacy prefix and no
    stage prefix, and which names 'error' only for the kernel target, is
    returned unchanged by the resolver, and no warning is logged. *)
Theorem getEventInfo_canonical_unchanged (env : Env) (d : additionalEventInfo) :
  canonical d -> getEventInfo_raw env (raw_of d) = (d, []).
Proof.
  intros (Hk & Hs & He). destruct d as [name stage target]. simpl in *.
  unfold getEventInfo_raw, getEventInfo. simpl.
  destruct (String.eqb_spec name "error") as [-> | Hne].
  - rewrite (He eq_refl). reflexivity.
  - rewrite (getEventTargetByOldLogic_plain env name Hk Hne).
    rewrite (getEventStage_plain env name Hs). reflexivity.
Qed.

Lemma getEventInfo_canonical_unchanged_witness :
  canonical (fst (getEventInfo_raw sampleEnv (mkRaw EmptyString VUndefined "c_click" None None)))
  /\ getEventInfo_raw sampleEnv
       (raw_of {| i_name := "click"; i_stage := S_main; i_target := T_container |})
     = ({| i_name := "click"; i_stage := S_main; i_target := T_container |}, []).
Proof.
  split.
  - cbv. repeat split. discriminate.
  - apply (getEventInfo_canonical_unchanged sampleEnv
             {| i_name := "click"; i_stage := S_main; i_target := T_container |}).
    cbv. repeat split. discriminate.
Defined.

(** C10, counterexample: in a production build the resolver translates
    "c_click" without logging any warning, so the number of deprecation
    warnings of that call is zero, not one. *)
Lemma legacy_warning_absent_in_production :
  getEventInfo_raw productionEnv (mkRaw EmptyString VUndefined "c_click" None None)
  = ({| i_name := "click"; i_stage := S_main; i_target := T_container |}, [])
  /\ List.length (filter isWarn
       (snd (getEventInfo_raw productionEnv (mkRaw EmptyString VUndefined "c_click" None None)))) <> 1.
Proof. split; [reflexivity | cbv; discriminate]. Qed.

(** C10, amended: resolving {name: "c_click"} yields name "click", target
    container and stage main; a name "w_" ++ rest is translated to target
    wrapper with the prefix stripped; either call logs exactly one
    deprecation warning unless NODE_ENV is 'production', where it logs
    none; resolving {name: "error"} yields target kernel with the name
    unchanged and no warning. *)
Theorem legacy_translation (env : Env) :
  (forall target,
      getEventInfo env "c_click" target None
      = ({| i_name := "click"; i_stage := S_main; i_target := T_container |},
         legacyWarnings env "c_click" "click" T_container))
  /\ (forall rest,
      getEventTargetByOldLogic env ("w_" ++ rest)
      = (Some (rest, T_wrapper), legacyWarnings env ("w_" ++ rest) rest T_wrapper))
  /\ (forall rest target stage,
      i_target (fst (getEventInfo env ("w_" ++ rest) target stage)) = T_wrapper
      /\ i_name (fst (getEventInfo env ("w_" ++ rest) target stage))
         = fst (getEventStage env rest)
      /\ snd (getEventInfo env ("w_" ++ rest) target stage)
         = legacyWarnings env ("w_" ++ rest) rest T_wrapper)
  /\ (forall target stage,
      i_name (fst (getEventInfo env "error" target stage)) = "error"
      /\ i_target (fst (getEventInfo env "error" target stage)) = T_kernel
      /\ snd (getEventInfo env "error" target stage) = [])
  /\ (NODE_ENV env <> "production" ->
      List.length (legacyWarnings env "c_click" "click" T_container) = 1)
  /\ (NODE_ENV env = "production" ->
      legacyWarnings env "c_click" "click" T_container = []).
Proof.
  assert (Hw : forall rest,
      getEventTargetByOldLogic env ("w_" ++ rest)
      = (Some (rest, T_wrapper), legacyWarnings env ("w_" ++ rest) rest T_wrapper)).
  { intros rest.
    unfold getEventTargetByOldLogic, legacyWarnings, targetKeyReg_strip, targetKeyReg_test.
    simpl. rewrite prefix_empty. simpl.
    destruct (String.eqb (NODE_ENV env) "production"); reflexivity. }
  split; [| split; [exact Hw | split; [| split; [| split]]]].
  - intros target.
    unfold getEventInfo, getEventTargetByOldLogic, legacyWarnings, targetKeyReg_strip,
      targetKeyReg_test.
    simpl.
    destruct (String.eqb (NODE_ENV env) "production"); reflexivity.
  - intros rest target stage. unfold getEventInfo. rewrite Hw.
    destruct (getEventStage env rest) as [n st]. simpl. repeat split.
  - intros target stage. unfold getEventInfo. simpl. repeat split.
  - intros Hne. unfold legacyWarnings.
    destruct (String.eqb_spec (NODE_ENV env) "production"); [contradiction | reflexivity].
  - intros He. unfold legacyWarnings. rewrite He. reflexivity.
Qed.

Lemma legacy_translation_witness :
  NODE_ENV sampleEnv <> "production"
  /\ List.length (legacyWarnings sampleEnv "c_click" "click" T_container) = 1.
Proof.
  split; [cbv; discriminate |].
  apply (proj1 (proj2 (proj2 (proj2 (proj2 (legacy_translation sampleEnv)))))).
  cbv; discriminate.
Defined.

(* ===================================================================== *)
(** * Target-indexed stores                                               *)
(* ===================================================================== *)

Lemma binderTarget_eqb_spec (a b : binderTarget) :
  reflect (a = b) (binderTarget_eqb a b).
Proof. destruct a, b; simpl; constructor; congruence. Qed.

Lemma pk_get_set_same {A : Type} (m : perKind A) (t : binderTarget) (v : A) :
  pk_get (pk_set m t v) t = v.
Proof. destruct t; reflexivity. Qed.

Lemma pk_get_set_other {A : Type} (m : perKind A) (t u : binderTarget) (v : A) :
  u <> t -> pk_get (pk_set m t v) u = pk_get m u.
Proof. destruct t, u; intros H; try reflexivity; contradiction H; reflexivity. Qed.

Lemma pk_set_get {A : Type} (m : perKind A) (t : binderTarget) :
  pk_set m t (pk_get m t) = m.
Proof. destruct m, t; reflexivity. Qed.

Lemma sameBinderState_set_log (s : State) (l : list LogEntry) :
  sameBinderState s (set_log l s).
Proof. repeat split. Qed.

(* ===================================================================== *)
(** * Emission                                                            *)
(* ===================================================================== *)

Lemma guardedDispatch_rejected (env : Env) (k : DispatchKind) (backup : option JSVal)
      (info : emitEventInfo) (args : list JSVal) (s : State) :
  emitRejected info ->
  exists msg,
    guardedDispatch env k backup info args s
    = Return (match backup with Some v => v | None => VUndefined end)
             (set_log (log s ++ [LogError msg]) s).
Proof.
  intros H. unfold guardedDispatch, isEventEmitalbe, bind, Log_error, modify, ret.
  unfold emitRejected in H. destruct info as [id name tgt]. simpl in *.
  destruct (negb (truthy name) || negb (isString name)
            || match name with VStr n => secondaryReg_test n | _ => false end) eqn:Hc.
  - exists emitNameError. reflexivity.
  - apply orb_false_iff in Hc. destruct Hc as [Hc Ht].
    apply orb_false_iff in Hc. destruct Hc as [Hy Hs].
    apply negb_false_iff in Hs. apply negb_false_iff in Hy.
    assert (Hid : negb (truthy id) || negb (isString id) = true).
    { destruct H as [H | [H | [(n & H & Hn) | [H | H]]]].
      - congruence.
      - congruence.
      - rewrite H in Ht. congruence.
      - rewrite H. reflexivity.
      - rewrite H. apply orb_true_r. }
    rewrite Hid. exists emitIdError. reflexivity.
Qed.

(** C5: each of emit, emitSync, trigger and triggerSync, called with an
    invalid request, returns (it does not throw) a falsy value, logs one
    error, and leaves every Bus as it was: nothing is dispatched. *)
Theorem invalid_emission_fails_softly (env : Env) (info : emitEventInfo)
        (args : list JSVal) (s : State) :
  emitRejected info ->
  forall op, In op [emit env; emitSync env; trigger env; triggerSync env] ->
  exists v msg,
    op info args s = Return v (set_log (log s ++ [LogError msg]) s)
    /\ falsy v = true
    /\ buses (final (op info args s)) = buses s
    /\ sameBinderState s (final (op info args s)).
Proof.
  intros H op Hop.
  assert (Hg : exists k backup, op = guardedDispatch env k backup
                 /\ falsy (match backup with Some v => v | None => VUndefined end) = true).
  { simpl in Hop. destruct Hop as [<- | [<- | [<- | [<- | []]]]].
    - exists D_emit, None. split; reflexivity.
    - exists D_emitSync, (Some (VBool false)). split; reflexivity.
    - exists D_trigger, None. split; reflexivity.
    - exists D_triggerSync, (Some (VBool false)). split; reflexivity. }
  destruct Hg as (k & backup & -> & Hf).
  destruct (guardedDispatch_rejected env k backup info args s H) as (msg & E).
  exists (match backup with Some v => v | None => VUndefined end), msg.
  rewrite E. simpl. repeat split. exact Hf.
Qed.

Lemma invalid_emission_fails_softly_witness :
  emitRejected (mkEmit (VStr EmptyString) (VStr "play") None)
  /\ exists v msg,
       emit sampleEnv (mkEmit (VStr EmptyString) (VStr "play") None) [] freshWithKernel
       = Return v (set_log (log freshWithKernel ++ [LogError msg]) freshWithKernel)
       /\ falsy v = true
       /\ buses (final (emit sampleEnv (mkEmit (VStr EmptyString) (VStr "play") None) []
                             freshWithKernel)) = buses freshWithKernel
       /\ sameBinderState freshWithKernel
            (final (emit sampleEnv (mkEmit (VStr EmptyString) (VStr "play") None) []
                         freshWithKernel)).
Proof.
  assert (H : emitRejected (mkEmit (VStr EmptyString) (VStr "play") None)).
  { unfold emitRejected. simpl. right. right. right. left. reflexivity. }
  split; [exact H |].
  apply (invalid_emission_fails_softly sampleEnv (mkEmit (VStr EmptyString) (VStr "play") None)
           [] freshWithKernel H (emit sampleEnv)).
  simpl. left. reflexivity.
Defined.

(* ===================================================================== *)
(** * Subscription with a handler that is no function                     *)
(* ===================================================================== *)

Lemma prettifyEventParameter_throws (env : Env) (info : rawEventInfo) (s : State) :
  isFunction (r_fn info) = false ->
  prettifyEventParameter env info s
  = Throw (Error (handlerError (i_name (fst (getEventInfo_raw env info))) (r_fn info)))
          (set_log (log s ++ snd (getEventInfo_raw env info)) s).
Proof.
  intros H. unfold prettifyEventParameter.
  destruct (getEventInfo_raw env info) as [i warned]. simpl.
  unfold bind, logAll, modify, throw. rewrite H. reflexivity.
Qed.

Lemma prettifyEventParameter_returns (env : Env) (info : rawEventInfo) (s : State) :
  isFunction (r_fn info) = true ->
  prettifyEventParameter env info s
  = Return {| w_id := r_id info; w_fn := r_fn info;
              w_name := i_name (fst (getEventInfo_raw env info));
              w_target := i_target (fst (getEventInfo_raw env info));
              w_stage := i_stage (fst (getEventInfo_raw env info)) |}
           (set_log (log s ++ snd (getEventInfo_raw env info)) s).
Proof.
  intros H. unfold prettifyEventParameter.
  destruct (getEventInfo_raw env info) as [i warned]. simpl.
  unfold bind, logAll, modify, ret. rewrite H. reflexivity.
Qed.

(** C9: on, off and once, called with a handler that is not callable,
    throw an Error whose message carries the resolved event name, and the
    Buses, the relay bookkeeping, the pending queues and the native
    listeners are as before the call. *)
Theorem non_callable_handler_throws (env : Env) (info : rawEventInfo) (s : State) :
  isFunction (r_fn info) = false ->
  forall op, In op [on env; off env; once env] ->
  exists s',
    op info s
    = Throw (Error ("You must provide a function to handle with event "
                      ++ i_name (fst (getEventInfo_raw env info))
                      ++ ", but not " ++ typeof (r_fn info))) s'
    /\ sameBinderState s s'.
Proof.
  intros H op Hop.
  exists (set_log (log s ++ snd (getEventInfo_raw env info)) s).
  split; [| apply sameBinderState_set_log].
  simpl in Hop. destruct Hop as [<- | [<- | [<- | []]]];
    unfold on, off, once, bind; rewrite (prettifyEventParameter_throws env info s H);
    reflexivity.
Qed.

Lemma non_callable_handler_throws_witness :
  isFunction (VStr "not a function") = false
  /\ exists s',
       on sampleEnv (mkRaw "a" (VStr "not a function") "c_click" None None) freshWithKernel
       = Throw (Error "You must provide a function to handle with event click, but not string") s'
       /\ sameBinderState freshWithKernel s'.
Proof.
  split; [reflexivity |].
  apply (non_callable_handler_throws sampleEnv
           (mkRaw "a" (VStr "not a function") "c_click" None None) freshWithKernel
           eq_refl (on sampleEnv)).
  simpl. left. reflexivity.
Defined.

(* ===================================================================== *)
(** * Teardown                                                            *)
(* ===================================================================== *)

(** C1, the code at a failing input: a binder with one relay bound on the
    container is destroyed.  The call returns and the relay is detached
    from the container node, but the container's entries in
    bindedEventNames and bindedEventInfo are still there: only the kernel's
    bookkeeping is reset, once per kind. *)
Theorem destroy_leaves_container_bookkeeping :
  domListeners boundClick
  = [mkListener 1 "click" (VFun (RelaySync 0 T_container "click" "container")) false]
  /\ returned (destroy boundClick) = true
  /\ domListeners (final (destroy boundClick)) = []
  /\ pk_get (bindedEventNames (final (destroy boundClick))) T_container = ["click"]
  /\ pk_get (bindedEventInfo (final (destroy boundClick))) T_container
     = [("click", VFun (RelaySync 0 T_container "click" "container"))].
Proof. vm_compute. repeat split. Qed.

(* ===================================================================== *)
(** * Array lemmas                                                        *)
(* ===================================================================== *)

Lemma indexOf_lower (l : list string) (x : string) : (-1 <= indexOf l x)%Z.
Proof.
  induction l as [| y l IH]; simpl; [lia |].
  destruct (String.eqb y x); [lia |].
  destruct (Z.ltb_spec (indexOf l x) 0); lia.
Qed.

Lemma indexOf_found (l : list string) (x : string) :
  (indexOf l x >? -1)%Z = true <-> In x l.
Proof.
  induction l as [| y l IH]; simpl.
  - split; [discriminate | contradiction].
  - destruct (String.eqb_spec y x) as [-> | Hne].
    + split; [intros _; left; reflexivity | reflexivity].
    + pose proof (indexOf_lower l x) as Hl.
      destruct (Z.ltb_spec (indexOf l x) 0) as [Hlt | Hge].
      * split; [discriminate |].
        intros [He | Hin]; [contradiction |].
        apply IH in Hin. apply Z.gtb_lt in Hin. lia.
      * split.
        -- intros _. right. apply IH. apply Z.gtb_lt. lia.
        -- intros _. apply Z.gtb_lt. lia.
Qed.

Lemma indexOf_missing (l : list string) (x : string) :
  (indexOf l x >? -1)%Z = false <-> ~ In x l.
Proof.
  rewrite <- indexOf_found. destruct (indexOf l x >? -1)%Z; split; congruence.
Qed.

Lemma indexOf_negative (l : list string) (x : string) :
  (indexOf l x <? 0)%Z = negb (indexOf l x >? -1)%Z.
Proof.
  pose proof (indexOf_lower l x).
  destruct (Z.ltb_spec (indexOf l x) 0); destruct (Z.gtb_spec (indexOf l x) (-1));
    simpl; try reflexivity; lia.
Qed.

Lemma Fn_eqb_refl (f : Fn) : Fn_eqb f f = true.
Proof.
  destruct f as [u | u t n i | u t n i | u n]; simpl;
    rewrite ?Nat.eqb_refl, ?String.eqb_refl; try reflexivity;
    destruct t; reflexivity.
Qed.

Lemma Fn_eqb_eq (f g : Fn) : Fn_eqb f g = true -> f = g.
Proof.
  destruct f as [u | u t n i | u t n i | u n], g as [v | v t' n' i' | v t' n' i' | v n'];
    simpl; try discriminate; intros H;
    repeat (apply andb_prop in H; destruct H as [H ?]);
    repeat match goal with
           | E : Nat.eqb _ _ = true |- _ => apply Nat.eqb_eq in E
           | E : String.eqb _ _ = true |- _ => apply String.eqb_eq in E
           | E : binderTarget_eqb _ _ = true |- _ =>
               apply (reflect_iff _ _ (binderTarget_eqb_spec _ _)) in E
           end; subst; reflexivity.
Qed.

Lemma same_fn_eq (a b : JSVal) : same_fn a b = true -> a = b.
Proof.
  destruct a, b; simpl; try discriminate. intros H. f_equal. apply Fn_eqb_eq, H.
Qed.

Lemma same_fn_refl (a : JSVal) : isFunction a = true -> same_fn a a = true.
Proof. destruct a; simpl; try discriminate. intros _. apply Fn_eqb_refl. Qed.

(* ===================================================================== *)
(** * Running the primitives                                              *)
(* ===================================================================== *)

Lemma set_domListeners_same (s : State) : set_domListeners (domListeners s) s = s.
Proof. destruct s; reflexivity. Qed.

Lemma forEach_app {A : Type} (l1 l2 : list A) (f : A -> M unit) (s : State) :
  forEach (l1 ++ l2) f s = (forEach l1 f ;; forEach l2 f)%js s.
Proof.
  revert s. induction l1 as [| x l1 IH]; intros s; simpl.
  - reflexivity.
  - unfold bind. destruct (f x s) as [[] s1 | e s1]; [| reflexivity].
    rewrite IH. reflexivity.
Qed.

Lemma run_addEventOnDom (env : Env) (element : Node) (key : string) (fn : JSVal)
      (s : State) :
  isFunction fn = true ->
  _addEventOnDom env element key fn s
  = Return tt (set_domListeners (attach env element key fn (domListeners s)) s).
Proof.
  intros H. unfold _addEventOnDom, addEvent, modify, attach.
  destruct (indexOf (passiveEvents env) key >? -1)%Z; rewrite H; simpl;
    destruct (existsb (same_listener element key fn) (domListeners s));
    rewrite ?set_domListeners_same; reflexivity.
Qed.

Lemma run_addEventOnDom_all (env : Env) (nodes : list Node) (key : string)
      (fn : JSVal) (s : State) :
  isFunction fn = true ->
  forEach nodes (fun node => _addEventOnDom env node key fn) s
  = Return tt (set_domListeners (attachAll env nodes key fn (domListeners s)) s).
Proof.
  intros H. revert s. induction nodes as [| m nodes IH]; intros s; simpl.
  - rewrite set_domListeners_same. reflexivity.
  - unfold bind. rewrite (run_addEventOnDom env m key fn s H). rewrite IH. reflexivity.
Qed.

Lemma run_removeEvent_all (nodes : list Node) (key : string) (fn : JSVal) (s : State) :
  forEach nodes (fun node => removeEvent node key fn) s
  = Return tt (set_domListeners (detachAll nodes key fn (domListeners s)) s).
Proof.
  revert s. induction nodes as [| m nodes IH]; intros s; simpl.
  - rewrite set_domListeners_same. reflexivity.
  - unfold bind, removeEvent at 1, modify. rewrite IH. reflexivity.
Qed.

Lemma relayFor_isFunction (t : binderTarget) (u : nat) (n : string) :
  t <> T_plugin -> t <> T_esFullscreen -> isFunction (relayFor t u n) = true.
Proof. destruct t; intros H1 H2; try reflexivity; contradiction. Qed.

(** [_addEventListenerOnTarget] always returns, and leaves [afterAdd]. *)
Lemma run_addEventListenerOnTarget (env : Env) (n : string) (t : binderTarget)
      (id : string) (s : State) :
  _addEventListenerOnTarget env n t id s = Return tt (afterAdd env n t id s).
Proof.
  unfold _addEventListenerOnTarget, afterAdd.
  destruct (negb (_isEventNeedToBeHandled env t n)); [reflexivity |].
  unfold bind at 1. unfold gets at 1.
  destruct (indexOf (pk_get (bindedEventNames s) t) n >? -1)%Z; [reflexivity |].
  destruct t; unfold bind, gets, _getTargetDom, newFn, recordBinding, modify; simpl.
  - destruct (kernel s) as [ls |] eqn:Hk; [| reflexivity].
    unfold kernel_on. simpl. rewrite Hk. reflexivity.
  - rewrite run_addEventOnDom by reflexivity. reflexivity.
  - rewrite run_addEventOnDom by reflexivity. reflexivity.
  - rewrite run_addEventOnDom by reflexivity. reflexivity.
  - rewrite run_addEventOnDom_all by reflexivity.
    rewrite run_addEventOnDom by reflexivity. reflexivity.
  - reflexivity.
  - reflexivity.
Qed.

Lemma run_removeEventListenerOnTarget (env : Env) (n : string) (t : binderTarget)
      (s : State) :
  (t = T_kernel -> In n (pk_get (bindedEventNames s) t) -> kernel s <> None) ->
  _removeEventListenerOnTargetWhenIsUseless env n t s = Return tt (afterRemove env n t s).
Proof.
  intros Hk. unfold _removeEventListenerOnTargetWhenIsUseless, afterRemove.
  destruct (negb (_isEventNeedToBeHandled env t n)); [reflexivity |].
  unfold bind, gets. cbv beta iota.
  rewrite indexOf_negative.
  destruct (indexOf (pk_get (bindedEventNames s) t) n >? -1)%Z eqn:Hi; [| reflexivity].
  change (negb true) with false. cbv beta iota.
  destruct (negb (isEmpty (BusModel.events (pk_get (buses s) t) n))); [reflexivity |].
  destruct (findBinded (pk_get (bindedEventInfo s) t) n) as [index fn].
  destruct (negb (isFunction fn)); [reflexivity |].
  apply indexOf_found in Hi.
  destruct t; unfold _getTargetDom, gets, removeEvent, modify, forgotten, unplugged, ret;
    simpl; try reflexivity.
  - unfold kernel_off. destruct (kernel s) as [ls |] eqn:Hks.
    + reflexivity.
    + exfalso. apply (Hk eq_refl Hi). reflexivity.
  - pose proof (run_removeEvent_all (videoExtendedNodes (dom s)) n fn
                  (set_domListeners (detach (videoElement (dom s)) n fn (domListeners s)) s))
      as E.
    unfold removeEvent, modify in E. simpl in E. unfold detach in *. rewrite E.
    reflexivity.
Qed.

(** [on], [off] and [once] with a callable handler, in closed form. *)
Lemma run_on (env : Env) (info : rawEventInfo) (s : State) :
  isFunction (r_fn info) = true ->
  let i := fst (getEventInfo_raw env info) in
  let s0 := set_log (log s ++ snd (getEventInfo_raw env info)) s in
  let s1 := afterAdd env (i_name i) (i_target i) (r_id info) s0 in
  on env info s
  = Return tt
      (set_buses (pk_set (buses s1) (i_target i)
         (BusModel.on (pk_get (buses s1) (i_target i)) (r_id info) (i_name i)
                      (r_fn info) (i_stage i))) s1).
Proof.
  intros H. simpl. unfold on, bind.
  rewrite (prettifyEventParameter_returns env info s H).
  unfold on_body, bind. simpl. rewrite run_addEventListenerOnTarget. reflexivity.
Qed.

Lemma run_once (env : Env) (info : rawEventInfo) (s : State) :
  isFunction (r_fn info) = true ->
  let i := fst (getEventInfo_raw env info) in
  let s0 := set_log (log s ++ snd (getEventInfo_raw env info)) s in
  once env info s
  = Return tt
      (set_buses (pk_set (buses s0) (i_target i)
         (BusModel.once (pk_get (buses s0) (i_target i)) (r_id info) (i_name i)
                        (r_fn info) (i_stage i))) s0).
Proof.
  intros H. simpl. unfold once, bind.
  rewrite (prettifyEventParameter_returns env info s H). reflexivity.
Qed.

Lemma run_off (env : Env) (info : rawEventInfo) (s : State) :
  isFunction (r_fn info) = true ->
  let i := fst (getEventInfo_raw env info) in
  let s0 := set_log (log s ++ snd (getEventInfo_raw env info)) s in
  let s1 := set_buses (pk_set (buses s0) (i_target i)
              (BusModel.off (pk_get (buses s0) (i_target i)) (r_id info) (i_name i)
                            (r_fn info) (i_stage i))) s0 in
  (i_target i = T_kernel -> In (i_name i) (pk_get (bindedEventNames s) T_kernel) ->
   kernel s <> None) ->
  off env info s = Return tt (afterRemove env (i_name i) (i_target i) s1).
Proof.
  intros H. simpl. intros Hk. unfold off, bind.
  rewrite (prettifyEventParameter_returns env info s H).
  unfold off_body, bind, onBus, modify. simpl.
  rewrite run_removeEventListenerOnTarget; [reflexivity |].
  simpl. intros Ht Hin. rewrite Ht in Hin. exact (Hk Ht Hin).
Qed.

(* ===================================================================== *)
(** * Physical sources and what is attached to them                       *)
(* ===================================================================== *)

Lemma handled_kinds (env : Env) (t : binderTarget) (n : string) :
  _isEventNeedToBeHandled env t n = true -> t <> T_plugin /\ t <> T_esFullscreen.
Proof.
  unfold _isEventNeedToBeHandled.
  destruct t; simpl; intros H; split; try discriminate; congruence.
Qed.

(** The four ways [_addEventListenerOnTarget] ends. *)
Lemma afterAdd_cases (env : Env) (n : string) (t : binderTarget) (id : string)
      (s : State) :
  let fn := relayFor t (nextFn s) n in
  let s1 := set_nextFn (S (nextFn s)) s in
  (afterAdd env n t id s = s
   /\ (_isEventNeedToBeHandled env t n = false \/ In n (pk_get (bindedEventNames s) t)))
  \/ (_isEventNeedToBeHandled env t n = true /\ ~ In n (pk_get (bindedEventNames s) t)
      /\ t = T_kernel /\ kernel s = None
      /\ afterAdd env n t id s = enqueued t n id s)
  \/ (_isEventNeedToBeHandled env t n = true /\ ~ In n (pk_get (bindedEventNames s) t)
      /\ t = T_kernel
      /\ exists ls, kernel s = Some ls
         /\ afterAdd env n t id s = bound t n fn (set_kernel (Some (ls ++ [(n, fn)])) s1))
  \/ (_isEventNeedToBeHandled env t n = true /\ ~ In n (pk_get (bindedEventNames s) t)
      /\ t <> T_kernel
      /\ afterAdd env n t id s
         = bound t n fn
             (set_domListeners (attachAll env (domNodes s t) n fn (domListeners s)) s1)).
Proof.
  simpl. unfold afterAdd.
  destruct (_isEventNeedToBeHandled env t n) eqn:Hh; simpl negb; cbv iota.
  2: { left. split; [reflexivity | left; reflexivity]. }
  destruct (indexOf (pk_get (bindedEventNames s) t) n >? -1)%Z eqn:Hi.
  { left. split; [reflexivity | right; apply indexOf_found, Hi]. }
  apply indexOf_missing in Hi.
  destruct (handled_kinds env t n Hh) as [Hp He].
  destruct t; try contradiction.
  - destruct (kernel s) as [ls |] eqn:Hk.
    + right. right. left. repeat split; try assumption. exists ls. split; reflexivity.
    + right. left. repeat split; assumption.
  - right. right. right. repeat split; try assumption; discriminate.
  - right. right. right. repeat split; try assumption; discriminate.
  - right. right. right. repeat split; try assumption; discriminate.
  - right. right. right. repeat split; try assumption; try discriminate.
    unfold domNodes, attachAll. rewrite fold_left_app. reflexivity.
Qed.

(* ===================================================================== *)
(** * Attaching and detaching DOM listeners                               *)
(* ===================================================================== *)

Section AttachOne.

Variable env : Env.
Variable t : binderTarget.
Variable n : string.
Variable fn : JSVal.
Hypothesis fn_function : isFunction fn = true.
Hypothesis fn_relay : relayOf t fn = true.

Let entry (m : Node) : DomListener :=
  mkListener m n fn (indexOf (passiveEvents env) n >? -1)%Z.

Lemma same_listener_native (m : Node) (l : DomListener) :
  same_listener m n fn l = true -> nativeOn t n m l = true.
Proof.
  unfold same_listener, nativeOn. intros H.
  apply andb_prop in H. destruct H as [H Hf].
  rewrite H. simpl. apply same_fn_eq in Hf. rewrite Hf. exact fn_relay.
Qed.

Lemma native_entry (m : Node) : nativeOn t n m (entry m) = true.
Proof.
  unfold nativeOn, entry. simpl.
  rewrite Nat.eqb_refl, String.eqb_refl. exact fn_relay.
Qed.

Lemma native_entry_other (m m' : Node) : m <> m' -> nativeOn t n m (entry m') = false.
Proof.
  intros H. unfold nativeOn, entry. simpl.
  destruct (Nat.eqb_spec m' m); [congruence | reflexivity].
Qed.

Lemma attach_filter_other (m m' : Node) (ls : list DomListener) :
  m <> m' ->
  filter (nativeOn t n m) (attach env m' n fn ls) = filter (nativeOn t n m) ls.
Proof.
  intros H. unfold attach.
  destruct (existsb (same_listener m' n fn) ls); [reflexivity |].
  rewrite filter_app. simpl. fold (entry m').
  rewrite (native_entry_other m m' H). apply app_nil_r.
Qed.

Lemma attach_filter_empty (m : Node) (ls : list DomListener) :
  filter (nativeOn t n m) ls = [] ->
  filter (nativeOn t n m) (attach env m n fn ls) = [entry m].
Proof.
  intros H. unfold attach.
  destruct (existsb (same_listener m n fn) ls) eqn:He.
  - apply existsb_exists in He. destruct He as (l & Hin & Hl).
    assert (Hf : In l (filter (nativeOn t n m) ls)).
    { apply filter_In. split; [exact Hin | apply same_listener_native, Hl]. }
    rewrite H in Hf. contradiction.
  - rewrite filter_app, H. simpl. fold (entry m). rewrite native_entry. reflexivity.
Qed.

Lemma attach_filter_single (m : Node) (ls : list DomListener) :
  filter (nativeOn t n m) ls = [entry m] ->
  filter (nativeOn t n m) (attach env m n fn ls) = [entry m].
Proof.
  intros H. unfold attach.
  assert (He : existsb (same_listener m n fn) ls = true).
  { apply existsb_exists. exists (entry m). split.
    - assert (Hin : In (entry m) (filter (nativeOn t n m) ls))
        by (rewrite H; left; reflexivity).
      apply filter_In in Hin. tauto.
    - unfold same_listener, entry. simpl.
      rewrite Nat.eqb_refl, String.eqb_refl, (same_fn_refl fn fn_function). reflexivity. }
  rewrite He. exact H.
Qed.

Lemma attachAll_keeps_single (nodes : list Node) (m : Node) (ls : list DomListener) :
  filter (nativeOn t n m) ls = [entry m] ->
  filter (nativeOn t n m) (attachAll env nodes n fn ls) = [entry m].
Proof.
  revert ls. induction nodes as [| m' nodes IH]; intros ls H; simpl; [exact H |].
  apply IH. destruct (Nat.eq_dec m m') as [<- | Hne].
  - apply attach_filter_single, H.
  - rewrite attach_filter_other by exact Hne. exact H.
Qed.

Lemma attachAll_keeps_other (nodes : list Node) (m : Node) (ls : list DomListener) :
  ~ In m nodes ->
  filter (nativeOn t n m) (attachAll env nodes n fn ls) = filter (nativeOn t n m) ls.
Proof.
  revert ls. induction nodes as [| m' nodes IH]; intros ls H; simpl; [reflexivity |].
  rewrite IH by (intros Hin; apply H; right; exact Hin).
  apply attach_filter_other. intros ->. apply H. left. reflexivity.
Qed.

(** After the relay has been attached on [nodes], which carried no native
    listener for [(t, n)], each of them carries exactly the relay. *)
Lemma attachAll_filter (nodes : list Node) (ls : list DomListener) :
  (forall m, In m nodes -> filter (nativeOn t n m) ls = []) ->
  forall m, In m nodes ->
    filter (nativeOn t n m) (attachAll env nodes n fn ls) = [entry m].
Proof.
  assert (G : forall nodes ls,
    (forall m, In m nodes ->
       filter (nativeOn t n m) ls = [] \/ filter (nativeOn t n m) ls = [entry m]) ->
    forall m, In m nodes ->
      filter (nativeOn t n m) (attachAll env nodes n fn ls) = [entry m]).
  { clear nodes ls. induction nodes as [| m' nodes IH]; intros ls H m Hin.
    - contradiction.
    - simpl. destruct (Nat.eq_dec m m') as [-> | Hne].
      + apply attachAll_keeps_single.
        destruct (H m' (or_introl eq_refl)) as [E | E].
        * apply attach_filter_empty, E.
        * apply attach_filter_single, E.
      + destruct Hin as [-> | Hin]; [contradiction Hne; reflexivity |].
        apply IH; [| exact Hin].
        intros k Hk. destruct (Nat.eq_dec k m') as [-> | Hkm].
        * right. destruct (H m' (or_introl eq_refl)) as [E | E].
          -- apply attach_filter_empty, E.
          -- apply attach_filter_single, E.
        * rewrite attach_filter_other by exact Hkm. apply H. right. exact Hk. }
  intros H m Hin. apply G; [| exact Hin].
  intros k Hk. left. apply H, Hk.
Qed.

End AttachOne.

Lemma detachAll_In (nodes : list Node) (key : string) (fn : JSVal)
      (ls : list DomListener) (l : DomListener) :
  In l (detachAll nodes key fn ls) ->
  In l ls /\ forall m, In m nodes -> same_listener m key fn l = false.
Proof.
  revert ls. induction nodes as [| m' nodes IH]; intros ls H; simpl in *.
  - split; [exact H | contradiction].
  - apply IH in H. destruct H as [Hin Hall].
    unfold detach in Hin. apply filter_In in Hin. destruct Hin as [Hin Hneg].
    split; [exact Hin |].
    intros m [<- | Hm]; [apply negb_true_iff, Hneg | apply Hall, Hm].
Qed.

Lemma detachAll_registered (nodes : list Node) (key : string) (fn : JSVal)
      (ls : list DomListener) (m : Node) :
  In m nodes -> existsb (same_listener m key fn) (detachAll nodes key fn ls) = false.
Proof.
  intros Hm. destruct (existsb (same_listener m key fn) (detachAll nodes key fn ls)) eqn:E;
    [| reflexivity].
  apply existsb_exists in E. destruct E as (l & Hin & Hl).
  apply detachAll_In in Hin. destruct Hin as [_ Hall].
  rewrite (Hall m Hm) in Hl. discriminate.
Qed.

(* ===================================================================== *)
(** * One relay per target and name                                       *)
(* ===================================================================== *)

Lemma bound_names (t : binderTarget) (n : string) (fn : JSVal) (s : State) :
  pk_get (bindedEventNames (bound t n fn s)) t = pk_get (bindedEventNames s) t ++ [n].
Proof. unfold bound. simpl. apply pk_get_set_same. Qed.

Lemma bound_info (t : binderTarget) (n : string) (fn : JSVal) (s : State) :
  pk_get (bindedEventInfo (bound t n fn s)) t = pk_get (bindedEventInfo s) t ++ [(n, fn)].
Proof. unfold bound. simpl. apply pk_get_set_same. Qed.

Lemma bound_names_other (t u : binderTarget) (n : string) (fn : JSVal) (s : State) :
  u <> t -> pk_get (bindedEventNames (bound t n fn s)) u = pk_get (bindedEventNames s) u.
Proof. intros H. unfold bound. simpl. apply pk_get_set_other, H. Qed.

Lemma bound_info_other (t u : binderTarget) (n : string) (fn : JSVal) (s : State) :
  u <> t -> pk_get (bindedEventInfo (bound t n fn s)) u = pk_get (bindedEventInfo s) u.
Proof. intros H. unfold bound. simpl. apply pk_get_set_other, H. Qed.

Lemma relayFor_relayOf (t : binderTarget) (u : nat) (n : string) :
  t <> T_plugin -> t <> T_esFullscreen -> relayOf t (relayFor t u n) = true.
Proof. destruct t; intros H1 H2; try reflexivity; contradiction. Qed.

(** After [_addEventListenerOnTarget], every source of [t] carries exactly
    one native listener for [(t, n)] if a relay was bound before or could be
    attached now, and none if the name is skipped or queued. *)
Lemma afterAdd_attached (env : Env) (n : string) (t : binderTarget) (id : string)
      (s : State) :
  relayConsistent s t n ->
  forall src, In src (sourcesOf s t) ->
    (List.length (attachedOn (afterAdd env n t id s) t n src) = 1
     /\ (In n (pk_get (bindedEventNames s) t)
         \/ (_isEventNeedToBeHandled env t n = true
             /\ (t = T_kernel -> kernel s <> None))))
    \/ (attachedOn (afterAdd env n t id s) t n src = []
        /\ ~ In n (pk_get (bindedEventNames s) t)
        /\ (_isEventNeedToBeHandled env t n = false
            \/ (t = T_kernel /\ kernel s = None))).
Proof.
  intros [Hb Hu] src Hsrc.
  destruct (afterAdd_cases env n t id s)
    as [[E Hc] | [(Hh & Hn & Ht & Hk & E) | [(Hh & Hn & Ht & ls & Hk & E)
                                           | (Hh & Hn & Ht & E)]]]; rewrite E; clear E.
  - destruct (in_dec string_dec n (pk_get (bindedEventNames s) t)) as [Hin | Hnin].
    + left. split; [apply Hb; assumption | left; exact Hin].
    + right. split; [apply Hu; assumption |]. split; [exact Hnin |].
      destruct Hc as [Hc | Hc]; [left; exact Hc | contradiction].
  - right. split; [| split; [exact Hn | right; split; assumption]].
    exact (Hu Hn src Hsrc).
  - left. split; [| right; split; [exact Hh | intros _; congruence]].
    subst t. simpl in Hsrc. destruct Hsrc as [<- | []].
    pose proof (Hu Hn OnKernel (or_introl eq_refl)) as H0.
    unfold attachedOn in *. rewrite Hk in H0. unfold bound. simpl.
    rewrite filter_app, map_app, H0. simpl. rewrite String.eqb_refl. reflexivity.
  - left. split; [| right; split; [exact Hh | intros; contradiction]].
    destruct (handled_kinds env t n Hh) as [Hp He].
    assert (Hs : sourcesOf s t = map OnNode (domNodes s t))
      by (destruct t; try reflexivity; contradiction).
    rewrite Hs in Hsrc. apply in_map_iff in Hsrc. destruct Hsrc as (m & <- & Hm).
    unfold attachedOn, bound. simpl.
    rewrite (attachAll_filter env t n (relayFor t (nextFn s) n)
               (relayFor_isFunction t _ n Hp He) (relayFor_relayOf t _ n Hp He)
               (domNodes s t) (domListeners s)); [reflexivity | | exact Hm].
    intros k Hk.
    assert (Hk' : In (OnNode k) (sourcesOf s t))
      by (rewrite Hs; apply in_map, Hk).
    pose proof (Hu Hn (OnNode k) Hk') as H0. simpl in H0.
    apply map_eq_nil in H0. exact H0.
Qed.

Lemma afterAdd_settles (env : Env) (n : string) (t : binderTarget) (id : string)
      (s : State) :
  settled env (afterAdd env n t id s) t n.
Proof.
  unfold settled.
  destruct (afterAdd_cases env n t id s)
    as [[E Hc] | [(Hh & Hn & Ht & Hk & E) | [(Hh & Hn & Ht & ls & Hk & E)
                                           | (Hh & Hn & Ht & E)]]]; rewrite E; clear E.
  - destruct Hc as [Hc | Hc]; [left; exact Hc | right; left; exact Hc].
  - right. right. split; assumption.
  - right. left. rewrite bound_names. apply in_or_app. right. left. reflexivity.
  - right. left. rewrite bound_names. apply in_or_app. right. left. reflexivity.
Qed.

Lemma afterAdd_inert (env : Env) (n : string) (t : binderTarget) (id : string)
      (s : State) :
  settled env s t n ->
  domListeners (afterAdd env n t id s) = domListeners s
  /\ kernel (afterAdd env n t id s) = kernel s
  /\ bindedEventNames (afterAdd env n t id s) = bindedEventNames s
  /\ bindedEventInfo (afterAdd env n t id s) = bindedEventInfo s.
Proof.
  intros Hs.
  destruct (afterAdd_cases env n t id s)
    as [[E Hc] | [(Hh & Hn & Ht & Hk & E) | [(Hh & Hn & Ht & ls & Hk & E)
                                           | (Hh & Hn & Ht & E)]]].
  - rewrite E. repeat split.
  - rewrite E. repeat split.
  - exfalso. destruct Hs as [Hs | [Hs | [_ Hs]]]; congruence.
  - exfalso. destruct Hs as [Hs | [Hs | [Hs _]]]; congruence.
Qed.

Lemma afterAdd_frame (env : Env) (n : string) (t : binderTarget) (id : string)
      (s : State) :
  buses (afterAdd env n t id s) = buses s
  /\ dom (afterAdd env n t id s) = dom s
  /\ log (afterAdd env n t id s) = log s.
Proof.
  destruct (afterAdd_cases env n t id s)
    as [[E Hc] | [(Hh & Hn & Ht & Hk & E) | [(Hh & Hn & Ht & ls & Hk & E)
                                           | (Hh & Hn & Ht & E)]]];
    rewrite E; repeat split.
Qed.

Lemma attachedOn_ext (s s' : State) (t : binderTarget) (n : string) (src : Source) :
  kernel s' = kernel s -> domListeners s' = domListeners s ->
  attachedOn s' t n src = attachedOn s t n src.
Proof. intros Hk Hd. unfold attachedOn. rewrite Hk, Hd. reflexivity. Qed.

(** C2, counterexample: two subscribers with different ids and handlers
    are registered for the same name on the plugin target, in a binder with
    a media engine.  Both calls return and the plugin Bus has two
    subscribers, but no native listener exists anywhere, on no DOM node and
    not on the media engine: the count is zero, not one. *)
Lemma on_twice_plugin_no_listener :
  returned twoPluginSubscribers = true
  /\ List.length (subscribers (pk_get (buses (final twoPluginSubscribers)) T_plugin)) = 2
  /\ domListeners (final twoPluginSubscribers) = []
  /\ kernel (final twoPluginSubscribers) = Some []
  /\ List.length (domListeners (final twoPluginSubscribers)) <> 1.
Proof. vm_compute. repeat split. discriminate. Qed.

(** C2, amended: two [on] calls that resolve to the same target kind and
    name, made in a state whose bookkeeping for that pair agrees with the
    sources (every reachable state is one, [reachable_consistent]), both
    return; the second attaches no native listener; the
    target's Bus holds exactly the two new subscribers after the old ones;
    every source of the kind carries at most one native listener for the
    pair, and exactly one when the binder handles the pair and, for kernel,
    a media engine is attached.  When the pair is not handled (targets
    plugin and esFullscreen, whitelisted names on video) or the engine is
    missing, the calls attach nothing. *)
Theorem on_twice_one_relay (env : Env) (info1 info2 : rawEventInfo) (s : State)
        (t : binderTarget) (n : string) :
  isFunction (r_fn info1) = true ->
  isFunction (r_fn info2) = true ->
  i_target (fst (getEventInfo_raw env info1)) = t ->
  i_name (fst (getEventInfo_raw env info1)) = n ->
  i_target (fst (getEventInfo_raw env info2)) = t ->
  i_name (fst (getEventInfo_raw env info2)) = n ->
  relayConsistent s t n ->
  exists s1 s2,
    on env info1 s = Return tt s1
    /\ on env info2 s1 = Return tt s2
    /\ domListeners s2 = domListeners s1
    /\ kernel s2 = kernel s1
    /\ subscribers (pk_get (buses s2) t)
       = subscribers (pk_get (buses s) t)
         ++ [mkSub (r_id info1) n (r_fn info1)
                   (i_stage (fst (getEventInfo_raw env info1))) false;
             mkSub (r_id info2) n (r_fn info2)
                   (i_stage (fst (getEventInfo_raw env info2))) false]
    /\ (forall src, In src (sourcesOf s t) ->
          (List.length (attachedOn s2 t n src) <= 1)%nat)
    /\ (_isEventNeedToBeHandled env t n = true ->
        (t = T_kernel -> kernel s <> None) ->
        forall src, In src (sourcesOf s t) -> List.length (attachedOn s2 t n src) = 1)
    /\ (~ In n (pk_get (bindedEventNames s) t) ->
        _isEventNeedToBeHandled env t n = false \/ (t = T_kernel /\ kernel s = None) ->
        forall src, In src (sourcesOf s t) -> attachedOn s2 t n src = []).
Proof.
  intros H1 H2 Ht1 Hn1 Ht2 Hn2 Hc.
  pose proof (run_on env info1 s H1) as R1. cbv zeta in R1. rewrite Ht1, Hn1 in R1.
  set (s0 := set_log (log s ++ snd (getEventInfo_raw env info1)) s) in *.
  set (a1 := afterAdd env n t (r_id info1) s0) in *.
  set (s1 := set_buses _ a1) in R1.
  pose proof (run_on env info2 s1 H2) as R2. cbv zeta in R2. rewrite Ht2, Hn2 in R2.
  set (s0' := set_log (log s1 ++ snd (getEventInfo_raw env info2)) s1) in *.
  set (a2 := afterAdd env n t (r_id info2) s0') in *.
  set (s2 := set_buses _ a2) in R2.
  assert (Hset : settled env s0' t n) by exact (afterAdd_settles env n t (r_id info1) s0).
  destruct (afterAdd_inert env n t (r_id info2) s0' Hset) as (Hd & Hk & _ & _).
  fold a2 in Hd, Hk.
  destruct (afterAdd_frame env n t (r_id info1) s0) as (Hb1 & _ & _). fold a1 in Hb1.
  destruct (afterAdd_frame env n t (r_id info2) s0') as (Hb2 & _ & _). fold a2 in Hb2.
  assert (Hatt : forall src, attachedOn s2 t n src = attachedOn a1 t n src).
  { intros src. apply attachedOn_ext; [exact Hk | exact Hd]. }
  assert (Hc0 : relayConsistent s0 t n) by exact Hc.
  exists s1, s2. split; [exact R1 |]. split; [exact R2 |].
  split; [exact Hd |]. split; [exact Hk |]. split; [| split; [| split]].
  - unfold s2. simpl. rewrite pk_get_set_same, Hb2. unfold s0', s1. simpl.
    rewrite pk_get_set_same, Hb1. unfold s0. simpl. rewrite <- app_assoc. reflexivity.
  - intros src Hsrc. rewrite Hatt.
    destruct (afterAdd_attached env n t (r_id info1) s0 Hc0 src Hsrc) as [[E _] | [E _]];
      fold a1 in E; rewrite E; simpl; lia.
  - intros Hh Hke src Hsrc. rewrite Hatt.
    destruct (afterAdd_attached env n t (r_id info1) s0 Hc0 src Hsrc)
      as [[E _] | (_ & _ & [Hf | [Hf Hf']])].
    + exact E.
    + congruence.
    + exfalso. exact (Hke Hf Hf').
  - intros Hn Hskip src Hsrc. rewrite Hatt.
    destruct (afterAdd_attached env n t (r_id info1) s0 Hc0 src Hsrc)
      as [[_ [Hin | [Hh Hke]]] | [E _]].
    + contradiction.
    + exfalso. destruct Hskip as [Hf | [Hf Hf']]; [congruence | exact (Hke Hf Hf')].
    + exact E.
Qed.

Lemma on_twice_one_relay_witness :
  relayConsistent freshWithKernel T_container "click"
  /\ exists s1 s2,
       on sampleEnv (mkRaw "a" handlerA "c_click" None None) freshWithKernel = Return tt s1
       /\ on sampleEnv (mkRaw "b" handlerB "click" (Some T_container) None) s1
          = Return tt s2
       /\ List.length (subscribers (pk_get (buses s2) T_container)) = 2
       /\ List.length (attachedOn s2 T_container "click" (OnNode 1)) = 1.
Proof.
  assert (Hc : relayConsistent freshWithKernel T_container "click").
  { split; [intros [] | intros _ src _; destruct src; reflexivity]. }
  split; [exact Hc |].
  destruct (on_twice_one_relay sampleEnv
              (mkRaw "a" handlerA "c_click" None None)
              (mkRaw "b" handlerB "click" (Some T_container) None)
              freshWithKernel T_container "click"
              eq_refl eq_refl eq_refl eq_refl eq_refl eq_refl Hc)
    as (s1 & s2 & R1 & R2 & _ & _ & Hsub & _ & Hone & _).
  exists s1, s2. split; [exact R1 |]. split; [exact R2 |]. split.
  - rewrite Hsub. reflexivity.
  - apply Hone; [reflexivity | discriminate | left; reflexivity].
Defined.

(* ===================================================================== *)
(** * once                                                                *)
(* ===================================================================== *)

(** C8: a [once] call with a callable handler returns and only registers
    the subscriber on the Bus of the resolved target: the relay entries, the
    bound names and the pending queues of every kind, the DOM listeners and
    the media engine's listeners are untouched, also when no relay exists
    for the pair.  An [on] call in the same state, for a pair the binder
    handles and with the source available, leaves the name bound. *)
Theorem once_registers_only (env : Env) (info : rawEventInfo) (s : State) :
  isFunction (r_fn info) = true ->
  exists s',
    once env info s = Return tt s'
    /\ bindedEventInfo s' = bindedEventInfo s
    /\ bindedEventNames s' = bindedEventNames s
    /\ pendingEventsInfo s' = pendingEventsInfo s
    /\ domListeners s' = domListeners s
    /\ kernel s' = kernel s
    /\ pk_get (buses s') (i_target (fst (getEventInfo_raw env info)))
       = BusModel.once (pk_get (buses s) (i_target (fst (getEventInfo_raw env info))))
           (r_id info) (i_name (fst (getEventInfo_raw env info))) (r_fn info)
           (i_stage (fst (getEventInfo_raw env info)))
    /\ (forall t, t <> i_target (fst (getEventInfo_raw env info)) ->
                  pk_get (buses s') t = pk_get (buses s) t)
    /\ (_isEventNeedToBeHandled env (i_target (fst (getEventInfo_raw env info)))
          (i_name (fst (getEventInfo_raw env info))) = true ->
        (i_target (fst (getEventInfo_raw env info)) = T_kernel -> kernel s <> None) ->
        In (i_name (fst (getEventInfo_raw env info)))
           (pk_get (bindedEventNames (final (on env info s)))
                   (i_target (fst (getEventInfo_raw env info))))).
Proof.
  intros H. pose proof (run_once env info s H) as R. cbv zeta in R.
  eexists. split; [exact R |]. simpl.
  split; [reflexivity |]. split; [reflexivity |]. split; [reflexivity |].
  split; [reflexivity |]. split; [reflexivity |].
  split; [apply pk_get_set_same |]. split; [intros t Ht; apply pk_get_set_other, Ht |].
  intros Hh Hk. rewrite (run_on env info s H). simpl.
  set (i := fst (getEventInfo_raw env info)) in *.
  set (s0 := set_log _ s).
  destruct (afterAdd_settles env (i_name i) (i_target i) (r_id info) s0)
    as [Hs | [Hs | [Hs Hs']]].
  - congruence.
  - exact Hs.
  - exfalso. apply (Hk Hs).
    destruct (afterAdd_inert env (i_name i) (i_target i) (r_id info) s0) as (_ & E & _).
    + right. right. split; [exact Hs |].
      destruct (afterAdd_cases env (i_name i) (i_target i) (r_id info) s0)
        as [[E Hc] | [(_ & _ & _ & Hk0 & _) | [(_ & _ & _ & ls & Hk0 & E)
                                              | (_ & _ & Ht & _)]]].
      * rewrite E in Hs'. exact Hs'.
      * exact Hk0.
      * rewrite E in Hs'. simpl in Hs'. discriminate.
      * contradiction.
    + rewrite E in Hs'. exact Hs'.
Qed.

Lemma once_registers_only_witness :
  isFunction handlerA = true
  /\ exists s',
       once sampleEnv (mkRaw "a" handlerA "click" (Some T_container) None) freshWithKernel
       = Return tt s'
       /\ bindedEventInfo s' = bindedEventInfo freshWithKernel
       /\ domListeners s' = []
       /\ subscribers (pk_get (buses s') T_container)
          = [mkSub "a" "click" handlerA S_main true].
Proof.
  split; [reflexivity |].
  destruct (once_registers_only sampleEnv
              (mkRaw "a" handlerA "click" (Some T_container) None) freshWithKernel eq_refl)
    as (s' & R & Hi & _ & _ & Hd & _ & Hb & _).
  exists s'. split; [exact R |]. split; [exact Hi |]. split; [exact Hd |].
  exact (f_equal subscribers Hb).
Defined.

(* ===================================================================== *)
(** * Relay teardown on the last unsubscribe                              *)
(* ===================================================================== *)

Lemma In_splice1 {A : Type} (i : nat) (l : list A) (x : A) :
  In x (splice1 i l) -> In x l.
Proof.
  revert i. induction l as [| y l IH]; intros i H; simpl in *; [exact H |].
  destruct i as [| i]; [right; exact H |].
  destruct H as [H | H]; [left; exact H | right; apply (IH i), H].
Qed.

Lemma NoDup_splice1 {A : Type} (i : nat) (l : list A) :
  NoDup l -> NoDup (splice1 i l).
Proof.
  revert i. induction l as [| y l IH]; intros i H; simpl; [constructor |].
  inversion H as [| ? ? Hy Hl]; subst.
  destruct i as [| i]; [exact Hl |].
  constructor; [| apply IH, Hl].
  intros Hin. apply Hy. apply (In_splice1 i), Hin.
Qed.

Lemma map_splice1 {A B : Type} (f : A -> B) (i : nat) (l : list A) :
  map f (splice1 i l) = splice1 i (map f l).
Proof.
  revert i. induction l as [| y l IH]; intros i; simpl; [reflexivity |].
  destruct i as [| i]; [reflexivity |]. simpl. rewrite IH. reflexivity.
Qed.

Lemma indexOf_to_nat_cons (y x : string) (l : list string) :
  y <> x -> In x l ->
  Z.to_nat (indexOf (y :: l) x) = S (Z.to_nat (indexOf l x)).
Proof.
  intros Hne Hin. simpl.
  destruct (String.eqb_spec y x); [contradiction |].
  apply indexOf_found in Hin. apply Z.gtb_lt in Hin.
  destruct (Z.ltb_spec (indexOf l x) 0); lia.
Qed.

Lemma splice1_indexOf_removes (l : list string) (x : string) :
  NoDup l -> In x l -> ~ In x (splice1 (Z.to_nat (indexOf l x)) l).
Proof.
  induction l as [| y l IH]; intros Hnd Hin; [contradiction |].
  inversion Hnd as [| ? ? Hy Hl]; subst.
  destruct (String.eqb_spec y x) as [-> | Hne].
  - simpl. rewrite String.eqb_refl. simpl. exact Hy.
  - destruct Hin as [He | Hin]; [contradiction |].
    rewrite (indexOf_to_nat_cons y x l Hne Hin). simpl.
    intros [He | H]; [contradiction | exact (IH Hl Hin H)].
Qed.

Lemma findBinded_found (l : list (string * JSVal)) (n : string) :
  In n (map fst l) ->
  In (n, snd (findBinded l n)) l
  /\ fst (findBinded l n) = Z.to_nat (indexOf (map fst l) n).
Proof.
  induction l as [| [a b] l IH]; intros Hin; [contradiction |].
  simpl findBinded. destruct (String.eqb_spec a n) as [-> | Hne].
  - simpl. rewrite String.eqb_refl. split; [left; reflexivity | reflexivity].
  - destruct Hin as [He | Hin]; [contradiction |].
    destruct (IH Hin) as [H1 H2].
    destruct (findBinded l n) as [i g]. simpl in *.
    split; [right; exact H1 |].
    change (S i = Z.to_nat (indexOf (a :: map fst l) n)).
    rewrite (indexOf_to_nat_cons a n (map fst l) Hne Hin). rewrite H2. reflexivity.
Qed.

Lemma existsb_filter_negb {A : Type} (p : A -> bool) (l : list A) :
  existsb p (filter (fun x => negb (p x)) l) = false.
Proof.
  induction l as [| x l IH]; simpl; [reflexivity |].
  destruct (p x) eqn:E; simpl; [exact IH | rewrite E, IH; reflexivity].
Qed.

(** Once the relay of [(t, n)] is unplugged it is registered on no source
    of [t]. *)
Lemma unplugged_registered (t : binderTarget) (n : string) (fn : JSVal) (s : State) :
  forall src, In src (sourcesOf s t) -> registeredOn (unplugged t n fn s) src n fn = false.
Proof.
  intros src Hsrc.
  destruct t; simpl in Hsrc;
    try (destruct Hsrc as [<- | []]; unfold unplugged, registeredOn; simpl;
         apply existsb_filter_negb);
    try contradiction.
  - destruct Hsrc as [<- | []]. unfold unplugged, registeredOn.
    destruct (kernel s) as [ls |] eqn:Hk; simpl; [| rewrite Hk; reflexivity].
    apply existsb_filter_negb.
  - apply in_map_iff in Hsrc. destruct Hsrc as (m & <- & Hm).
    unfold unplugged, registeredOn. simpl.
    change (detachAll (videoExtendedNodes (dom s)) n fn
              (detach (videoElement (dom s)) n fn (domListeners s)))
      with (detachAll (videoElement (dom s) :: videoExtendedNodes (dom s)) n fn
              (domListeners s)).
    apply detachAll_registered.
    apply in_app_or in Hm. destruct Hm as [Hm | [<- | []]];
      [right; exact Hm | left; reflexivity].
Qed.

(** The two ways [_removeEventListenerOnTargetWhenIsUseless] ends. *)
Lemma afterRemove_cases (env : Env) (n : string) (t : binderTarget) (s : State) :
  (afterRemove env n t s = s
   /\ (_isEventNeedToBeHandled env t n = false
       \/ ~ In n (pk_get (bindedEventNames s) t)
       \/ BusModel.events (pk_get (buses s) t) n <> []
       \/ isFunction (snd (findBinded (pk_get (bindedEventInfo s) t) n)) = false))
  \/ (_isEventNeedToBeHandled env t n = true
      /\ In n (pk_get (bindedEventNames s) t)
      /\ BusModel.events (pk_get (buses s) t) n = []
      /\ isFunction (snd (findBinded (pk_get (bindedEventInfo s) t) n)) = true
      /\ afterRemove env n t s
         = forgotten t (Z.to_nat (indexOf (pk_get (bindedEventNames s) t) n))
             (fst (findBinded (pk_get (bindedEventInfo s) t) n))
             (unplugged t n (snd (findBinded (pk_get (bindedEventInfo s) t) n)) s)).
Proof.
  unfold afterRemove.
  destruct (_isEventNeedToBeHandled env t n) eqn:Hh; simpl negb; cbv iota.
  2: { left. split; [reflexivity | left; reflexivity]. }
  rewrite indexOf_negative.
  destruct (indexOf (pk_get (bindedEventNames s) t) n >? -1)%Z eqn:Hi; simpl negb; cbv iota.
  2: { left. split; [reflexivity | right; left; apply indexOf_missing, Hi]. }
  apply indexOf_found in Hi.
  destruct (BusModel.events (pk_get (buses s) t) n) as [| x xs] eqn:He; simpl.
  2: { left. split; [reflexivity | right; right; left; discriminate]. }
  destruct (findBinded (pk_get (bindedEventInfo s) t) n) as [index fn]. simpl.
  destruct (isFunction fn) eqn:Hf; simpl.
  - right. repeat split; assumption.
  - left. split; [reflexivity | right; right; right; reflexivity].
Qed.

Lemma unplugged_frame (t : binderTarget) (n : string) (fn : JSVal) (s : State) :
  buses (unplugged t n fn s) = buses s
  /\ bindedEventNames (unplugged t n fn s) = bindedEventNames s
  /\ bindedEventInfo (unplugged t n fn s) = bindedEventInfo s
  /\ pendingEventsInfo (unplugged t n fn s) = pendingEventsInfo s
  /\ dom (unplugged t n fn s) = dom s.
Proof.
  unfold unplugged. destruct t; try (repeat split; fail);
    destruct (kernel s); repeat split.
Qed.

Lemma afterRemove_buses (env : Env) (n : string) (t : binderTarget) (s : State) :
  buses (afterRemove env n t s) = buses s.
Proof.
  destruct (afterRemove_cases env n t s) as [[E _] | (_ & _ & _ & _ & E)]; rewrite E.
  - reflexivity.
  - unfold forgotten. simpl. apply unplugged_frame.
Qed.

(** C3: [off] with a callable handler, in a well-formed binder (every
    operation keeps the binder well formed, [wf_preserved]), returns after
    handing the unsubscription to the target's Bus.  If the name was
    bound and the Bus then has no subscriber left for it, the recorded relay
    is registered on no source of the target any more (the media engine for
    kernel; the target's DOM node, and every extended node for video-dom) and
    the name has no entry left in bindedEventNames and bindedEventInfo.  If
    a subscriber remains, or if the name was never bound, the bookkeeping
    and the native listeners are unchanged. *)
Theorem off_relay_teardown (env : Env) (info : rawEventInfo) (s : State)
        (t : binderTarget) (n : string) :
  isFunction (r_fn info) = true ->
  wf env s ->
  i_target (fst (getEventInfo_raw env info)) = t ->
  i_name (fst (getEventInfo_raw env info)) = n ->
  exists s',
    off env info s = Return tt s'
    /\ pk_get (buses s') t
       = BusModel.off (pk_get (buses s) t) (r_id info) n (r_fn info)
                      (i_stage (fst (getEventInfo_raw env info)))
    /\ (In n (pk_get (bindedEventNames s) t) ->
        BusModel.events (pk_get (buses s') t) n = [] ->
        exists relay,
          In (n, relay) (pk_get (bindedEventInfo s) t)
          /\ (forall src, In src (sourcesOf s t) -> registeredOn s' src n relay = false)
          /\ ~ In n (pk_get (bindedEventNames s') t)
          /\ (forall f, ~ In (n, f) (pk_get (bindedEventInfo s') t)))
    /\ (BusModel.events (pk_get (buses s') t) n <> [] ->
        bindedEventNames s' = bindedEventNames s
        /\ bindedEventInfo s' = bindedEventInfo s
        /\ domListeners s' = domListeners s
        /\ kernel s' = kernel s)
    /\ (~ In n (pk_get (bindedEventNames s) t) ->
        bindedEventNames s' = bindedEventNames s
        /\ bindedEventInfo s' = bindedEventInfo s
        /\ domListeners s' = domListeners s
        /\ kernel s' = kernel s).
Proof.
  intros Hfn [Hwt Hker] Ht Hn.
  destruct (Hwt t) as (Hlock & Hnd & Hfun & Hhand).
  pose proof (run_off env info s Hfn) as R. cbv zeta in R. rewrite Ht, Hn in R.
  set (s0 := set_log (log s ++ snd (getEventInfo_raw env info)) s) in *.
  set (bus' := BusModel.off (pk_get (buses s0) t) (r_id info) n (r_fn info)
                 (i_stage (fst (getEventInfo_raw env info)))) in *.
  set (sb := set_buses (pk_set (buses s0) t bus') s0) in *.
  assert (Hk : t = T_kernel -> In n (pk_get (bindedEventNames s) T_kernel) ->
               kernel s <> None).
  { intros _ Hin. apply Hker. intros E. rewrite E in Hin. contradiction. }
  specialize (R Hk).
  assert (Hbus : pk_get (buses (afterRemove env n t sb)) t = bus').
  { rewrite afterRemove_buses. unfold sb. simpl. apply pk_get_set_same. }
  exists (afterRemove env n t sb). split; [exact R |]. split; [exact Hbus |].
  rewrite Hbus.
  assert (Hsb : pk_get (buses sb) t = bus') by (unfold sb; simpl; apply pk_get_set_same).
  destruct (afterRemove_cases env n t sb)
    as [[E Hc] | (Hh & Hin & He & Hf & E)]; rewrite E; rewrite Hsb in *.
  - split; [| split; intros _; repeat split].
    intros Hin He. exfalso.
    destruct Hc as [Hc | [Hc | [Hc | Hc]]].
    + rewrite (Hhand n Hin) in Hc. discriminate.
    + exact (Hc Hin).
    + exact (Hc He).
    + assert (Hin' : In n (map fst (pk_get (bindedEventInfo s) t)))
        by (rewrite <- Hlock; exact Hin).
      destruct (findBinded_found _ n Hin') as [Hrel _].
      change (pk_get (bindedEventInfo sb) t) with (pk_get (bindedEventInfo s) t) in Hc.
      rewrite (Hfun n _ Hrel) in Hc. discriminate.
  - change (pk_get (bindedEventInfo sb) t) with (pk_get (bindedEventInfo s) t) in *.
    change (pk_get (bindedEventNames sb) t) with (pk_get (bindedEventNames s) t) in *.
    assert (Hin' : In n (map fst (pk_get (bindedEventInfo s) t)))
      by (rewrite <- Hlock; exact Hin).
    destruct (findBinded_found _ n Hin') as [Hrel Hidx].
    set (relay := snd (findBinded (pk_get (bindedEventInfo s) t) n)) in *.
    split; [| split].
    + intros _ _. exists relay. split; [exact Hrel |]. split; [| split].
      * intros src Hsrc.
        change (registeredOn (unplugged t n relay sb) src n relay = false).
        apply unplugged_registered. exact Hsrc.
      * unfold forgotten. simpl. rewrite pk_get_set_same.
        destruct (unplugged_frame t n relay sb) as (_ & En & _). rewrite En.
        apply splice1_indexOf_removes; assumption.
      * intros f Hf'. unfold forgotten in Hf'. simpl in Hf'.
        rewrite pk_get_set_same in Hf'.
        destruct (unplugged_frame t n relay sb) as (_ & _ & Ei & _). rewrite Ei in Hf'.
        change (pk_get (bindedEventInfo sb) t) with (pk_get (bindedEventInfo s) t) in Hf'.
        apply (in_map fst) in Hf'. rewrite map_splice1 in Hf'.
        rewrite Hidx, <- Hlock in Hf'.
        exact (splice1_indexOf_removes _ n Hnd Hin Hf').
    + intros Hne. contradiction.
    + intros Hnin. contradiction.
Qed.

(* ===================================================================== *)
(** * Well-formedness is an invariant                                     *)
(* ===================================================================== *)

Lemma wf_constructor (env : Env) (d : Dom) (k : option (list (string * JSVal)))
      (ls : list DomListener) :
  wf env (constructor d k ls).
Proof.
  split.
  - intros t. unfold wfTarget. destruct t; simpl;
      (split; [reflexivity | split; [constructor | split; intros; contradiction]]).
  - simpl. intros H. contradiction H. reflexivity.
Qed.

Lemma wfTarget_bound (env : Env) (s : State) (t u : binderTarget) (n : string)
      (fn : JSVal) :
  wfTarget env s u ->
  ~ In n (pk_get (bindedEventNames s) t) ->
  isFunction fn = true ->
  _isEventNeedToBeHandled env t n = true ->
  wfTarget env (bound t n fn s) u.
Proof.
  intros (Hl & Hnd & Hf & Hh) Hn Hfn Hhn. unfold wfTarget.
  destruct (binderTarget_eqb_spec u t) as [-> | Hne].
  - rewrite bound_names, bound_info. split; [| split; [| split]].
    + rewrite map_app, Hl. reflexivity.
    + apply NoDup_app; [exact Hnd | constructor; [intros [] | constructor] |].
      intros x Hx [<- | []]. exact (Hn Hx).
    + intros m g Hin. apply in_app_or in Hin. destruct Hin as [Hin | [He | []]].
      * exact (Hf m g Hin).
      * inversion He; subst. exact Hfn.
    + intros m Hin. apply in_app_or in Hin. destruct Hin as [Hin | [<- | []]].
      * exact (Hh m Hin).
      * exact Hhn.
  - rewrite (bound_names_other t u n fn s Hne), (bound_info_other t u n fn s Hne).
    repeat split; assumption.
Qed.

Lemma wf_afterAdd (env : Env) (n : string) (t : binderTarget) (id : string) (s : State) :
  wf env s -> wf env (afterAdd env n t id s).
Proof.
  intros [Hwt Hker].
  destruct (afterAdd_cases env n t id s)
    as [[E Hc] | [(Hh & Hn & Ht & Hk & E) | [(Hh & Hn & Ht & ls & Hk & E)
                                           | (Hh & Hn & Ht & E)]]]; rewrite E; clear E.
  - split; assumption.
  - split; [exact Hwt | exact Hker].
  - destruct (handled_kinds env t n Hh) as [Hp He]. split.
    + intros u. apply wfTarget_bound; try assumption.
      * exact (Hwt u).
      * apply relayFor_isFunction; assumption.
    + intros _. unfold bound. simpl. discriminate.
  - destruct (handled_kinds env t n Hh) as [Hp He]. split.
    + intros u. apply wfTarget_bound; try assumption.
      * exact (Hwt u).
      * apply relayFor_isFunction; assumption.
    + rewrite (bound_names_other t T_kernel) by (intros E'; apply Ht; symmetry; exact E').
      exact Hker.
Qed.

Lemma splice1_nonempty {A : Type} (i : nat) (l : list A) : splice1 i l <> [] -> l <> [].
Proof. destruct l; simpl; [intros H; exact H | discriminate]. Qed.

Lemma forgotten_names (t : binderTarget) (i j : nat) (s : State) :
  bindedEventNames (forgotten t i j s)
  = pk_set (bindedEventNames s) t (splice1 i (pk_get (bindedEventNames s) t)).
Proof. reflexivity. Qed.

Lemma forgotten_info (t : binderTarget) (i j : nat) (s : State) :
  bindedEventInfo (forgotten t i j s)
  = pk_set (bindedEventInfo s) t (splice1 j (pk_get (bindedEventInfo s) t)).
Proof. reflexivity. Qed.

Lemma wf_afterRemove (env : Env) (n : string) (t : binderTarget) (s : State) :
  wf env s -> wf env (afterRemove env n t s).
Proof.
  intros [Hwt Hker].
  destruct (afterRemove_cases env n t s) as [[E _] | (Hh & Hin & He & Hf & E)];
    rewrite E; clear E; [split; assumption |].
  set (relay := snd (findBinded (pk_get (bindedEventInfo s) t) n)).
  destruct (unplugged_frame t n relay s) as (_ & En & Ei & _).
  destruct (Hwt t) as (Hl & Hnd & Hfun & Hhand).
  assert (Hin' : In n (map fst (pk_get (bindedEventInfo s) t)))
    by (rewrite <- Hl; exact Hin).
  destruct (findBinded_found _ n Hin') as [_ Hidx].
  split.
  - intros u. unfold wfTarget. rewrite forgotten_names, forgotten_info, En, Ei.
    destruct (binderTarget_eqb_spec u t) as [-> | Hne].
    + rewrite !pk_get_set_same. split; [| split; [| split]].
      * rewrite map_splice1, Hidx, <- Hl. reflexivity.
      * apply NoDup_splice1, Hnd.
      * intros m g Hm. apply In_splice1 in Hm. exact (Hfun m g Hm).
      * intros m Hm. apply In_splice1 in Hm. exact (Hhand m Hm).
    + rewrite !pk_get_set_other by exact Hne. exact (Hwt u).
  - rewrite forgotten_names, En.
    intros Hne.
    assert (Hne' : pk_get (bindedEventNames s) T_kernel <> []).
    { destruct (binderTarget_eqb_spec T_kernel t) as [<- | Hd].
      - rewrite pk_get_set_same in Hne. exact (splice1_nonempty _ _ Hne).
      - rewrite pk_get_set_other in Hne by exact Hd. exact Hne. }
    specialize (Hker Hne').
    change (kernel (unplugged t n relay s) <> None).
    unfold unplugged. destruct t; try exact Hker.
    destruct (kernel s); [simpl; discriminate | exfalso; apply Hker; reflexivity].
Qed.

Lemma wf_on (env : Env) (info : rawEventInfo) (s : State) :
  isFunction (r_fn info) = true -> wf env s -> wf env (final (on env info s)).
Proof.
  intros H Hw. rewrite (run_on env info s H). simpl.
  set (s0 := set_log _ s).
  exact (wf_afterAdd env _ _ _ s0 Hw).
Qed.

Lemma wf_once (env : Env) (info : rawEventInfo) (s : State) :
  isFunction (r_fn info) = true -> wf env s -> wf env (final (once env info s)).
Proof. intros H Hw. rewrite (run_once env info s H). exact Hw. Qed.

Lemma wf_off (env : Env) (info : rawEventInfo) (s : State) :
  isFunction (r_fn info) = true -> wf env s -> wf env (final (off env info s)).
Proof.
  intros H Hw. pose proof (run_off env info s H) as R. cbv zeta in R.
  rewrite R.
  - simpl. apply wf_afterRemove. exact Hw.
  - intros _ Hin. destruct Hw as [_ Hker]. apply Hker.
    intros E. rewrite E in Hin. contradiction.
Qed.

(* ===================================================================== *)
(** * The pending queue                                                   *)
(* ===================================================================== *)

Lemma pop_snoc {A : Type} (l : list A) (x : A) : pop (l ++ [x]) = Some (x, l).
Proof.
  induction l as [| y l IH]; simpl; [reflexivity |]. rewrite IH. reflexivity.
Qed.

Lemma run_forEach_add (env : Env) (t : binderTarget) (l : list (string * string))
      (s : State) :
  forEach l (fun '(name, id) => _addEventListenerOnTarget env name t id) s
  = Return tt (replay env t l s).
Proof.
  revert s. induction l as [| [n id] l IH]; intros s; simpl; [reflexivity |].
  unfold bind. rewrite run_addEventListenerOnTarget. apply IH.
Qed.

(** The [while] loop pops from the end: it visits the copy last to first. *)
Lemma drainPending_rev (env : Env) (t : binderTarget) (l : list (string * string))
      (s : State) :
  drainPending env (List.length l) t l s
  = forEach (rev l) (fun '(name, id) => _addEventListenerOnTarget env name t id) s.
Proof.
  revert s. induction l as [| x l IH] using rev_ind; intros s; [reflexivity |].
  rewrite length_app, Nat.add_comm, rev_app_distr. simpl.
  rewrite pop_snoc. destruct x as [n id]. unfold bind.
  destruct (_addEventListenerOnTarget env n t id s) as [[] s1 | e s1]; [| reflexivity].
  apply IH.
Qed.

Lemma run_applyPendingEvents (env : Env) (t : binderTarget) (s : State) :
  applyPendingEvents env t s
  = Return tt (replay env t (rev (pk_get (pendingEventsInfo s) t)) (cleared t s)).
Proof.
  unfold applyPendingEvents, bind, gets, modify.
  rewrite drainPending_rev. apply run_forEach_add.
Qed.

Lemma handled_kernel (env : Env) (n : string) : _isEventNeedToBeHandled env T_kernel n = true.
Proof. unfold _isEventNeedToBeHandled. simpl. apply orb_true_r. Qed.

Lemma attach_other_name (env : Env) (t : binderTarget) (n n' : string) (fn : JSVal)
      (m m' : Node) (ls : list DomListener) :
  n' <> n ->
  filter (nativeOn t n m) (attach env m' n' fn ls) = filter (nativeOn t n m) ls.
Proof.
  intros H. unfold attach.
  destruct (existsb (same_listener m' n' fn) ls); [reflexivity |].
  rewrite filter_app. simpl. unfold nativeOn at 2. simpl.
  destruct (String.eqb_spec n' n); [contradiction |].
  rewrite andb_false_r. simpl. apply app_nil_r.
Qed.

Lemma attachAll_other_name (env : Env) (t : binderTarget) (n n' : string) (fn : JSVal)
      (m : Node) (nodes : list Node) (ls : list DomListener) :
  n' <> n ->
  filter (nativeOn t n m) (attachAll env nodes n' fn ls) = filter (nativeOn t n m) ls.
Proof.
  intros H. revert ls. induction nodes as [| m' nodes IH]; intros ls; simpl;
    [reflexivity |].
  rewrite IH. apply attach_other_name, H.
Qed.

(** [_addEventListenerOnTarget] for one name keeps the bookkeeping of every
    name of the same kind in agreement with the sources. *)
Lemma afterAdd_consistent (env : Env) (n n' : string) (t : binderTarget) (id : string)
      (s : State) :
  relayConsistent s t n -> relayConsistent (afterAdd env n' t id s) t n.
Proof.
  intros Hc. destruct (String.eqb_spec n' n) as [-> | Hne].
  - pose proof (afterAdd_attached env n t id s Hc) as Hatt.
    pose proof (afterAdd_settles env n t id s) as Hset.
    assert (Hsrc : sourcesOf (afterAdd env n t id s) t = sourcesOf s t).
    { unfold sourcesOf, domNodes, targetDomOf.
      destruct (afterAdd_frame env n t id s) as (_ & -> & _). reflexivity. }
    destruct (afterAdd_cases env n t id s)
      as [[E Hcase] | [(Hh & Hn & Ht & Hk & E) | [(Hh & Hn & Ht & ls & Hk & E)
                                                 | (Hh & Hn & Ht & E)]]].
    + rewrite E. exact Hc.
    + split; intros Hin src Hs; rewrite Hsrc in Hs.
      * rewrite E in Hin. contradiction.
      * destruct (Hatt src Hs) as [[_ [Hin' | [_ Hke]]] | [E0 _]].
        -- contradiction.
        -- exfalso. exact (Hke Ht Hk).
        -- exact E0.
    + split; intros Hin src Hs; rewrite Hsrc in Hs.
      * destruct (Hatt src Hs) as [[E0 _] | (_ & _ & [Hf | [_ Hf]])];
          [exact E0 | congruence | congruence].
      * exfalso. apply Hin. rewrite E, bound_names. apply in_or_app. right. left.
        reflexivity.
    + split; intros Hin src Hs; rewrite Hsrc in Hs.
      * destruct (Hatt src Hs) as [[E0 _] | (_ & _ & [Hf | [Hf _]])];
          [exact E0 | congruence | contradiction].
      * exfalso. apply Hin. rewrite E, bound_names. apply in_or_app. right. left.
        reflexivity.
  - assert (Hsame : forall src, attachedOn (afterAdd env n' t id s) t n src
                                = attachedOn s t n src
                    /\ sourcesOf (afterAdd env n' t id s) t = sourcesOf s t
                    /\ (In n (pk_get (bindedEventNames (afterAdd env n' t id s)) t)
                        <-> In n (pk_get (bindedEventNames s) t))).
    { intros src.
      destruct (afterAdd_cases env n' t id s)
        as [[E Hcase] | [(Hh & Hn & Ht & Hk & E) | [(Hh & Hn & Ht & ls & Hk & E)
                                                   | (Hh & Hn & Ht & E)]]]; rewrite E.
      - repeat split; intros H; exact H.
      - repeat split; intros H; exact H.
      - split; [| split].
        + destruct src; unfold attachedOn, bound; simpl; [| reflexivity].
          rewrite Hk, filter_app. simpl.
          destruct (String.eqb_spec n' n); [contradiction |]. simpl.
          rewrite app_nil_r. reflexivity.
        + reflexivity.
        + rewrite bound_names. split.
          * intros H. apply in_app_or in H. destruct H as [H | [H | []]];
              [exact H | contradiction].
          * intros H. apply in_or_app. left. exact H.
      - split; [| split].
        + destruct src; unfold attachedOn, bound; simpl; [reflexivity |].
          rewrite attachAll_other_name by exact Hne. reflexivity.
        + reflexivity.
        + rewrite bound_names. split.
          * intros H. apply in_app_or in H. destruct H as [H | [H | []]];
              [exact H | contradiction].
          * intros H. apply in_or_app. left. exact H. }
    destruct Hc as [Hb Hu]. split; intros Hin src Hs.
    + destruct (Hsame src) as (Ea & Es & Ei). rewrite Ea. rewrite Es in Hs.
      apply Hb; [apply Ei, Hin | exact Hs].
    + destruct (Hsame src) as (Ea & Es & Ei). rewrite Ea. rewrite Es in Hs.
      apply Hu; [intros H; apply Hin, Ei, H | exact Hs].
Qed.

Lemma addName_In (acc : list string) (n m : string) :
  In m (addName acc n) <-> In m acc \/ m = n.
Proof.
  unfold addName. destruct (indexOf acc n >? -1)%Z eqn:E.
  - apply indexOf_found in E. split; [intros H; left; exact H |].
    intros [H | ->]; assumption.
  - split.
    + intros H. apply in_app_or in H. destruct H as [H | [H | []]];
        [left; exact H | right; symmetry; exact H].
    + intros [H | ->]; apply in_or_app; [left; exact H | right; left; reflexivity].
Qed.

Lemma fold_addName_In (l acc : list string) (m : string) :
  In m (fold_left addName l acc) <-> In m acc \/ In m l.
Proof.
  revert acc. induction l as [| x l IH]; intros acc; simpl.
  - split; [intros H; left; exact H | intros [H | []]; exact H].
  - rewrite IH, addName_In. split.
    + intros [[H | ->] | H]; [left; exact H | right; left; reflexivity | right; right; exact H].
    + intros [H | [<- | H]]; [left; left; exact H | left; right; reflexivity | right; exact H].
Qed.

Lemma afterAdd_kernel_present (env : Env) (n id : string) (s : State) :
  kernel s <> None ->
  pk_get (bindedEventNames (afterAdd env n T_kernel id s)) T_kernel
  = addName (pk_get (bindedEventNames s) T_kernel) n
  /\ pendingEventsInfo (afterAdd env n T_kernel id s) = pendingEventsInfo s
  /\ kernel (afterAdd env n T_kernel id s) <> None.
Proof.
  intros Hk. unfold addName.
  destruct (afterAdd_cases env n T_kernel id s)
    as [[E Hc] | [(Hh & Hn & Ht & Hk0 & E) | [(Hh & Hn & Ht & ls & Hk0 & E)
                                            | (Hh & Hn & Ht & E)]]].
  - rewrite E. destruct Hc as [Hc | Hc].
    + rewrite handled_kernel in Hc. discriminate.
    + apply indexOf_found in Hc. rewrite Hc. repeat split. exact Hk.
  - contradiction.
  - rewrite E, bound_names. apply indexOf_missing in Hn. rewrite Hn.
    repeat split. unfold bound. simpl. discriminate.
  - contradiction Ht. reflexivity.
Qed.

Lemma replay_kernel (env : Env) (l : list (string * string)) (s : State) :
  kernel s <> None ->
  (forall n, relayConsistent s T_kernel n) ->
  kernel (replay env T_kernel l s) <> None
  /\ (forall n, relayConsistent (replay env T_kernel l s) T_kernel n)
  /\ pendingEventsInfo (replay env T_kernel l s) = pendingEventsInfo s
  /\ pk_get (bindedEventNames (replay env T_kernel l s)) T_kernel
     = fold_left addName (map fst l) (pk_get (bindedEventNames s) T_kernel).
Proof.
  revert s. induction l as [| [n id] l IH]; intros s Hk Hc.
  - simpl. repeat split; try assumption; apply Hc.
  - destruct (afterAdd_kernel_present env n id s Hk) as (En & Ep & Hk').
    destruct (IH (afterAdd env n T_kernel id s) Hk'
                 (fun m => afterAdd_consistent env m n T_kernel id s (Hc m)))
      as (H1 & H2 & H3 & H4).
    change (replay env T_kernel ((n, id) :: l) s)
      with (replay env T_kernel l (afterAdd env n T_kernel id s)).
    change (map fst ((n, id) :: l)) with (n :: map fst l).
    split; [exact H1 |]. split; [exact H2 |]. split; [rewrite H3; exact Ep |].
    rewrite H4, En. reflexivity.
Qed.

(** C4: subscribing to a kernel event while no media engine is attached
    attaches no native listener and appends (name, id) to the kernel
    pending queue; [applyPendingEvents] empties the queue and subscribes its
    entries again, last queued first; once a media engine is attached (and
    the bookkeeping agrees with its listeners, as in every reachable state)
    the kernel queue is empty afterwards, the names are bound in that reverse
    order, and every queued name has exactly one native listener on the
    engine, however often it was queued; on an empty queue the call changes
    nothing. *)
Theorem pending_queue_flush (env : Env) :
  (forall info s n,
      isFunction (r_fn info) = true ->
      wf env s ->
      i_target (fst (getEventInfo_raw env info)) = T_kernel ->
      i_name (fst (getEventInfo_raw env info)) = n ->
      kernel s = None ->
      exists s',
        on env info s = Return tt s'
        /\ pk_get (pendingEventsInfo s') T_kernel
           = pk_get (pendingEventsInfo s) T_kernel ++ [(n, r_id info)]
        /\ domListeners s' = domListeners s
        /\ kernel s' = None
        /\ bindedEventNames s' = bindedEventNames s
        /\ bindedEventInfo s' = bindedEventInfo s)
  /\ (forall t s,
      applyPendingEvents env t s
      = forEach (rev (pk_get (pendingEventsInfo s) t))
                (fun '(name, id) => _addEventListenerOnTarget env name t id)
                (cleared t s))
  /\ (forall s,
      kernel s <> None ->
      (forall n, relayConsistent s T_kernel n) ->
      exists s',
        applyPendingEvents env T_kernel s = Return tt s'
        /\ pk_get (pendingEventsInfo s') T_kernel = []
        /\ pk_get (bindedEventNames s') T_kernel
           = fold_left addName (rev (map fst (pk_get (pendingEventsInfo s) T_kernel)))
                       (pk_get (bindedEventNames s) T_kernel)
        /\ (forall n, In n (map fst (pk_get (pendingEventsInfo s) T_kernel)) ->
                      List.length (attachedOn s' T_kernel n OnKernel) = 1))
  /\ (forall t s,
      pk_get (pendingEventsInfo s) t = [] -> applyPendingEvents env t s = Return tt s).
Proof.
  split; [| split; [| split]].
  - intros info s n Hfn [Hwt Hker] Ht Hn Hk.
    pose proof (run_on env info s Hfn) as R. cbv zeta in R. rewrite Ht, Hn in R.
    set (s0 := set_log (log s ++ snd (getEventInfo_raw env info)) s) in *.
    eexists. split; [exact R |]. simpl.
    assert (Hnone : ~ In n (pk_get (bindedEventNames s0) T_kernel)).
    { intros Hin. apply Hker; [| exact Hk]. intros E.
      change (pk_get (bindedEventNames s0) T_kernel)
        with (pk_get (bindedEventNames s) T_kernel) in Hin.
      rewrite E in Hin. contradiction. }
    destruct (afterAdd_cases env n T_kernel (r_id info) s0)
      as [[E Hc] | [(Hh & Hn0 & Ht0 & Hk0 & E) | [(Hh & Hn0 & Ht0 & ls & Hk0 & E)
                                                 | (Hh & Hn0 & Ht0 & E)]]].
    + exfalso. destruct Hc as [Hc | Hc];
        [rewrite handled_kernel in Hc; discriminate | exact (Hnone Hc)].
    + rewrite E. unfold enqueued. simpl. repeat split. exact Hk.
    + exfalso. change (kernel s0) with (kernel s) in Hk0. congruence.
    + contradiction Ht0. reflexivity.
  - intros t s. rewrite run_applyPendingEvents. symmetry. apply run_forEach_add.
  - intros s Hk Hc. rewrite run_applyPendingEvents.
    set (q := pk_get (pendingEventsInfo s) T_kernel).
    destruct (replay_kernel env (rev q) (cleared T_kernel s) Hk Hc)
      as (H1 & H2 & H3 & H4).
    eexists. split; [reflexivity |]. split; [| split].
    + rewrite H3. reflexivity.
    + rewrite H4, map_rev. reflexivity.
    + intros n Hin.
      apply (proj1 (H2 n)); [| left; reflexivity].
      rewrite H4. apply fold_addName_In. right.
      rewrite map_rev. apply in_rev. rewrite rev_involutive. exact Hin.
  - intros t s He. rewrite run_applyPendingEvents, He. simpl.
    unfold cleared. rewrite <- He, pk_set_get. destruct s; reflexivity.
Qed.

(* ===================================================================== *)
(** * The pointer-containment tracker                                     *)
(* ===================================================================== *)

Lemma guardedDispatch_string_returns (env : Env) (k : DispatchKind)
      (backup : option JSVal) (id name : string) (target : option binderTarget)
      (args : list JSVal) (s : State) :
  exists v s',
    guardedDispatch env k backup (mkEmit (VStr id) (VStr name) target) args s
    = Return v s'
    /\ dom s' = dom s.
Proof.
  unfold guardedDispatch, isEventEmitalbe, bind, Log_error, modify, ret. simpl.
  destruct (negb (negb (name =? EmptyString)) || false || secondaryReg_test name)%bool.
  - eexists. eexists. split; reflexivity.
  - destruct (negb (negb (id =? EmptyString)) || false)%bool.
    + eexists. eexists. split; reflexivity.
    + unfold checkEventEmitParameter. simpl.
      destruct (getEventInfo env name target None) as [i warned].
      unfold bind, logAll, modify, ret, onBus. simpl.
      eexists. eexists. split; reflexivity.
Qed.

Lemma triggerSync_pointer (env : Env) (name : string) (args : list JSVal) (s : State) :
  name = "mouseenter" \/ name = "mouseleave" ->
  triggerSync env (mkEmit (VStr "_vm") (VStr name) (Some T_video_dom)) args s
  = Return (VBusReturn D_triggerSync)
      (set_buses
         (pk_set (buses s) T_video_dom
            (BusModel.dispatch (pk_get (buses s) T_video_dom) D_triggerSync name args)) s).
Proof.
  intros [-> | ->]; unfold triggerSync, guardedDispatch, isEventEmitalbe, bind, ret;
    simpl; unfold bind, logAll, modify, ret, onBus; simpl; rewrite app_nil_r;
    destruct s; reflexivity.
Qed.

Lemma run_mouseMoveHandler (env : Env) (name : string) (ev : DomEvent)
      (rest : list JSVal) (s : State) :
  name = "mouseenter" \/ name = "mouseleave" ->
  mouseMoveHandler env name (VEvent ev :: rest) s
  = if leaving s ev
    then Return (VBusReturn D_triggerSync) (synthetic name (VEvent ev :: rest) false s)
    else if entering s ev
    then Return (VBusReturn D_triggerSync) (synthetic name (VEvent ev :: rest) true s)
    else Return VUndefined s.
Proof.
  intros Hn. unfold mouseMoveHandler, leaving, entering, destination, bind, gets.
  destruct (mouseInVideo (dom s) && (type ev =? "mouseleave")
            && negb (isNodeInsideVideo (dom s)
                 match toElement ev with Some m => Some m | None => relatedTarget ev end))%bool.
  - unfold modify. rewrite (triggerSync_pointer env name _ _ Hn). reflexivity.
  - destruct (negb (mouseInVideo (dom s)) && (type ev =? "mouseenter")
              && isNodeInsideVideo (dom s) (currentTarget ev))%bool.
    + unfold modify. rewrite (triggerSync_pointer env name _ _ Hn). reflexivity.
    + reflexivity.
Qed.

(** The handler never throws on a pointer event, whatever name it was
    built for, and it only writes the boolean after one of its two tests
    succeeded. *)
Lemma mouseMoveHandler_cases (env : Env) (name : string) (ev : DomEvent)
      (rest : list JSVal) (s : State) :
  exists v s',
    mouseMoveHandler env name (VEvent ev :: rest) s = Return v s'
    /\ ((leaving s ev = false /\ entering s ev = false /\ s' = s /\ v = VUndefined)
        \/ (leaving s ev = true /\ mouseInVideo (dom s') = false)
        \/ (leaving s ev = false /\ entering s ev = true
            /\ mouseInVideo (dom s') = true)).
Proof.
  unfold mouseMoveHandler, bind, gets, modify.
  fold (destination ev). fold (leaving s ev). fold (entering s ev).
  destruct (leaving s ev) eqn:Hl.
  - destruct (guardedDispatch_string_returns env D_triggerSync (Some (VBool false))
                "_vm" name (Some T_video_dom) (VEvent ev :: rest)
                (set_dom (set_mouseInVideo false (dom s)) s)) as (v & s' & R & Hd).
    exists v, s'. unfold triggerSync. split; [exact R |].
    right. left. split; [reflexivity |]. rewrite Hd. reflexivity.
  - destruct (entering s ev) eqn:He.
    + destruct (guardedDispatch_string_returns env D_triggerSync (Some (VBool false))
                  "_vm" name (Some T_video_dom) (VEvent ev :: rest)
                  (set_dom (set_mouseInVideo true (dom s)) s)) as (v & s' & R & Hd).
      exists v, s'. unfold triggerSync. split; [exact R |].
      right. right. repeat split. rewrite Hd. reflexivity.
    + exists VUndefined, s. split; [reflexivity |]. left. repeat split.
Qed.

(** C7, amended: the closure of the tracker returns on every pointer event
    and leaves the state untouched unless one of its two tests holds: boolean
    true, a leave event and a destination outside the surface (then the
    boolean becomes false), or boolean false, an enter event and a current
    target inside the surface (then the boolean becomes true).  For the
    names mouseenter and mouseleave the state after a successful test is the
    one with the boolean flipped and one synchronous dispatch of that name
    added to the video-dom Bus.  A leave whose destination is inside the
    surface, and an enter while the boolean is already true, change nothing;
    so a transition between two nodes of the surface that starts while the
    boolean is true, a leave towards a surface node and an enter, in either
    order, leaves the state as it was.  While the boolean is false, an enter
    delivered on a node of the surface sets the boolean and emits the
    synthetic enter whatever the event's relatedTarget and toElement are:
    the enter test does not look at where the pointer comes from.  The
    sequence enter(parent), enter(child), leave(parent to child),
    leave(child to outside), started with the boolean false, adds exactly one
    mouseenter and one mouseleave dispatch and ends with the boolean false. *)
Theorem pointer_containment (env : Env) :
  (forall name ev rest s,
      exists v s',
        mouseMoveHandler env name (VEvent ev :: rest) s = Return v s'
        /\ ((leaving s ev = false /\ entering s ev = false /\ s' = s /\ v = VUndefined)
            \/ (mouseInVideo (dom s) = true /\ type ev = "mouseleave"
                /\ isNodeInsideVideo (dom s) (destination ev) = false
                /\ mouseInVideo (dom s') = false)
            \/ (mouseInVideo (dom s) = false /\ type ev = "mouseenter"
                /\ isNodeInsideVideo (dom s) (currentTarget ev) = true
                /\ mouseInVideo (dom s') = true)))
  /\ (forall name ev rest s,
      name = "mouseenter" \/ name = "mouseleave" ->
      mouseMoveHandler env name (VEvent ev :: rest) s
      = if leaving s ev
        then Return (VBusReturn D_triggerSync) (synthetic name (VEvent ev :: rest) false s)
        else if entering s ev
        then Return (VBusReturn D_triggerSync) (synthetic name (VEvent ev :: rest) true s)
        else Return VUndefined s)
  /\ (forall name ev rest s,
      (type ev = "mouseleave" -> isNodeInsideVideo (dom s) (destination ev) = true ->
       mouseMoveHandler env name (VEvent ev :: rest) s = Return VUndefined s)
      /\ (type ev = "mouseenter" -> mouseInVideo (dom s) = true ->
          mouseMoveHandler env name (VEvent ev :: rest) s = Return VUndefined s))
  /\ (forall n1 n2 evl eve r1 r2 s,
      mouseInVideo (dom s) = true ->
      type evl = "mouseleave" -> isNodeInsideVideo (dom s) (destination evl) = true ->
      type eve = "mouseenter" ->
      (mouseMoveHandler env n1 (VEvent evl :: r1) ;;
       mouseMoveHandler env n2 (VEvent eve :: r2))%js s = Return VUndefined s
      /\ (mouseMoveHandler env n2 (VEvent eve :: r2) ;;
          mouseMoveHandler env n1 (VEvent evl :: r1))%js s = Return VUndefined s)
  /\ (forall ev rest s,
      mouseInVideo (dom s) = false ->
      type ev = "mouseenter" -> isNodeInsideVideo (dom s) (currentTarget ev) = true ->
      mouseMoveHandler env "mouseenter" (VEvent ev :: rest) s
      = Return (VBusReturn D_triggerSync)
          (synthetic "mouseenter" (VEvent ev :: rest) true s))
  /\ (forall s parent child ev1 ev2 ev3 ev4,
      mouseInVideo (dom s) = false ->
      isNodeInsideVideo (dom s) (Some parent) = true ->
      isNodeInsideVideo (dom s) (Some child) = true ->
      type ev1 = "mouseenter" -> currentTarget ev1 = Some parent ->
      type ev2 = "mouseenter" -> currentTarget ev2 = Some child ->
      type ev3 = "mouseleave" -> destination ev3 = Some child ->
      type ev4 = "mouseleave" ->
      isNodeInsideVideo (dom s) (destination ev4) = false ->
      exists v s4,
        (mouseMoveHandler env "mouseenter" [VEvent ev1] ;;
         mouseMoveHandler env "mouseenter" [VEvent ev2] ;;
         mouseMoveHandler env "mouseleave" [VEvent ev3] ;;
         mouseMoveHandler env "mouseleave" [VEvent ev4])%js s = Return v s4
        /\ dispatched (pk_get (buses s4) T_video_dom)
           = dispatched (pk_get (buses s) T_video_dom)
             ++ [mkDispatch D_triggerSync "mouseenter" [VEvent ev1];
                 mkDispatch D_triggerSync "mouseleave" [VEvent ev4]]
        /\ (forall t, t <> T_video_dom -> pk_get (buses s4) t = pk_get (buses s) t)
        /\ mouseInVideo (dom s4) = false).
Proof.
  assert (Hquiet : forall name ev rest s,
    (type ev = "mouseleave" -> isNodeInsideVideo (dom s) (destination ev) = true ->
     mouseMoveHandler env name (VEvent ev :: rest) s = Return VUndefined s)
    /\ (type ev = "mouseenter" -> mouseInVideo (dom s) = true ->
        mouseMoveHandler env name (VEvent ev :: rest) s = Return VUndefined s)).
  { intros name ev rest s. split.
    + intros Ht Hin.
      destruct (mouseMoveHandler_cases env name ev rest s) as (v & s' & R & H).
      assert (Hl : leaving s ev = false).
      { unfold leaving. rewrite Hin. simpl. apply andb_false_r. }
      assert (He : entering s ev = false).
      { unfold entering. rewrite Ht. simpl. rewrite andb_false_r. reflexivity. }
      destruct H as [(_ & _ & -> & ->) | [[H _] | (_ & H & _)]];
        [exact R | congruence | congruence].
    + intros Ht Hm.
      destruct (mouseMoveHandler_cases env name ev rest s) as (v & s' & R & H).
      assert (Hl : leaving s ev = false).
      { unfold leaving. rewrite Ht. simpl. rewrite andb_false_r. reflexivity. }
      assert (He : entering s ev = false).
      { unfold entering. rewrite Hm. reflexivity. }
      destruct H as [(_ & _ & -> & ->) | [[H _] | (_ & H & _)]];
        [exact R | congruence | congruence]. }
  split; [| split; [| split; [exact Hquiet | split; [| split]]]].
  - intros name ev rest s.
    destruct (mouseMoveHandler_cases env name ev rest s) as (v & s' & R & H).
    exists v, s'. split; [exact R |].
    destruct H as [H | [[Hl Hm] | (Hl & He & Hm)]].
    + left. exact H.
    + right. left. unfold leaving in Hl.
      apply andb_prop in Hl. destruct Hl as [Hl H3].
      apply andb_prop in Hl. destruct Hl as [H1 H2].
      apply String.eqb_eq in H2. apply negb_true_iff in H3. repeat split; assumption.
    + right. right. unfold entering in He.
      apply andb_prop in He. destruct He as [He H3].
      apply andb_prop in He. destruct He as [H1 H2].
      apply String.eqb_eq in H2. apply negb_true_iff in H1. repeat split; assumption.
  - intros name ev rest s Hn. apply run_mouseMoveHandler, Hn.
  - intros n1 n2 evl eve r1 r2 s Hm Tl Dl Te.
    pose proof (proj1 (Hquiet n1 evl r1 s) Tl Dl) as Rl.
    pose proof (proj2 (Hquiet n2 eve r2 s) Te Hm) as Re.
    unfold bind. rewrite Rl, Re. rewrite Rl. split; reflexivity.
  - intros ev rest s Hm Te Hc.
    rewrite (run_mouseMoveHandler env "mouseenter" ev rest s (or_introl eq_refl)).
    assert (L : leaving s ev = false) by (unfold leaving; rewrite Hm; reflexivity).
    assert (E : entering s ev = true)
      by (unfold entering; rewrite Hm, Te, Hc; reflexivity).
    rewrite L, E. reflexivity.
  - intros s parent child ev1 ev2 ev3 ev4 Hm Hp Hc T1 C1 T2 C2 T3 D3 T4 D4.
    unfold bind.
    rewrite (run_mouseMoveHandler env "mouseenter" ev1 [] s (or_introl eq_refl)).
    assert (L1 : leaving s ev1 = false) by (unfold leaving; rewrite Hm; reflexivity).
    assert (E1 : entering s ev1 = true)
      by (unfold entering; rewrite Hm, T1, C1, Hp; reflexivity).
    rewrite L1, E1.
    set (s1 := synthetic "mouseenter" [VEvent ev1] true s).
    rewrite (run_mouseMoveHandler env "mouseenter" ev2 [] s1 (or_introl eq_refl)).
    assert (L2 : leaving s1 ev2 = false) by (unfold leaving; rewrite T2; reflexivity).
    assert (E2 : entering s1 ev2 = false) by reflexivity.
    rewrite L2, E2.
    rewrite (run_mouseMoveHandler env "mouseleave" ev3 [] s1 (or_intror eq_refl)).
    assert (L3 : leaving s1 ev3 = false).
    { unfold leaving. rewrite T3, D3. simpl. rewrite Hc. reflexivity. }
    assert (E3 : entering s1 ev3 = false) by reflexivity.
    rewrite L3, E3.
    rewrite (run_mouseMoveHandler env "mouseleave" ev4 [] s1 (or_intror eq_refl)).
    assert (L4 : leaving s1 ev4 = true).
    { unfold leaving. rewrite T4. simpl. rewrite D4. reflexivity. }
    rewrite L4.
    eexists. eexists. split; [reflexivity |]. split; [| split].
    + unfold synthetic, s1, synthetic. simpl.
      rewrite <- app_assoc. reflexivity.
    + intros t Ht. unfold synthetic, s1, synthetic.
      destruct t; try reflexivity. contradiction Ht. reflexivity.
    + reflexivity.
Qed.

(* ===================================================================== *)
(** * Scenarios                                                           *)
(* ===================================================================== *)

Lemma off_relay_teardown_witness :
  wf sampleEnv boundClick
  /\ exists s',
       off sampleEnv clickOnContainer boundClick = Return tt s'
       /\ ~ In "click" (pk_get (bindedEventNames s') T_container)
       /\ registeredOn s' (OnNode 1) "click"
            (VFun (RelaySync 0 T_container "click" "container")) = false.
Proof.
  assert (Hw : wf sampleEnv boundClick).
  { apply wf_on; [reflexivity | apply wf_constructor]. }
  split; [exact Hw |].
  destruct (off_relay_teardown sampleEnv clickOnContainer boundClick T_container "click"
              eq_refl Hw eq_refl eq_refl) as (s' & R & Hb & Hlast & _ & _).
  exists s'. split; [exact R |].
  destruct Hlast as (relay & Hrel & Hreg & Hn & _).
  - left. reflexivity.
  - rewrite Hb. reflexivity.
  - split; [exact Hn |].
    destruct Hrel as [E | []]. inversion E; subst relay.
    apply Hreg. left. reflexivity.
Defined.

Lemma pending_queue_flush_witness :
  kernel queuedKernel <> None
  /\ pk_get (pendingEventsInfo queuedKernel) T_kernel
     = [("heartbeat", "a"); ("heartbeat", "b"); ("mediaInfo", "c")]
  /\ exists s',
       applyPendingEvents sampleEnv T_kernel queuedKernel = Return tt s'
       /\ pk_get (pendingEventsInfo s') T_kernel = []
       /\ pk_get (bindedEventNames s') T_kernel = ["mediaInfo"; "heartbeat"]
       /\ List.length (attachedOn s' T_kernel "heartbeat" OnKernel) = 1.
Proof.
  assert (Hk : kernel queuedKernel <> None) by discriminate.
  assert (Hc : forall n, relayConsistent queuedKernel T_kernel n).
  { intros n. split.
    - intros [].
    - intros _ src [<- | []]. reflexivity. }
  split; [exact Hk |]. split; [reflexivity |].
  destruct (proj1 (proj2 (proj2 (pending_queue_flush sampleEnv))) queuedKernel Hk Hc)
    as (s' & R & Hp & Hn & Hone).
  exists s'. split; [exact R |]. split; [exact Hp |]. split; [exact Hn |].
  apply Hone. left. reflexivity.
Defined.

Lemma pointer_containment_witness :
  mouseInVideo (dom trackedPage) = false
  /\ exists v s4,
       (mouseMoveHandler sampleEnv "mouseenter" [VEvent enterParent] ;;
        mouseMoveHandler sampleEnv "mouseenter" [VEvent enterChild] ;;
        mouseMoveHandler sampleEnv "mouseleave" [VEvent leaveParent] ;;
        mouseMoveHandler sampleEnv "mouseleave" [VEvent leaveChild])%js trackedPage
       = Return v s4
       /\ dispatched (pk_get (buses s4) T_video_dom)
          = [mkDispatch D_triggerSync "mouseenter" [VEvent enterParent];
             mkDispatch D_triggerSync "mouseleave" [VEvent leaveChild]]
       /\ mouseInVideo (dom s4) = false.
Proof.
  split; [reflexivity |].
  destruct (proj2 (proj2 (proj2 (proj2 (proj2 (pointer_containment sampleEnv)))))
              trackedPage 3 4 enterParent enterChild leaveParent leaveChild
              eq_refl eq_refl eq_refl eq_refl eq_refl eq_refl eq_refl eq_refl eq_refl
              eq_refl eq_refl) as (v & s4 & R & Hd & _ & Hm).
  exists v, s4. split; [exact R |]. split; [exact Hd | exact Hm].
Defined.

(** The same four pointer events delivered by the browser to the listeners
    that the binder attached: one synthetic enter, one synthetic leave. *)
Example containment_end_to_end :
  (fireDomEvent sampleEnv 3 enterParent ;;
   fireDomEvent sampleEnv 4 enterChild ;;
   fireDomEvent sampleEnv 3 leaveParent ;;
   fireDomEvent sampleEnv 4 leaveChild)%js trackedPage
  = Return tt
      (set_buses
         (pk_set (buses trackedPage) T_video_dom
            (mkBus [] [mkDispatch D_triggerSync "mouseenter" [VEvent enterParent];
                       mkDispatch D_triggerSync "mouseleave" [VEvent leaveChild]]))
         trackedPage).
Proof. vm_compute. reflexivity. Qed.

(** C7, counterexample: the boolean is false and the pointer moves from
    the video element (node 3) to the extended node (node 4), both of which
    are nodes of the surface; the enter event delivered on node 4 toggles
    the boolean to true and emits the synthetic enter. *)
Lemma pointer_enter_between_surface_nodes :
  mouseInVideo (dom trackedPage) = false
  /\ type enterChild = "mouseenter"
  /\ isNodeInsideVideo (dom trackedPage) (relatedTarget enterChild) = true
  /\ isNodeInsideVideo (dom trackedPage) (currentTarget enterChild) = true
  /\ mouseMoveHandler sampleEnv "mouseenter" [VEvent enterChild] trackedPage
     = Return (VBusReturn D_triggerSync)
         (synthetic "mouseenter" [VEvent enterChild] true trackedPage)
  /\ mouseInVideo
       (dom (final (mouseMoveHandler sampleEnv "mouseenter" [VEvent enterChild]
                      trackedPage))) = true
  /\ dispatched
       (pk_get (buses (final (mouseMoveHandler sampleEnv "mouseenter" [VEvent enterChild]
                               trackedPage))) T_video_dom)
     = [mkDispatch D_triggerSync "mouseenter" [VEvent enterChild]].
Proof. vm_compute. repeat split. Qed.

(** Flushing while the media engine is still missing queues every entry
    again, in reverse order, and attaches nothing. *)
Example flush_without_engine :
  final (applyPendingEvents sampleEnv T_kernel (set_kernel None queuedKernel))
  = set_pendingEventsInfo
      (pk_set (pendingEventsInfo queuedKernel) T_kernel
         [("mediaInfo", "c"); ("heartbeat", "b"); ("heartbeat", "a")])
      (set_kernel None queuedKernel).
Proof. vm_compute. reflexivity. Qed.

(** After the last unsubscribe the listener table is empty again. *)
Example off_last_subscriber :
  domListeners boundClick
  = [mkListener 1 "click" (VFun (RelaySync 0 T_container "click" "container")) false]
  /\ domListeners (final (off sampleEnv clickOnContainer boundClick)) = []
  /\ bindedEventNames (final (off sampleEnv clickOnContainer boundClick)) = pk_all []
  /\ bindedEventInfo (final (off sampleEnv clickOnContainer boundClick)) = pk_all [].
Proof. vm_compute. repeat split. Qed.

(* ===================================================================== *)
(** * Invariants of computations                                          *)
(* ===================================================================== *)

Section Invariants.

Variable P : State -> Prop.

Lemma invariant_ret {A : Type} (a : A) : invariant P (ret a).
Proof. intros s H. exact H. Qed.

Lemma invariant_throw {A : Type} (e : JsError) : invariant P (@throw A e).
Proof. intros s H. exact H. Qed.

Lemma invariant_gets {A : Type} (f : State -> A) : invariant P (gets f).
Proof. intros s H. exact H. Qed.

Lemma invariant_modify (f : State -> State) :
  (forall s, P s -> P (f s)) -> invariant P (modify f).
Proof. intros Hf s H. apply Hf, H. Qed.

Lemma invariant_bind {A B : Type} (c : M A) (k : A -> M B) :
  invariant P c -> (forall a, invariant P (k a)) -> invariant P (bind c k).
Proof.
  intros Hc Hk s H. unfold bind. specialize (Hc s H).
  destruct (c s) as [a s1 | e s1]; simpl in *; [apply Hk, Hc | exact Hc].
Qed.

Lemma invariant_forEach {A : Type} (l : list A) (f : A -> M unit) :
  (forall x, invariant P (f x)) -> invariant P (forEach l f).
Proof.
  intros Hf. induction l as [| x l IH]; simpl.
  - apply invariant_ret.
  - apply invariant_bind; [apply Hf | intros _; exact IH].
Qed.

Lemma invariant_if {A : Type} (b : bool) (c d : M A) :
  invariant P c -> invariant P d -> invariant P (if b then c else d).
Proof. destruct b; intros; assumption. Qed.

End Invariants.

Lemma wf_bookkeepingOnly (env : Env) : bookkeepingOnly (wf env).
Proof.
  intros s s' En Ei Hk [Hwt Hker]. split.
  - intros t. unfold wfTarget. rewrite En, Ei. exact (Hwt t).
  - rewrite En. intros H. apply Hk, Hker, H.
Qed.

Section SilentInvariants.

Variable env : Env.
Variable P : State -> Prop.
Hypothesis P_silent : silentOnly P.

Lemma invariant_logAll (es : list LogEntry) : invariant P (logAll es).
Proof.
  apply invariant_modify. intros s H. apply (P_silent s); try reflexivity. exact H.
Qed.

Lemma invariant_Log_error (msg : string) : invariant P (Log_error msg).
Proof.
  apply invariant_modify. intros s H. apply (P_silent s); try reflexivity. exact H.
Qed.

Lemma invariant_onBus (t : binderTarget) (f : Bus -> Bus) : invariant P (onBus t f).
Proof.
  apply invariant_modify. intros s H. apply (P_silent s); try reflexivity. exact H.
Qed.

Lemma invariant_newFn : invariant P newFn.
Proof.
  intros s H. unfold newFn. simpl. apply (P_silent s); try reflexivity. exact H.
Qed.

Lemma invariant_prettifyEventParameter (info : rawEventInfo) :
  invariant P (prettifyEventParameter env info).
Proof.
  unfold prettifyEventParameter. destruct (getEventInfo_raw env info) as [i warned].
  apply invariant_bind; [apply invariant_logAll | intros _].
  apply invariant_if; [apply invariant_throw | apply invariant_ret].
Qed.

Lemma invariant_guardedDispatch (k : DispatchKind) (backup : option JSVal)
      (info : emitEventInfo) (args : list JSVal) :
  invariant P (guardedDispatch env k backup info args).
Proof.
  unfold guardedDispatch. apply invariant_bind.
  - unfold isEventEmitalbe. apply invariant_if.
    + apply invariant_bind; [apply invariant_Log_error | intros _; apply invariant_ret].
    + apply invariant_if; [| apply invariant_ret].
      apply invariant_bind; [apply invariant_Log_error | intros _; apply invariant_ret].
  - intros ok. apply invariant_if; [| apply invariant_ret].
    apply invariant_bind.
    + unfold checkEventEmitParameter. destruct (e_name info); try apply invariant_throw.
      destruct (getEventInfo env s (e_target info) None) as [i warned].
      apply invariant_bind; [apply invariant_logAll | intros _; apply invariant_ret].
    + intros info'. destruct (e_target info'); [| apply invariant_throw].
      destruct (e_name info'); try apply invariant_throw.
      apply invariant_bind; [apply invariant_onBus | intros _; apply invariant_ret].
Qed.

End SilentInvariants.

Lemma bookkeepingOnly_silent (P : State -> Prop) : bookkeepingOnly P -> silentOnly P.
Proof.
  intros HP s s' En Ei Hk _ _ H.
  apply (HP s); [exact En | exact Ei | rewrite Hk; intros Hn; exact Hn | exact H].
Qed.

Section FrameInvariants.

Variable env : Env.
Variable P : State -> Prop.
Hypothesis P_frame : bookkeepingOnly P.

Let P_silent : silentOnly P := bookkeepingOnly_silent P P_frame.

Lemma invariant_addEvent (element : Node) (key : string) (fn : JSVal) (p : bool) :
  invariant P (addEvent element key fn p).
Proof.
  apply invariant_modify. intros s H.
  destruct (negb (isFunction fn)); [exact H |].
  destruct (existsb (same_listener element key fn) (domListeners s)); [exact H |].
  apply (P_frame s); try reflexivity; [intros Hk; exact Hk | exact H].
Qed.

Lemma invariant_addEventOnDom (element : Node) (key : string) (fn : JSVal) :
  invariant P (_addEventOnDom env element key fn).
Proof. unfold _addEventOnDom. apply invariant_if; apply invariant_addEvent. Qed.

Lemma invariant_removeEvent (element : Node) (key : string) (fn : JSVal) :
  invariant P (removeEvent element key fn).
Proof.
  apply invariant_modify. intros s H.
  apply (P_frame s); try reflexivity; [intros Hk; exact Hk | exact H].
Qed.

Lemma invariant_kernel_off (name : string) (fn : JSVal) :
  invariant P (kernel_off name fn).
Proof.
  intros s H. unfold kernel_off. destruct (kernel s) eqn:Hk; simpl; [| exact H].
  apply (P_frame s); try reflexivity; [intros _; simpl; discriminate | exact H].
Qed.

Lemma invariant_set_mouseInVideo (b : bool) :
  invariant P (modify (fun s => set_dom (set_mouseInVideo b (dom s)) s)).
Proof.
  apply invariant_modify. intros s H.
  apply (P_frame s); try reflexivity; [intros Hk; exact Hk | exact H].
Qed.

Lemma invariant_mouseMoveHandler (name : string) (args : list JSVal) :
  invariant P (mouseMoveHandler env name args).
Proof.
  unfold mouseMoveHandler. destruct args as [| a rest]; [apply invariant_throw |].
  destruct a; try apply invariant_throw; try apply invariant_ret.
  apply invariant_bind; [apply invariant_gets | intros d].
  apply invariant_if; [| apply invariant_if; [| apply invariant_ret]].
  - apply invariant_bind; [apply invariant_set_mouseInVideo | intros _].
    apply invariant_guardedDispatch, P_silent.
  - apply invariant_bind; [apply invariant_set_mouseInVideo | intros _].
    apply invariant_guardedDispatch, P_silent.
Qed.

Lemma invariant_callFn (fn : JSVal) (args : list JSVal) :
  invariant P (callFn env fn args).
Proof.
  unfold callFn. destruct fn; try apply invariant_throw.
  destruct f; [apply invariant_ret | | |].
  - apply invariant_guardedDispatch, P_silent.
  - apply invariant_guardedDispatch, P_silent.
  - apply invariant_mouseMoveHandler.
Qed.

Lemma invariant_fireDomEvent (node : Node) (ev : DomEvent) :
  invariant P (fireDomEvent env node ev).
Proof.
  unfold fireDomEvent. apply invariant_bind; [apply invariant_gets | intros ls].
  apply invariant_forEach. intros l.
  apply invariant_bind; [apply invariant_callFn | intros _; apply invariant_ret].
Qed.

Lemma invariant_bindEventOnPenetrateNode (node : Node) (remove : bool) :
  invariant P (bindEventOnPenetrateNode env node remove).
Proof.
  unfold bindEventOnPenetrateNode.
  apply invariant_bind; [apply invariant_gets | intros l].
  apply invariant_forEach. intros [name fn].
  apply invariant_if; [apply invariant_removeEvent | apply invariant_addEventOnDom].
Qed.

Lemma invariant_bindEventOnVideo (node : Node) (remove : bool) :
  invariant P (bindEventOnVideo env node remove).
Proof.
  unfold bindEventOnVideo.
  apply invariant_bind; [apply invariant_gets | intros l].
  apply invariant_forEach. intros [name fn].
  apply invariant_if; [apply invariant_removeEvent | apply invariant_addEventOnDom].
Qed.

End FrameInvariants.

(* ===================================================================== *)
(** * Teardown, in general                                                *)
(* ===================================================================== *)

Lemma kernelCleared_names (s : State) :
  bindedEventNames (kernelCleared s) = pk_set (bindedEventNames s) T_kernel [].
Proof. reflexivity. Qed.

Lemma kernelCleared_info (s : State) :
  bindedEventInfo (kernelCleared s) = pk_set (bindedEventInfo s) T_kernel [].
Proof. reflexivity. Qed.

Lemma destroy_rounds :
  destroy = forEach kinds (fun target => detachKind target ;; modify kernelCleared).
Proof. reflexivity. Qed.

Lemma invariant_detachKind (P : State -> Prop) (target : binderTarget) :
  bookkeepingOnly P -> invariant P (detachKind target).
Proof.
  intros HP.
  assert (Hdom : invariant P
    (targetDom <- _getTargetDom target ;;
     l <- gets (fun s => pk_get (bindedEventInfo s) target) ;;
     forEach l (fun '(name, fn) =>
       removeEvent targetDom name fn ;;
       if binderTarget_eqb target T_video_dom then
         nodes <- gets (fun s => videoExtendedNodes (dom s)) ;;
         forEach nodes (fun node => removeEvent node name fn)
       else ret tt))%js).
  { apply invariant_bind; [apply invariant_gets | intros targetDom].
    apply invariant_bind; [apply invariant_gets | intros l].
    apply invariant_forEach. intros [name fn].
    apply invariant_bind; [apply invariant_removeEvent, HP | intros _].
    apply invariant_if; [| apply invariant_ret].
    apply invariant_bind; [apply invariant_gets | intros nodes].
    apply invariant_forEach. intros node. apply invariant_removeEvent, HP. }
  destruct target; try exact Hdom.
  apply invariant_bind; [apply invariant_gets | intros l].
  apply invariant_forEach. intros [name fn]. apply invariant_kernel_off, HP.
Qed.

Lemma forEach_last_modify {A : Type} (l : list A) (c : A -> M unit)
      (f : State -> State) (s s' : State) :
  l <> [] ->
  forEach l (fun x => c x ;; modify f)%js s = Return tt s' ->
  exists s'', s' = f s''.
Proof.
  revert s. induction l as [| x l IH]; intros s Hne R; [contradiction Hne; reflexivity |].
  simpl in R. unfold bind at 1 in R. unfold bind at 1 in R.
  destruct (c x s) as [[] s1 | e s1]; [| discriminate]. unfold modify at 1 in R.
  destruct l as [| y l].
  - simpl in R. inversion R. exists s1. reflexivity.
  - apply (IH (f s1)); [discriminate | exact R].
Qed.

(** Whenever [destroy] returns, the kernel's bookkeeping is empty and the
    bookkeeping of every other kind is exactly what it was before. *)
Lemma destroy_bookkeeping (s s' : State) :
  destroy s = Return tt s' ->
  pk_get (bindedEventNames s') T_kernel = []
  /\ pk_get (bindedEventInfo s') T_kernel = []
  /\ forall t, t <> T_kernel ->
       pk_get (bindedEventNames s') t = pk_get (bindedEventNames s) t
       /\ pk_get (bindedEventInfo s') t = pk_get (bindedEventInfo s) t.
Proof.
  intros R. rewrite destroy_rounds in R.
  destruct (forEach_last_modify kinds detachKind kernelCleared s s') as (s'' & E);
    [discriminate | exact R |].
  split; [rewrite E; reflexivity |]. split; [rewrite E; reflexivity |].
  set (P := fun x : State => forall t, t <> T_kernel ->
              pk_get (bindedEventNames x) t = pk_get (bindedEventNames s) t
              /\ pk_get (bindedEventInfo x) t = pk_get (bindedEventInfo s) t).
  assert (HP : bookkeepingOnly P).
  { intros a b En Ei _ H t Ht. rewrite En, Ei. exact (H t Ht). }
  assert (Hinv : invariant P
            (forEach kinds (fun target => detachKind target ;; modify kernelCleared)%js)).
  { apply invariant_forEach. intros target.
    apply invariant_bind; [apply invariant_detachKind, HP | intros _].
    apply invariant_modify. intros a H t Ht.
    rewrite kernelCleared_names, kernelCleared_info.
    rewrite !pk_get_set_other by exact Ht. exact (H t Ht). }
  specialize (Hinv s). rewrite R in Hinv. apply Hinv.
  intros t _. split; reflexivity.
Qed.

Lemma wf_kernelCleared (env : Env) (s : State) : wf env s -> wf env (kernelCleared s).
Proof.
  intros [Hwt Hker]. split.
  - intros t. unfold wfTarget. rewrite kernelCleared_names, kernelCleared_info.
    destruct (binderTarget_eqb_spec t T_kernel) as [-> | Hne].
    + rewrite !pk_get_set_same. simpl.
      split; [reflexivity | split; [constructor | split; intros; contradiction]].
    + rewrite !pk_get_set_other by exact Hne. exact (Hwt t).
  - rewrite kernelCleared_names, pk_get_set_same. intros H. contradiction H. reflexivity.
Qed.

Lemma wf_destroy (env : Env) : invariant (wf env) destroy.
Proof.
  rewrite destroy_rounds. apply invariant_forEach. intros target.
  apply invariant_bind; [apply invariant_detachKind, wf_bookkeepingOnly | intros _].
  apply invariant_modify. apply wf_kernelCleared.
Qed.

Lemma wf_replay (env : Env) (t : binderTarget) (l : list (string * string)) (s : State) :
  wf env s -> wf env (replay env t l s).
Proof.
  revert s. induction l as [| [n id] l IH]; intros s H; [exact H |].
  apply (IH (afterAdd env n t id s)). apply wf_afterAdd, H.
Qed.

Lemma wf_applyPendingEvents (env : Env) (t : binderTarget) :
  invariant (wf env) (applyPendingEvents env t).
Proof.
  intros s H. rewrite run_applyPendingEvents. simpl. apply wf_replay.
  apply (wf_bookkeepingOnly env s); try reflexivity; [intros Hk; exact Hk | exact H].
Qed.

Lemma handled_video_dom (env : Env) (n : string) :
  _isEventNeedToBeHandled env T_video_dom n = true.
Proof. unfold _isEventNeedToBeHandled. simpl. apply orb_true_r. Qed.

Lemma wf_listenOnMouseMoveEvent (env : Env) (node : Node) :
  invariant (wf env) (listenOnMouseMoveEvent env node).
Proof.
  unfold listenOnMouseMoveEvent. apply invariant_forEach. intros name s H.
  unfold bind, newFn.
  rewrite run_addEventOnDom by reflexivity.
  unfold gets. cbv beta iota.
  set (s2 := set_domListeners _ (set_nextFn (S (nextFn s)) s)).
  assert (H2 : wf env s2).
  { apply (wf_bookkeepingOnly env s); try reflexivity; [intros Hk; exact Hk | exact H]. }
  rewrite indexOf_negative.
  destruct (indexOf (pk_get (bindedEventNames s2) T_video_dom) name >? -1)%Z eqn:Hi;
    simpl; [exact H2 |].
  apply indexOf_missing in Hi. destruct H2 as [Hwt Hker].
  change (wf env (bound T_video_dom name (VFun (MouseMoveFn (nextFn s) name)) s2)).
  split.
  - intros u. apply wfTarget_bound;
      [exact (Hwt u) | exact Hi | reflexivity | apply handled_video_dom].
  - rewrite bound_names_other by discriminate. exact Hker.
Qed.

(** X16: every operation of the binder keeps the bookkeeping well formed:
    after [on], [off], [once], an emission, [bindEventOnPenetrateNode],
    [bindEventOnVideo], [listenOnMouseMoveEvent], the delivery of a DOM
    event, [applyPendingEvents] and [destroy], whether the call returned or
    threw, the bound names of every kind are still the names of its relay
    entries in the same order and without repetition, every recorded relay
    is a function, every bound name is one the binder relays, and kernel
    relays are only bound while a media engine is attached. *)
Theorem wf_preserved (env : Env) (s : State) :
  wf env s ->
  (forall info, wf env (final (on env info s)))
  /\ (forall info, wf env (final (off env info s)))
  /\ (forall info, wf env (final (once env info s)))
  /\ (forall k backup info args, wf env (final (guardedDispatch env k backup info args s)))
  /\ (forall node remove, wf env (final (bindEventOnPenetrateNode env node remove s)))
  /\ (forall node remove, wf env (final (bindEventOnVideo env node remove s)))
  /\ (forall node, wf env (final (listenOnMouseMoveEvent env node s)))
  /\ (forall node ev, wf env (final (fireDomEvent env node ev s)))
  /\ (forall t, wf env (final (applyPendingEvents env t s)))
  /\ wf env (final (destroy s)).
Proof.
  intros H.
  assert (Hthrow : forall (info : rawEventInfo) (k : wholeEventInfo -> M unit),
             isFunction (r_fn info) = false ->
             wf env (final ((w <- prettifyEventParameter env info ;; k w)%js s))).
  { intros info k Hf. unfold bind.
    rewrite (prettifyEventParameter_throws env info s Hf). simpl.
    apply (wf_bookkeepingOnly env s); try reflexivity; [intros Hk; exact Hk | exact H]. }
  repeat match goal with |- _ /\ _ => split end.
  - intros info. destruct (isFunction (r_fn info)) eqn:Hf;
      [apply wf_on; assumption | apply Hthrow, Hf].
  - intros info. destruct (isFunction (r_fn info)) eqn:Hf;
      [apply wf_off; assumption | apply Hthrow, Hf].
  - intros info. destruct (isFunction (r_fn info)) eqn:Hf;
      [apply wf_once; assumption | apply Hthrow, Hf].
  - intros k backup info args.
    apply (invariant_guardedDispatch env (wf env)
             (bookkeepingOnly_silent _ (wf_bookkeepingOnly env))), H.
  - intros node remove.
    apply (invariant_bindEventOnPenetrateNode env (wf env) (wf_bookkeepingOnly env)), H.
  - intros node remove.
    apply (invariant_bindEventOnVideo env (wf env) (wf_bookkeepingOnly env)), H.
  - intros node. apply wf_listenOnMouseMoveEvent, H.
  - intros node ev.
    apply (invariant_fireDomEvent env (wf env) (wf_bookkeepingOnly env)), H.
  - intros t. apply wf_applyPendingEvents, H.
  - apply wf_destroy, H.
Qed.

(* ===================================================================== *)
(** * Bookkeeping and sources stay in step                                *)
(* ===================================================================== *)

Lemma filter_absorb {A : Type} (p q : A -> bool) (l : list A) :
  (forall x, In x l -> p x = true -> q x = true) ->
  filter p (filter q l) = filter p l.
Proof.
  induction l as [| x l IH]; intros H; simpl; [reflexivity |].
  assert (IH' : filter p (filter q l) = filter p l).
  { apply IH. intros y Hy. apply H. right. exact Hy. }
  destruct (q x) eqn:Hq; simpl.
  - rewrite IH'. reflexivity.
  - destruct (p x) eqn:Hp; [| exact IH'].
    rewrite (H x (or_introl eq_refl) Hp) in Hq. discriminate.
Qed.

Lemma relayOf_unique (t t' : binderTarget) (fn : JSVal) :
  relayOf t fn = true -> relayOf t' fn = true -> t = t'.
Proof.
  destruct fn as [| | | | | | | f |]; simpl; try discriminate.
  destruct f as [u | u k n i | u k n i | u n]; simpl; try discriminate; intros H1 H2;
    destruct t, t'; try reflexivity; simpl in *; try discriminate;
    destruct k; discriminate.
Qed.

Lemma relayOf_isFunction (t : binderTarget) (fn : JSVal) :
  relayOf t fn = true -> isFunction fn = true.
Proof. destruct fn; simpl; try discriminate. reflexivity. Qed.

Lemma relayFor_other_kind (t t' : binderTarget) (u : nat) (n : string) :
  t' <> t -> relayOf t' (relayFor t u n) = false.
Proof. destruct t, t'; intros H; try reflexivity; contradiction H; reflexivity. Qed.

Lemma nativeOn_true (t : binderTarget) (n : string) (m : Node) (l : DomListener) :
  nativeOn t n m l = true ->
  l_node l = m /\ l_type l = n /\ relayOf t (l_fn l) = true.
Proof.
  unfold nativeOn. intros H.
  apply andb_prop in H. destruct H as [H H3].
  apply andb_prop in H. destruct H as [H1 H2].
  apply Nat.eqb_eq in H1. apply String.eqb_eq in H2. repeat split; assumption.
Qed.

Lemma same_listener_true (m : Node) (n : string) (fn : JSVal) (l : DomListener) :
  same_listener m n fn l = true -> l_node l = m /\ l_type l = n /\ l_fn l = fn.
Proof.
  unfold same_listener. intros H.
  apply andb_prop in H. destruct H as [H H3].
  apply andb_prop in H. destruct H as [H1 H2].
  apply Nat.eqb_eq in H1. apply String.eqb_eq in H2. apply same_fn_eq in H3.
  repeat split; assumption.
Qed.

Lemma unrelated_pair (t t' : binderTarget) (n n' : string) (fn : JSVal) :
  relayOf t fn = true -> t' <> t \/ n' <> n -> unrelated t t' n n' fn.
Proof.
  intros Hr [Ht | Hn]; [right | left; exact Hn].
  destruct (relayOf t' fn) eqn:E; [| reflexivity].
  contradiction Ht. symmetry. exact (relayOf_unique t t' fn Hr E).
Qed.

Lemma unrelated_native (t t' : binderTarget) (n n' : string) (fn : JSVal)
      (m m' : Node) (l : DomListener) :
  unrelated t t' n n' fn ->
  nativeOn t' n' m l = true -> same_listener m' n fn l = false.
Proof.
  intros Hu Hn. destruct (same_listener m' n fn l) eqn:Hs; [| reflexivity].
  apply nativeOn_true in Hn. destruct Hn as (_ & Ht & Hr).
  apply same_listener_true in Hs. destruct Hs as (_ & Ht' & Hf).
  destruct Hu as [Hu | Hu]; [congruence | rewrite Hf in Hr; congruence].
Qed.

Lemma detach_keeps (t t' : binderTarget) (n n' : string) (fn : JSVal) (m m' : Node)
      (ls : list DomListener) :
  unrelated t t' n n' fn ->
  filter (nativeOn t' n' m) (detach m' n fn ls) = filter (nativeOn t' n' m) ls.
Proof.
  intros Hu. unfold detach. apply filter_absorb. intros x _ Hx.
  rewrite (unrelated_native t t' n n' fn m m' x Hu Hx). reflexivity.
Qed.

Lemma detachAll_keeps (t t' : binderTarget) (n n' : string) (fn : JSVal) (m : Node)
      (nodes : list Node) (ls : list DomListener) :
  unrelated t t' n n' fn ->
  filter (nativeOn t' n' m) (detachAll nodes n fn ls) = filter (nativeOn t' n' m) ls.
Proof.
  intros Hu. revert ls. induction nodes as [| m' nodes IH]; intros ls; simpl;
    [reflexivity |].
  rewrite IH. apply (detach_keeps t), Hu.
Qed.

Lemma attach_keeps (env : Env) (t t' : binderTarget) (n n' : string) (fn : JSVal)
      (m m' : Node) (ls : list DomListener) :
  unrelated t t' n n' fn ->
  filter (nativeOn t' n' m) (attach env m' n fn ls) = filter (nativeOn t' n' m) ls.
Proof.
  intros Hu. unfold attach.
  destruct (existsb (same_listener m' n fn) ls); [reflexivity |].
  rewrite filter_app. simpl.
  assert (E : nativeOn t' n' m
                (mkListener m' n fn (indexOf (passiveEvents env) n >? -1)%Z) = false).
  { unfold nativeOn. simpl. destruct Hu as [Hu | Hu].
    - destruct (String.eqb_spec n n'); [congruence |]. rewrite andb_false_r. reflexivity.
    - rewrite Hu. apply andb_false_r. }
  rewrite E. apply app_nil_r.
Qed.

Lemma attachAll_keeps (env : Env) (t t' : binderTarget) (n n' : string) (fn : JSVal)
      (m : Node) (nodes : list Node) (ls : list DomListener) :
  unrelated t t' n n' fn ->
  filter (nativeOn t' n' m) (attachAll env nodes n fn ls) = filter (nativeOn t' n' m) ls.
Proof.
  intros Hu. revert ls. induction nodes as [| m' nodes IH]; intros ls; simpl;
    [reflexivity |].
  rewrite IH. apply (attach_keeps env t), Hu.
Qed.

(** Detaching the only native listener of [(t, n)] on a node leaves none. *)
Lemma detachAll_clears (t : binderTarget) (n : string) (fn : JSVal) (m : Node)
      (nodes : list Node) (ls : list DomListener) :
  In m nodes ->
  map l_fn (filter (nativeOn t n m) ls) = [fn] ->
  filter (nativeOn t n m) (detachAll nodes n fn ls) = [].
Proof.
  intros Hm Hone.
  destruct (filter (nativeOn t n m) (detachAll nodes n fn ls)) as [| x xs] eqn:E;
    [reflexivity | exfalso].
  assert (Hx : In x (filter (nativeOn t n m) (detachAll nodes n fn ls)))
    by (rewrite E; left; reflexivity).
  apply filter_In in Hx. destruct Hx as [Hin Hnat].
  apply detachAll_In in Hin. destruct Hin as [Hin Hall].
  assert (Hf : In (l_fn x) (map l_fn (filter (nativeOn t n m) ls))).
  { apply in_map, filter_In. split; assumption. }
  rewrite Hone in Hf. destruct Hf as [Hf | []].
  pose proof (nativeOn_true t n m x Hnat) as (Hnode & Htype & Hrel).
  assert (Hs : same_listener m n fn x = true).
  { unfold same_listener. rewrite Hnode, Htype, Nat.eqb_refl, String.eqb_refl. simpl.
    rewrite <- Hf in Hrel. rewrite <- Hf.
    apply same_fn_refl. apply (relayOf_isFunction t), Hrel. }
  rewrite (Hall m Hm) in Hs. discriminate.
Qed.

Lemma sourcesOf_dom (a b : State) (t : binderTarget) :
  dom a = dom b -> sourcesOf a t = sourcesOf b t.
Proof.
  intros H. unfold sourcesOf, domNodes, targetDomOf. rewrite H. reflexivity.
Qed.

Lemma splice1_indexOf_keeps (l : list string) (x y : string) :
  In x l -> In y l -> y <> x -> In y (splice1 (Z.to_nat (indexOf l x)) l).
Proof.
  induction l as [| z l IH]; intros Hx Hin Hne; [contradiction |].
  destruct (String.eqb_spec z x) as [-> | Hzx].
  - simpl. rewrite String.eqb_refl. simpl.
    destruct Hin as [-> | Hin]; [contradiction Hne; reflexivity | exact Hin].
  - destruct Hx as [Hx | Hx]; [contradiction |].
    rewrite (indexOf_to_nat_cons z x l Hzx Hx). simpl.
    destruct Hin as [-> | Hin]; [left; reflexivity | right; apply IH; assumption].
Qed.

Lemma attachedOn_bound (t t' : binderTarget) (n n' : string) (fn : JSVal) (s : State)
      (src : Source) :
  attachedOn (bound t n fn s) t' n' src = attachedOn s t' n' src.
Proof. reflexivity. Qed.

(** Recording a relay that was just attached keeps the bookkeeping in step. *)
Lemma synced_bound (s mid : State) (t : binderTarget) (n : string) (fn : JSVal) :
  synced s ->
  pk_get (bindedEventNames s) t = map fst (pk_get (bindedEventInfo s) t) ->
  ~ In n (pk_get (bindedEventNames s) t) ->
  relayOf t fn = true ->
  bindedEventNames mid = bindedEventNames s ->
  bindedEventInfo mid = bindedEventInfo s ->
  dom mid = dom s ->
  (forall src, In src (sourcesOf s t) -> attachedOn mid t n src = [fn]) ->
  (forall t' n' src, t' <> t \/ n' <> n ->
                     attachedOn mid t' n' src = attachedOn s t' n' src) ->
  synced (bound t n fn mid).
Proof.
  intros Hs Hlock Hn Hrel En Ei Ed A1 A2 t'.
  destruct (Hs t') as [P1 P2].
  assert (Hsrc : sourcesOf (bound t n fn mid) t' = sourcesOf s t')
    by (apply sourcesOf_dom; exact Ed).
  unfold relaySynced. rewrite Hsrc.
  destruct (binderTarget_eqb_spec t' t) as [-> | Hne].
  - rewrite bound_info, bound_names, En, Ei. split.
    + intros n' fn' Hin. apply in_app_or in Hin. destruct Hin as [Hin | [E | []]].
      * destruct (P1 n' fn' Hin) as [Hr Ha]. split; [exact Hr |].
        intros src Hsrc'.
        rewrite attachedOn_bound, A2; [apply Ha, Hsrc' |].
        right. intros ->. apply Hn. rewrite Hlock.
        apply (in_map fst) in Hin. exact Hin.
      * inversion E; subst. split; [exact Hrel |]. intros src Hsrc'.
        rewrite attachedOn_bound. exact (A1 src Hsrc').
    + intros n' Hn' src Hsrc'.
      rewrite attachedOn_bound, A2.
      * apply P2; [| exact Hsrc']. intros H. apply Hn'. apply in_or_app. left. exact H.
      * right. intros ->. apply Hn'. apply in_or_app. right. left. reflexivity.
  - rewrite (bound_info_other t t' n fn mid Hne), (bound_names_other t t' n fn mid Hne).
    rewrite En, Ei. split.
    + intros n' fn' Hin. destruct (P1 n' fn' Hin) as [Hr Ha]. split; [exact Hr |].
      intros src Hsrc'.
      rewrite attachedOn_bound, A2; [apply Ha, Hsrc' | left; exact Hne].
    + intros n' Hn' src Hsrc'.
      rewrite attachedOn_bound, A2; [apply P2; assumption | left; exact Hne].
Qed.

Lemma synced_afterAdd (env : Env) (n : string) (t : binderTarget) (id : string)
      (s : State) :
  wf env s -> synced s -> synced (afterAdd env n t id s).
Proof.
  intros [Hwt _] Hs.
  destruct (Hwt t) as (Hlock & _).
  destruct (afterAdd_cases env n t id s)
    as [[E Hc] | [(Hh & Hn & Ht & Hk & E) | [(Hh & Hn & Ht & ls & Hk & E)
                                           | (Hh & Hn & Ht & E)]]]; rewrite E; clear E.
  - exact Hs.
  - exact Hs.
  - destruct (handled_kinds env t n Hh) as [Hp He].
    pose proof (relayFor_relayOf t (nextFn s) n Hp He) as Hrel.
    apply (synced_bound s); try assumption; try reflexivity.
    + subst t. intros src [<- | []].
      destruct (Hs T_kernel) as [_ P2].
      pose proof (P2 n Hn OnKernel (or_introl eq_refl)) as H0.
      unfold attachedOn in *. simpl. rewrite Hk in H0.
      rewrite filter_app, map_app, H0. simpl. rewrite String.eqb_refl. reflexivity.
    + intros t' n' src Hd. destruct src; [| reflexivity].
      unfold attachedOn. simpl. rewrite Hk, filter_app. simpl.
      destruct (unrelated_pair t t' n n' _ Hrel Hd) as [Hu | Hu].
      * destruct (String.eqb_spec n n'); [congruence |]. simpl. rewrite app_nil_r.
        reflexivity.
      * rewrite Hu, andb_false_r. rewrite app_nil_r. reflexivity.
  - destruct (handled_kinds env t n Hh) as [Hp He].
    pose proof (relayFor_relayOf t (nextFn s) n Hp He) as Hrel.
    pose proof (relayFor_isFunction t (nextFn s) n Hp He) as Hfun.
    assert (Hsrcs : sourcesOf s t = map OnNode (domNodes s t))
      by (destruct t; try reflexivity; contradiction).
    apply (synced_bound s); try assumption; try reflexivity.
    + intros src Hsrc. rewrite Hsrcs in Hsrc.
      apply in_map_iff in Hsrc. destruct Hsrc as (m & <- & Hm).
      unfold attachedOn. simpl.
      rewrite (attachAll_filter env t n _ Hfun Hrel (domNodes s t) (domListeners s));
        [reflexivity | | exact Hm].
      intros k Hk.
      destruct (Hs t) as [_ P2].
      assert (Hk' : In (OnNode k) (sourcesOf s t)) by (rewrite Hsrcs; apply in_map, Hk).
      pose proof (P2 n Hn (OnNode k) Hk') as H0. simpl in H0.
      apply map_eq_nil in H0. exact H0.
    + intros t' n' src Hd. destruct src; [reflexivity |].
      unfold attachedOn. simpl.
      rewrite (attachAll_keeps env t t' n n'); [reflexivity |].
      apply unrelated_pair; assumption.
Qed.

(** Dropping the entries of a relay that was just detached keeps the
    bookkeeping in step. *)
Lemma synced_forgotten (s mid : State) (t : binderTarget) (n : string) :
  synced s ->
  pk_get (bindedEventNames s) t = map fst (pk_get (bindedEventInfo s) t) ->
  NoDup (pk_get (bindedEventNames s) t) ->
  In n (pk_get (bindedEventNames s) t) ->
  bindedEventNames mid = bindedEventNames s ->
  bindedEventInfo mid = bindedEventInfo s ->
  dom mid = dom s ->
  (forall src, In src (sourcesOf s t) -> attachedOn mid t n src = []) ->
  (forall t' n' src, t' <> t \/ n' <> n ->
                     attachedOn mid t' n' src = attachedOn s t' n' src) ->
  synced (forgotten t (Z.to_nat (indexOf (pk_get (bindedEventNames s) t) n))
                    (Z.to_nat (indexOf (pk_get (bindedEventNames s) t) n)) mid).
Proof.
  intros Hs Hlock Hnd Hin En Ei Ed R1 R2 t'.
  set (i := Z.to_nat (indexOf (pk_get (bindedEventNames s) t) n)).
  destruct (Hs t') as [P1 P2].
  assert (Hsrc : sourcesOf (forgotten t i i mid) t' = sourcesOf s t')
    by (apply sourcesOf_dom; exact Ed).
  assert (Hatt : forall k n' src,
             attachedOn (forgotten t i i mid) k n' src = attachedOn mid k n' src)
    by reflexivity.
  unfold relaySynced. rewrite Hsrc, forgotten_names, forgotten_info, En, Ei.
  destruct (binderTarget_eqb_spec t' t) as [-> | Hne].
  - rewrite !pk_get_set_same. split.
    + intros n' fn' Hin'.
      assert (Hn' : n' <> n).
      { intros ->. apply (in_map fst) in Hin'. rewrite map_splice1, <- Hlock in Hin'.
        exact (splice1_indexOf_removes _ n Hnd Hin Hin'). }
      apply In_splice1 in Hin'. destruct (P1 n' fn' Hin') as [Hr Ha].
      split; [exact Hr |]. intros src Hsrc'.
      rewrite Hatt, R2; [apply Ha, Hsrc' | right; exact Hn'].
    + intros n' Hn' src Hsrc'. rewrite Hatt.
      destruct (String.eqb_spec n' n) as [-> | Hd].
      * apply R1, Hsrc'.
      * rewrite R2 by (right; exact Hd).
        apply P2; [| exact Hsrc']. intros H. apply Hn'.
        apply splice1_indexOf_keeps; assumption.
  - rewrite !pk_get_set_other by exact Hne. split.
    + intros n' fn' Hin'. destruct (P1 n' fn' Hin') as [Hr Ha].
      split; [exact Hr |]. intros src Hsrc'.
      rewrite Hatt, R2; [apply Ha, Hsrc' | left; exact Hne].
    + intros n' Hn' src Hsrc'.
      rewrite Hatt, R2; [apply P2; assumption | left; exact Hne].
Qed.

Lemma unplugged_clears (t : binderTarget) (n : string) (relay : JSVal) (s : State) :
  relayOf t relay = true ->
  (forall src, In src (sourcesOf s t) -> attachedOn s t n src = [relay]) ->
  forall src, In src (sourcesOf s t) -> attachedOn (unplugged t n relay s) t n src = [].
Proof.
  intros Hrel Hone src Hsrc. pose proof (Hone src Hsrc) as H1.
  assert (Hdom : forall nodes m,
    In m nodes ->
    map l_fn (filter (nativeOn t n m) (domListeners s)) = [relay] ->
    map l_fn (filter (nativeOn t n m) (detachAll nodes n relay (domListeners s))) = []).
  { intros nodes m Hm E. rewrite (detachAll_clears t n relay m nodes _ Hm E). reflexivity. }
  destruct t; simpl in Hsrc; try contradiction.
  - destruct Hsrc as [<- | []]. unfold unplugged, attachedOn in *.
    destruct (kernel s) as [ls |] eqn:Hk; [| discriminate].
    simpl.
    destruct (filter (fun l => (fst l =? n) && relayOf T_kernel (snd l))
                (filter (fun l => negb (same_kernel_listener n relay l)) ls))
      as [| x xs] eqn:E; [reflexivity | exfalso].
    assert (Hx : In x (filter (fun l => (fst l =? n) && relayOf T_kernel (snd l))
                         (filter (fun l => negb (same_kernel_listener n relay l)) ls)))
      by (rewrite E; left; reflexivity).
    apply filter_In in Hx. destruct Hx as [Hx Hp].
    apply filter_In in Hx. destruct Hx as [Hx Hq].
    assert (Hf : In (snd x) (map snd (filter (fun l => (fst l =? n)
                                                && relayOf T_kernel (snd l)) ls))).
    { apply in_map, filter_In. split; assumption. }
    rewrite H1 in Hf. destruct Hf as [Hf | []].
    apply andb_prop in Hp. destruct Hp as [Hp1 Hp2].
    unfold same_kernel_listener in Hq. rewrite Hp1, Hf in Hq. simpl in Hq.
    rewrite (same_fn_refl (snd x)) in Hq; [discriminate |].
    apply (relayOf_isFunction T_kernel), Hp2.
  - destruct Hsrc as [<- | []].
    exact (Hdom [container (dom s)] (container (dom s)) (or_introl eq_refl) H1).
  - destruct Hsrc as [<- | []].
    exact (Hdom [wrapper (dom s)] (wrapper (dom s)) (or_introl eq_refl) H1).
  - destruct Hsrc as [<- | []].
    exact (Hdom [videoElement (dom s)] (videoElement (dom s)) (or_introl eq_refl) H1).
  - apply in_map_iff in Hsrc. destruct Hsrc as (m & <- & Hm).
    apply (Hdom (videoElement (dom s) :: videoExtendedNodes (dom s)) m); [| exact H1].
    apply in_app_or in Hm. destruct Hm as [Hm | [<- | []]];
      [right; exact Hm | left; reflexivity].
Qed.

Lemma unplugged_keeps (t : binderTarget) (n : string) (relay : JSVal) (s : State) :
  relayOf t relay = true ->
  forall t' n' src, t' <> t \/ n' <> n ->
    attachedOn (unplugged t n relay s) t' n' src = attachedOn s t' n' src.
Proof.
  intros Hrel t' n' src Hd.
  pose proof (unrelated_pair t t' n n' relay Hrel Hd) as Hu.
  assert (Hdom : forall nodes m,
    map l_fn (filter (nativeOn t' n' m) (detachAll nodes n relay (domListeners s)))
    = map l_fn (filter (nativeOn t' n' m) (domListeners s))).
  { intros nodes m. rewrite (detachAll_keeps t t' n n' relay m nodes _ Hu). reflexivity. }
  destruct t.
  - unfold unplugged. destruct (kernel s) as [ls |] eqn:Hk; [| reflexivity].
    destruct src; [| reflexivity].
    unfold attachedOn. simpl. rewrite Hk. f_equal.
    apply filter_absorb. intros x _ Hx.
    apply andb_prop in Hx. destruct Hx as [Hx1 Hx2].
    apply String.eqb_eq in Hx1.
    unfold same_kernel_listener.
    destruct (String.eqb_spec (fst x) n) as [En | En]; [| reflexivity]. simpl.
    destruct (same_fn (snd x) relay) eqn:Es; [| reflexivity].
    apply same_fn_eq in Es. destruct Hu as [Hu | Hu]; [congruence |].
    rewrite Es in Hx2. congruence.
  - destruct src; [reflexivity |]. exact (Hdom [container (dom s)] node).
  - destruct src; [reflexivity |]. exact (Hdom [wrapper (dom s)] node).
  - destruct src; [reflexivity |]. exact (Hdom [videoElement (dom s)] node).
  - destruct src; [reflexivity |].
    exact (Hdom (videoElement (dom s) :: videoExtendedNodes (dom s)) node).
  - destruct src; [reflexivity |]. exact (Hdom [videoElement (dom s)] node).
  - destruct src; [reflexivity |]. exact (Hdom [videoElement (dom s)] node).
Qed.

Lemma synced_afterRemove (env : Env) (n : string) (t : binderTarget) (s : State) :
  wf env s -> synced s -> synced (afterRemove env n t s).
Proof.
  intros [Hwt _] Hs.
  destruct (Hwt t) as (Hlock & Hnd & _ & _).
  destruct (afterRemove_cases env n t s) as [[E _] | (Hh & Hin & He & Hf & E)];
    rewrite E; clear E; [exact Hs |].
  assert (Hin' : In n (map fst (pk_get (bindedEventInfo s) t)))
    by (rewrite <- Hlock; exact Hin).
  destruct (findBinded_found _ n Hin') as [Hrel Hidx].
  set (relay := snd (findBinded (pk_get (bindedEventInfo s) t) n)) in *.
  rewrite Hidx, <- Hlock.
  destruct (Hs t) as [P1 _]. destruct (P1 n relay Hrel) as [Hr Hone].
  destruct (unplugged_frame t n relay s) as (_ & En & Ei & _ & Ed).
  apply (synced_forgotten s); try assumption.
  - apply unplugged_clears; assumption.
  - apply unplugged_keeps. exact Hr.
Qed.

Lemma synced_silentOnly : silentOnly synced.
Proof.
  intros s s' En Ei Hk Ed Hl Hs t. destruct (Hs t) as [P1 P2].
  unfold relaySynced. rewrite (sourcesOf_dom s' s t Ed), En, Ei. split.
  - intros n fn Hin. destruct (P1 n fn Hin) as [Hr Ha]. split; [exact Hr |].
    intros src Hsrc. rewrite (attachedOn_ext s s' t n src Hk Hl). apply Ha, Hsrc.
  - intros n Hn src Hsrc. rewrite (attachedOn_ext s s' t n src Hk Hl).
    apply P2; assumption.
Qed.

Lemma synced_consistent (env : Env) (s : State) :
  wf env s -> synced s -> forall t n, relayConsistent s t n.
Proof.
  intros [Hwt _] Hs t n. destruct (Hwt t) as (Hlock & _). destruct (Hs t) as [P1 P2].
  split; [| exact (P2 n)].
  intros Hin src Hsrc. rewrite Hlock in Hin. apply in_map_iff in Hin.
  destruct Hin as ([n' fn] & <- & Hin). simpl.
  destruct (P1 n' fn Hin) as [_ Ha]. rewrite (Ha src Hsrc). reflexivity.
Qed.

Lemma inStep_silentOnly (env : Env) : silentOnly (fun s => wf env s /\ synced s).
Proof.
  intros s s' En Ei Hk Ed Hl [Hw Hs]. split.
  - exact (bookkeepingOnly_silent _ (wf_bookkeepingOnly env) s s' En Ei Hk Ed Hl Hw).
  - exact (synced_silentOnly s s' En Ei Hk Ed Hl Hs).
Qed.

Lemma inStep_afterAdd (env : Env) (n : string) (t : binderTarget) (id : string)
      (s : State) :
  wf env s /\ synced s -> wf env (afterAdd env n t id s) /\ synced (afterAdd env n t id s).
Proof.
  intros [Hw Hs]. split; [apply wf_afterAdd, Hw | apply synced_afterAdd; assumption].
Qed.

Lemma inStep_replay (env : Env) (t : binderTarget) (l : list (string * string))
      (s : State) :
  wf env s /\ synced s -> wf env (replay env t l s) /\ synced (replay env t l s).
Proof.
  revert s. induction l as [| [n id] l IH]; intros s H; [exact H |].
  apply (IH (afterAdd env n t id s)). apply inStep_afterAdd, H.
Qed.

Lemma inStep_constructor (env : Env) (d : Dom) (k : option (list (string * JSVal))) :
  k = None \/ k = Some [] ->
  wf env (constructor d k []) /\ synced (constructor d k []).
Proof.
  intros Hk. split; [apply wf_constructor |].
  intros t. split.
  - intros n fn Hin. destruct t; contradiction.
  - intros n _ src _. destruct src; [| reflexivity].
    destruct Hk as [-> | ->]; reflexivity.
Qed.

(** In every reachable state the bookkeeping is well formed and in step
    with the native listeners. *)
Theorem reachable_inStep (env : Env) (s : State) :
  reachable env s -> wf env s /\ synced s.
Proof.
  induction 1 as [d | d | s Hr IH Hk | s info Hr IH | s info Hr IH | s info Hr IH
                 | s k backup info args Hr IH | s t Hr IH].
  - apply inStep_constructor. left. reflexivity.
  - apply inStep_constructor. right. reflexivity.
  - destruct IH as [Hw Hs]. split.
    + apply (wf_bookkeepingOnly env s); try reflexivity; [| exact Hw].
      intros _. simpl. discriminate.
    + intros t. destruct (Hs t) as [P1 P2].
      assert (Hatt : forall n src,
                 attachedOn (set_kernel (Some []) s) t n src = attachedOn s t n src).
      { intros n src. destruct src; [| reflexivity].
        unfold attachedOn. simpl. rewrite Hk. reflexivity. }
      split.
      * intros n fn Hin. destruct (P1 n fn Hin) as [Hrel Ha]. split; [exact Hrel |].
        intros src Hsrc. rewrite Hatt. apply Ha, Hsrc.
      * intros n Hn src Hsrc. rewrite Hatt. apply P2; assumption.
  - destruct (isFunction (r_fn info)) eqn:Hf.
    + rewrite (run_on env info s Hf). simpl.
      set (s0 := set_log (log s ++ snd (getEventInfo_raw env info)) s).
      set (a := afterAdd env _ _ _ s0).
      assert (Ha : wf env a /\ synced a).
      { apply inStep_afterAdd. apply (inStep_silentOnly env s); try reflexivity. exact IH. }
      apply (inStep_silentOnly env a); try reflexivity. exact Ha.
    + unfold on, bind. rewrite (prettifyEventParameter_throws env info s Hf). simpl.
      apply (inStep_silentOnly env s); try reflexivity. exact IH.
  - destruct (isFunction (r_fn info)) eqn:Hf.
    + pose proof (run_off env info s Hf) as R. cbv zeta in R. rewrite R.
      * simpl.
        set (sb := set_buses _ (set_log (log s ++ snd (getEventInfo_raw env info)) s)).
        assert (Hb : wf env sb /\ synced sb).
        { apply (inStep_silentOnly env s); try reflexivity. exact IH. }
        destruct Hb as [Hw Hs].
        split; [apply wf_afterRemove, Hw | apply synced_afterRemove; assumption].
      * intros _ Hin. destruct IH as [[_ Hker] _]. apply Hker.
        intros E. rewrite E in Hin. contradiction.
    + unfold off, bind. rewrite (prettifyEventParameter_throws env info s Hf). simpl.
      apply (inStep_silentOnly env s); try reflexivity. exact IH.
  - destruct (isFunction (r_fn info)) eqn:Hf.
    + rewrite (run_once env info s Hf). simpl.
      apply (inStep_silentOnly env s); try reflexivity. exact IH.
    + unfold once, bind. rewrite (prettifyEventParameter_throws env info s Hf). simpl.
      apply (inStep_silentOnly env s); try reflexivity. exact IH.
  - exact (invariant_guardedDispatch env _ (inStep_silentOnly env) k backup info args s IH).
  - rewrite run_applyPendingEvents. simpl. apply inStep_replay.
    apply (inStep_silentOnly env s); try reflexivity. exact IH.
Qed.

(** In every reachable state the bookkeeping of every pair agrees with the
    sources. *)
Corollary reachable_consistent (env : Env) (s : State) :
  reachable env s -> forall t n, relayConsistent s t n.
Proof.
  intros H. destruct (reachable_inStep env s H) as [Hw Hs].
  exact (synced_consistent env s Hw Hs).
Qed.

(* ===================================================================== *)
(** * Teardown detaches every recorded relay                              *)
(* ===================================================================== *)

Lemma existsb_filter_false {A : Type} (p q : A -> bool) (l : list A) :
  existsb p l = false -> existsb p (filter q l) = false.
Proof.
  induction l as [| x l IH]; simpl; [reflexivity |].
  intros H. apply orb_false_iff in H. destruct H as [Hx Hl].
  destruct (q x); simpl; [rewrite Hx; simpl |]; apply IH, Hl.
Qed.

Section Unregistered.

Variable src : Source.
Variable n : string.
Variable fn : JSVal.

Let gone (s : State) : Prop := registeredOn s src n fn = false.

Lemma gone_removeEvent (element : Node) (key : string) (g : JSVal) :
  invariant gone (removeEvent element key g).
Proof.
  apply invariant_modify. intros s H. unfold gone, registeredOn in *.
  destruct src; [exact H |]. simpl. apply existsb_filter_false, H.
Qed.

Lemma gone_kernel_off (key : string) (g : JSVal) : invariant gone (kernel_off key g).
Proof.
  intros s H. unfold kernel_off. destruct (kernel s) as [ls |] eqn:Hk; [| exact H].
  unfold gone, registeredOn in *. simpl. destruct src; [| exact H].
  rewrite Hk in H. simpl. apply existsb_filter_false, H.
Qed.

Lemma gone_detachKind (t : binderTarget) : invariant gone (detachKind t).
Proof.
  assert (Hdom : invariant gone
    (targetDom <- _getTargetDom t ;;
     l <- gets (fun s => pk_get (bindedEventInfo s) t) ;;
     forEach l (fun '(name, g) =>
       removeEvent targetDom name g ;;
       if binderTarget_eqb t T_video_dom then
         nodes <- gets (fun s => videoExtendedNodes (dom s)) ;;
         forEach nodes (fun node => removeEvent node name g)
       else ret tt))%js).
  { apply invariant_bind; [apply invariant_gets | intros targetDom].
    apply invariant_bind; [apply invariant_gets | intros l].
    apply invariant_forEach. intros [name g].
    apply invariant_bind; [apply gone_removeEvent | intros _].
    apply invariant_if; [| apply invariant_ret].
    apply invariant_bind; [apply invariant_gets | intros nodes].
    apply invariant_forEach. intros node. apply gone_removeEvent. }
  destruct t; try exact Hdom.
  apply invariant_bind; [apply invariant_gets | intros l].
  apply invariant_forEach. intros [name g]. apply gone_kernel_off.
Qed.

Lemma gone_round (t : binderTarget) :
  invariant gone (detachKind t ;; modify kernelCleared)%js.
Proof.
  apply invariant_bind; [apply gone_detachKind | intros _].
  apply invariant_modify. intros s H. exact H.
Qed.

End Unregistered.

(** A loop whose round for [x] establishes [Q], while the rounds before it
    keep [R] and the rounds after it keep [Q]. *)
Lemma forEach_establishes {A : Type} (l1 l2 : list A) (x : A) (f : A -> M unit)
      (R Q : State -> Prop) :
  (forall y, In y l1 -> invariant R (f y)) ->
  (forall s1 s2, R s1 -> f x s1 = Return tt s2 -> Q s2) ->
  (forall y, In y l2 -> invariant Q (f y)) ->
  forall s s', R s -> forEach (l1 ++ x :: l2) f s = Return tt s' -> Q s'.
Proof.
  intros H1 Hx H2. induction l1 as [| y l1 IH]; intros s s' HR Hrun; simpl in Hrun.
  - unfold bind in Hrun. destruct (f x s) as [[] s1 | e s1] eqn:E; [| discriminate].
    pose proof (Hx s s1 HR E) as HQ.
    assert (Hinv : invariant Q (forEach l2 f)).
    { clear - H2. induction l2 as [| z l2 IH2]; simpl.
      - apply invariant_ret.
      - apply invariant_bind; [apply H2; left; reflexivity | intros _].
        apply IH2. intros w Hw. apply H2. right. exact Hw. }
    specialize (Hinv s1 HQ). rewrite Hrun in Hinv. exact Hinv.
  - unfold bind in Hrun. destruct (f y s) as [[] s1 | e s1] eqn:E; [| discriminate].
    apply (IH (fun w Hw => H1 w (or_intror Hw)) s1 s'); [| exact Hrun].
    pose proof (H1 y (or_introl eq_refl) s HR) as HR1. rewrite E in HR1. exact HR1.
Qed.

Lemma run_detachEntry (t : binderTarget) (p : string * JSVal) (s0 s s' : State) :
  dom s = dom s0 ->
  detachEntry t (targetDomOf s0 t) p s = Return tt s' ->
  s' = unplugged t (fst p) (snd p) s.
Proof.
  intros Hd. destruct p as [name g]. simpl fst. simpl snd.
  assert (Ht : targetDomOf s0 t = targetDomOf s t)
    by (unfold targetDomOf; rewrite Hd; reflexivity).
  rewrite Ht. clear Ht Hd.
  assert (Hdom : forall node,
    (removeEvent node name g ;; ret tt)%js s = Return tt s' ->
    s' = set_domListeners (detach node name g (domListeners s)) s).
  { intros node R. unfold bind, removeEvent, modify, ret in R. inversion R. reflexivity. }
  destruct t; unfold detachEntry, unplugged, targetDomOf; simpl.
  - unfold kernel_off. destruct (kernel s); intros R; inversion R. reflexivity.
  - apply Hdom.
  - apply Hdom.
  - apply Hdom.
  - unfold bind, gets. unfold removeEvent at 1. unfold modify at 1.
    rewrite run_removeEvent_all. intros R. inversion R. reflexivity.
  - apply Hdom.
  - apply Hdom.
Qed.

Lemma forEach_ext {A : Type} (l : list A) (f g : A -> M unit) :
  (forall p x, f p x = g p x) -> forall x, forEach l f x = forEach l g x.
Proof.
  intros Hfg. induction l as [| p l IH]; intros x; simpl; [reflexivity |].
  unfold bind. rewrite Hfg. destruct (g p x); [apply IH | reflexivity].
Qed.

Lemma detachKind_entries (t : binderTarget) (s : State) :
  detachKind t s
  = forEach (pk_get (bindedEventInfo s) t) (detachEntry t (targetDomOf s t)) s.
Proof.
  destruct t; unfold detachKind, bind, gets, _getTargetDom, targetDomOf;
    apply forEach_ext; intros [name g] x; reflexivity.
Qed.

Lemma invariant_detachEntry (P : State -> Prop) (t : binderTarget) (targetDom : Node)
      (p : string * JSVal) :
  (forall e k g, invariant P (removeEvent e k g)) ->
  (forall k g, invariant P (kernel_off k g)) ->
  invariant P (detachEntry t targetDom p).
Proof.
  intros Hrem Hoff.
  assert (Hdom : invariant P
    (removeEvent targetDom (fst p) (snd p) ;;
     if binderTarget_eqb t T_video_dom then
       nodes <- gets (fun s => videoExtendedNodes (dom s)) ;;
       forEach nodes (fun node => removeEvent node (fst p) (snd p))
     else ret tt)%js).
  { apply invariant_bind; [apply Hrem | intros _].
    apply invariant_if; [| apply invariant_ret].
    apply invariant_bind; [apply invariant_gets | intros nodes].
    apply invariant_forEach. intros node. apply Hrem. }
  destruct t; try exact Hdom. apply Hoff.
Qed.

Lemma invariant_round (P : State -> Prop) (t : binderTarget) :
  (forall e k g, invariant P (removeEvent e k g)) ->
  (forall k g, invariant P (kernel_off k g)) ->
  (forall s, P s -> P (kernelCleared s)) ->
  invariant P (detachKind t ;; modify kernelCleared)%js.
Proof.
  intros Hrem Hoff Hclr. apply invariant_bind; [| intros _; apply invariant_modify, Hclr].
  intros s H. rewrite detachKind_entries.
  apply (invariant_forEach P); [| exact H].
  intros p. apply invariant_detachEntry; assumption.
Qed.

Lemma sameDom_removeEvent (d : Dom) (e : Node) (k : string) (g : JSVal) :
  invariant (fun s => dom s = d) (removeEvent e k g).
Proof. apply invariant_modify. intros s H. exact H. Qed.

Lemma sameDom_kernel_off (d : Dom) (k : string) (g : JSVal) :
  invariant (fun s => dom s = d) (kernel_off k g).
Proof. intros s H. unfold kernel_off. destruct (kernel s); exact H. Qed.

(** After the loop over the relays of kind [t], none of them is registered
    on a source of [t]. *)
Lemma detachKind_detaches (t : binderTarget) (s s' : State) :
  detachKind t s = Return tt s' ->
  forall n fn, In (n, fn) (pk_get (bindedEventInfo s) t) ->
  forall src, In src (sourcesOf s t) -> registeredOn s' src n fn = false.
Proof.
  intros R n fn Hin src Hsrc. rewrite detachKind_entries in R.
  apply in_split in Hin. destruct Hin as (l1 & l2 & El). rewrite El in R.
  apply (forEach_establishes l1 l2 (n, fn) (detachEntry t (targetDomOf s t))
           (fun x => dom x = dom s) (fun x => registeredOn x src n fn = false))
    with (s := s); try assumption; try reflexivity.
  - intros y _. apply invariant_detachEntry;
      [apply sameDom_removeEvent | apply sameDom_kernel_off].
  - intros s1 s2 Hd E. apply (run_detachEntry t (n, fn) s s1 s2 Hd) in E.
    rewrite E. apply unplugged_registered.
    rewrite (sourcesOf_dom s1 s t Hd). exact Hsrc.
  - intros y _. apply invariant_detachEntry;
      [apply gone_removeEvent | apply gone_kernel_off].
Qed.

Lemma rounds_detach (t : binderTarget) (l1 l2 : list binderTarget) (s s' : State) :
  (t = T_kernel -> l1 = []) ->
  forEach (l1 ++ t :: l2) (fun target => detachKind target ;; modify kernelCleared)%js s
  = Return tt s' ->
  forall n fn, In (n, fn) (pk_get (bindedEventInfo s) t) ->
  forall src, In src (sourcesOf s t) -> registeredOn s' src n fn = false.
Proof.
  intros Hfirst R n fn Hin src Hsrc.
  apply (forEach_establishes l1 l2 t
           (fun target => detachKind target ;; modify kernelCleared)%js
           (fun x => dom x = dom s
                     /\ pk_get (bindedEventInfo x) t = pk_get (bindedEventInfo s) t)
           (fun x => registeredOn x src n fn = false))
    with (s := s); try assumption.
  - intros y Hy.
    assert (Ht : t <> T_kernel).
    { intros E. rewrite (Hfirst E) in Hy. contradiction. }
    apply invariant_round.
    + intros e k g. apply invariant_modify. intros x H. exact H.
    + intros k g x H. unfold kernel_off. destruct (kernel x); exact H.
    + intros x [Hd Hi]. split; [exact Hd |].
      rewrite kernelCleared_info, pk_get_set_other by exact Ht. exact Hi.
  - intros s1 s2 [Hd Hi] E. unfold bind in E.
    destruct (detachKind t s1) as [[] s1' | e s1'] eqn:Ek; [| discriminate].
    unfold modify in E. inversion E.
    change (registeredOn s1' src n fn = false).
    apply (detachKind_detaches t s1 s1' Ek).
    + rewrite Hi. exact Hin.
    + rewrite (sourcesOf_dom s1 s t Hd). exact Hsrc.
  - intros y _. apply gone_round.
  - split; reflexivity.
Qed.

(** Whenever [destroy] returns, every relay that was recorded, of every
    kind, is registered on no source of its kind any more. *)
Lemma destroy_detaches (s s' : State) :
  destroy s = Return tt s' ->
  forall t n fn, In (n, fn) (pk_get (bindedEventInfo s) t) ->
  forall src, In src (sourcesOf s t) -> registeredOn s' src n fn = false.
Proof.
  intros R t. rewrite destroy_rounds in R. destruct t.
  - apply (rounds_detach T_kernel []
             [T_container; T_wrapper; T_video; T_video_dom; T_plugin; T_esFullscreen]
             s s'); [reflexivity | exact R].
  - apply (rounds_detach T_container [T_kernel]
             [T_wrapper; T_video; T_video_dom; T_plugin; T_esFullscreen]
             s s'); [discriminate | exact R].
  - apply (rounds_detach T_wrapper [T_kernel; T_container]
             [T_video; T_video_dom; T_plugin; T_esFullscreen]
             s s'); [discriminate | exact R].
  - apply (rounds_detach T_video [T_kernel; T_container; T_wrapper]
             [T_video_dom; T_plugin; T_esFullscreen]
             s s'); [discriminate | exact R].
  - apply (rounds_detach T_video_dom [T_kernel; T_container; T_wrapper; T_video]
             [T_plugin; T_esFullscreen]
             s s'); [discriminate | exact R].
  - apply (rounds_detach T_plugin
             [T_kernel; T_container; T_wrapper; T_video; T_video_dom]
             [T_esFullscreen]
             s s'); [discriminate | exact R].
  - apply (rounds_detach T_esFullscreen
             [T_kernel; T_container; T_wrapper; T_video; T_video_dom; T_plugin]
             []
             s s'); [discriminate | exact R].
Qed.

(* ===================================================================== *)
(** * Teardown returns                                                    *)
(* ===================================================================== *)

Lemma total_ret {A : Type} (a : A) : total (ret a).
Proof. intros s. reflexivity. Qed.

Lemma total_gets {A : Type} (f : State -> A) : total (gets f).
Proof. intros s. reflexivity. Qed.

Lemma total_modify (f : State -> State) : total (modify f).
Proof. intros s. reflexivity. Qed.

Lemma total_bind {A B : Type} (c : M A) (k : A -> M B) :
  total c -> (forall a, total (k a)) -> total (bind c k).
Proof.
  intros Hc Hk s. unfold bind. specialize (Hc s).
  destruct (c s) as [a s1 | e s1]; [apply Hk | discriminate].
Qed.

Lemma total_forEach {A : Type} (l : list A) (f : A -> M unit) :
  (forall x, total (f x)) -> total (forEach l f).
Proof.
  intros Hf. induction l as [| x l IH]; simpl; [apply total_ret |].
  apply total_bind; [apply Hf | intros _; exact IH].
Qed.

Lemma total_removeEvent (e : Node) (k : string) (g : JSVal) : total (removeEvent e k g).
Proof. apply total_modify. Qed.

Lemma total_detachKind (t : binderTarget) : t <> T_kernel -> total (detachKind t).
Proof.
  intros Ht.
  assert (Hdom : total
    (targetDom <- _getTargetDom t ;;
     l <- gets (fun s => pk_get (bindedEventInfo s) t) ;;
     forEach l (fun '(name, g) =>
       removeEvent targetDom name g ;;
       if binderTarget_eqb t T_video_dom then
         nodes <- gets (fun s => videoExtendedNodes (dom s)) ;;
         forEach nodes (fun node => removeEvent node name g)
       else ret tt))%js).
  { apply total_bind; [apply total_gets | intros targetDom].
    apply total_bind; [apply total_gets | intros l].
    apply total_forEach. intros [name g].
    apply total_bind; [apply total_removeEvent | intros _].
    destruct (binderTarget_eqb t T_video_dom); [| apply total_ret].
    apply total_bind; [apply total_gets | intros nodes].
    apply total_forEach. intros node. apply total_removeEvent. }
  destruct t; try exact Hdom. contradiction Ht. reflexivity.
Qed.

Lemma kernel_off_all_returns (l : list (string * JSVal)) (s : State) :
  kernel s <> None ->
  returned (forEach l (fun '(name, fn) => kernel_off name fn) s) = true.
Proof.
  revert s. induction l as [| [name g] l IH]; intros s Hk; [reflexivity |].
  simpl. unfold bind, kernel_off at 1.
  destruct (kernel s) as [ls |] eqn:E; [| contradiction Hk; reflexivity].
  apply IH. simpl. discriminate.
Qed.

Lemma total_forEach_in {A : Type} (l : list A) (f : A -> M unit) :
  (forall x, In x l -> total (f x)) -> total (forEach l f).
Proof.
  induction l as [| x l IH]; intros Hf; simpl; [apply total_ret |].
  apply total_bind; [apply Hf; left; reflexivity | intros _].
  apply IH. intros y Hy. apply Hf. right. exact Hy.
Qed.

(** In a well-formed binder [destroy] returns. *)
Lemma destroy_returns (env : Env) (s : State) :
  wf env s -> returned (destroy s) = true.
Proof.
  intros [Hwt Hker]. rewrite destroy_rounds.
  change kinds with (T_kernel
    :: [T_container; T_wrapper; T_video; T_video_dom; T_plugin; T_esFullscreen]).
  cbn [forEach]. unfold bind at 1. unfold bind at 1.
  assert (Hfirst : returned (detachKind T_kernel s) = true).
  { unfold detachKind, bind, gets.
    destruct (pk_get (bindedEventInfo s) T_kernel) as [| p l] eqn:El; [reflexivity |].
    apply kernel_off_all_returns. apply Hker.
    destruct (Hwt T_kernel) as (Hl & _). rewrite Hl, El. discriminate. }
  destruct (detachKind T_kernel s) as [[] s1 | e s1]; [| discriminate].
  unfold modify at 1.
  match goal with
  | |- returned (?c _) = true => assert (T : total c)
  end.
  { repeat (apply total_bind;
            [apply total_bind;
             [apply total_detachKind; discriminate | intros _; apply total_modify]
            | intros _]).
    apply total_ret. }
  apply T.
Qed.

(* ===================================================================== *)
(** * Emission of a valid request                                         *)
(* ===================================================================== *)

(** A request made of a non-empty name without stage prefix and of a
    non-empty id passes the guard, in closed form. *)
Lemma run_guardedDispatch (env : Env) (k : DispatchKind) (backup : option JSVal)
      (id name : string) (target : option binderTarget) (args : list JSVal) (s : State) :
  name <> EmptyString -> secondaryReg_test name = false -> id <> EmptyString ->
  guardedDispatch env k backup (mkEmit (VStr id) (VStr name) target) args s
  = Return (VBusReturn k)
      (dispatchedOn (i_target (fst (getEventInfo env name target None))) k name args
         (set_log (log s ++ snd (getEventInfo env name target None)) s)).
Proof.
  intros Hn Hs Hi.
  apply String.eqb_neq in Hn. apply String.eqb_neq in Hi.
  unfold guardedDispatch, isEventEmitalbe, bind, Log_error, modify, ret. simpl.
  rewrite Hn, Hs, Hi. simpl.
  unfold checkEventEmitParameter. simpl.
  destruct (getEventInfo env name target None) as [i warned].
  reflexivity.
Qed.

Lemma run_emissionMethod (env : Env) (k : DispatchKind)
      (id name : string) (target : option binderTarget) (args : list JSVal) (s : State) :
  name <> EmptyString -> secondaryReg_test name = false -> id <> EmptyString ->
  emissionMethod env k (mkEmit (VStr id) (VStr name) target) args s
  = Return (VBusReturn k)
      (dispatchedOn (i_target (fst (getEventInfo env name target None))) k name args
         (set_log (log s ++ snd (getEventInfo env name target None)) s)).
Proof.
  intros Hn Hs Hi. destruct k; apply run_guardedDispatch; assumption.
Qed.

Lemma getEventInfo_plain (env : Env) (name : string) (target : option binderTarget)
      (stage : option eventStage) :
  targetKeyReg_test name = false -> name <> "error" -> secondaryReg_test name = false ->
  getEventInfo env name target stage
  = ({| i_name := name;
        i_stage := match stage with Some st => st | None => S_main end;
        i_target := match target with
                    | Some t => t
                    | None => getEventTargetByEventName env name
                    end |}, []).
Proof.
  intros Hk He Hs. unfold getEventInfo.
  rewrite (getEventTargetByOldLogic_plain env name Hk He).
  rewrite (getEventStage_plain env name Hs). reflexivity.
Qed.

(** X1: [emit], [emitSync], [trigger] and [triggerSync], called with a
    non-empty string name that has no stage prefix and a non-empty string
    id, pass the guard and hand exactly one request of their kind, with the
    name and the arguments as given, to the Bus of the resolved target, and
    hand back what that call produces.  The binder itself asks nothing of
    any other Bus and leaves the relay bookkeeping, the pending queues, the
    native listeners and the dom as they were; what the Bus does with the
    request is not the binder's.  The resolved target is the caller's
    target, or the one inferred from the name when none is given, unless
    the name is a legacy name. *)
Theorem valid_emission_dispatches (env : Env) (k : DispatchKind)
      (id name : string) (target : option binderTarget) (args : list JSVal) (s : State) :
  name <> EmptyString -> secondaryReg_test name = false -> id <> EmptyString ->
  let t := i_target (fst (getEventInfo env name target None)) in
  exists s',
    emissionMethod env k (mkEmit (VStr id) (VStr name) target) args s
    = Return (VBusReturn k) s'
    /\ dispatched (pk_get (buses s') t)
       = dispatched (pk_get (buses s) t) ++ [mkDispatch k name args]
    /\ (forall u, u <> t -> pk_get (buses s') u = pk_get (buses s) u)
    /\ bindedEventNames s' = bindedEventNames s
    /\ bindedEventInfo s' = bindedEventInfo s
    /\ pendingEventsInfo s' = pendingEventsInfo s
    /\ kernel s' = kernel s
    /\ domListeners s' = domListeners s
    /\ dom s' = dom s
    /\ (targetKeyReg_test name = false -> name <> "error" ->
        t = match target with
            | Some t0 => t0
            | None => getEventTargetByEventName env name
            end).
Proof.
  intros Hn Hs Hi t.
  eexists. split; [apply run_emissionMethod; assumption |].
  fold t. unfold dispatchedOn. simpl.
  split; [rewrite pk_get_set_same; reflexivity |].
  split; [intros u Hu; apply pk_get_set_other, Hu |].
  repeat match goal with |- _ /\ _ => split; [reflexivity |] end.
  intros Hk He. unfold t. rewrite (getEventInfo_plain env name target None Hk He Hs).
  reflexivity.
Qed.

Lemma valid_emission_dispatches_witness :
  "play" <> EmptyString /\ secondaryReg_test "play" = false /\ "a" <> EmptyString
  /\ exists s',
       emissionMethod sampleEnv D_emit (mkEmit (VStr "a") (VStr "play") None) [VNum 1]
         freshWithKernel
       = Return (VBusReturn D_emit) s'
       /\ dispatched (pk_get (buses s') T_video) = [mkDispatch D_emit "play" [VNum 1]].
Proof.
  split; [discriminate |]. split; [reflexivity |]. split; [discriminate |].
  destruct (valid_emission_dispatches sampleEnv D_emit "a" "play" None [VNum 1]
              freshWithKernel)
    as (s' & R & Hd & _); [discriminate | reflexivity | discriminate |].
  exists s'. split; [exact R | exact Hd].
Defined.

(** The resolver on a name that carries one of the two legacy prefixes. *)
Lemma getEventInfo_legacy (env : Env) (legacy rest : string) (t : binderTarget)
      (target : option binderTarget) (stage : option eventStage) :
  (legacy = ("c_" ++ rest)%string /\ t = T_container) \/ (legacy = ("w_" ++ rest)%string /\ t = T_wrapper) ->
  fst (getEventInfo env legacy target stage)
  = {| i_name := fst (getEventStage env rest);
       i_stage := match stage with
                  | Some st => st
                  | None => snd (getEventStage env rest)
                  end;
       i_target := t |}.
Proof.
  intros [[-> ->] | [-> ->]];
    unfold getEventInfo, getEventTargetByOldLogic, targetKeyReg_strip, targetKeyReg_test;
    simpl; rewrite ?prefix_empty; simpl;
    destruct (getEventStage env rest) as [n st]; reflexivity.
Qed.

Lemma legacy_longer (legacy rest : string) (t : binderTarget) :
  (legacy = ("c_" ++ rest)%string /\ t = T_container) \/ (legacy = ("w_" ++ rest)%string /\ t = T_wrapper) ->
  legacy <> rest /\ legacy <> EmptyString /\ secondaryReg_test legacy = false.
Proof.
  intros [[-> _] | [-> _]]; (split; [| split; [discriminate | reflexivity]]);
    intros E; apply (f_equal String.length) in E; simpl in E; lia.
Qed.

(** X2: a subscription made under a legacy name ("c_" or "w_" followed by
    a name without stage prefix) is stored on the container or wrapper Bus
    under the bare name, while an emission made under the same legacy name
    asks that same Bus for the legacy name as it was given: the target of an
    emission is translated, its name is not. *)
Theorem legacy_name_subscribed_bare_emitted_whole (env : Env) (legacy rest : string)
      (t : binderTarget) (id : string) (fn : JSVal) (target : option binderTarget)
      (stage : option eventStage) (k : DispatchKind) (args : list JSVal) (s : State) :
  (legacy = ("c_" ++ rest)%string /\ t = T_container) \/ (legacy = ("w_" ++ rest)%string /\ t = T_wrapper) ->
  secondaryReg_test rest = false ->
  isFunction fn = true ->
  id <> EmptyString ->
  exists s1 s2,
    on env (mkRaw id fn legacy target stage) s = Return tt s1
    /\ emissionMethod env k (mkEmit (VStr id) (VStr legacy) target) args s1
       = Return (VBusReturn k) s2
    /\ subscribers (pk_get (buses s2) t)
       = subscribers (pk_get (buses s) t)
           ++ [mkSub id rest fn (match stage with Some st => st | None => S_main end) false]
    /\ dispatched (pk_get (buses s2) t)
       = dispatched (pk_get (buses s) t) ++ [mkDispatch k legacy args]
    /\ legacy <> rest.
Proof.
  intros Hl Hs Hf Hi.
  destruct (legacy_longer legacy rest t Hl) as (Hne & Hnn & Hsec).
  pose proof (run_on env (mkRaw id fn legacy target stage) s Hf) as Ron.
  cbv zeta in Ron. unfold getEventInfo_raw in Ron. simpl in Ron.
  rewrite (getEventInfo_legacy env legacy rest t target stage Hl) in Ron.
  rewrite (getEventStage_plain env rest Hs) in Ron. simpl in Ron.
  eexists. eexists. split; [exact Ron |].
  split; [apply run_emissionMethod; assumption |].
  rewrite (getEventInfo_legacy env legacy rest t target None Hl).
  unfold dispatchedOn. simpl. rewrite !pk_get_set_same. simpl.
  destruct (afterAdd_frame env rest t id
              (set_log (log s ++ snd (getEventInfo env legacy target stage)) s))
    as (Eb & _ & _).
  rewrite Eb. simpl. repeat split. exact Hne.
Qed.

Lemma legacy_name_subscribed_bare_emitted_whole_witness :
  exists s1 s2,
    on sampleEnv (mkRaw "a" handlerA "c_click" None None) freshWithKernel = Return tt s1
    /\ emissionMethod sampleEnv D_emit (mkEmit (VStr "a") (VStr "c_click") None) [] s1
       = Return (VBusReturn D_emit) s2
    /\ subscribers (pk_get (buses s2) T_container) = [mkSub "a" "click" handlerA S_main false]
    /\ dispatched (pk_get (buses s2) T_container) = [mkDispatch D_emit "c_click" []].
Proof.
  destruct (legacy_name_subscribed_bare_emitted_whole sampleEnv "c_click" "click"
              T_container "a" handlerA None None D_emit [] freshWithKernel)
    as (s1 & s2 & R1 & R2 & Hsub & Hd & _);
    [left; split; reflexivity | reflexivity | reflexivity | discriminate |].
  exists s1, s2. repeat split; assumption.
Defined.

(* ===================================================================== *)
(** * What a relay does when its source fires                             *)
(* ===================================================================== *)

Lemma getEventInfo_own_target (env : Env) (n : string) (t : binderTarget) :
  targetKeyReg_test n = false -> secondaryReg_test n = false ->
  (n = "error" -> t = T_kernel) ->
  getEventInfo env n (Some t) None
  = ({| i_name := n; i_stage := S_main; i_target := t |}, []).
Proof.
  intros Hk Hs He. destruct (String.eqb_spec n "error") as [E | E].
  - rewrite (He E). subst n. reflexivity.
  - apply getEventInfo_plain; assumption.
Qed.

Lemma set_log_same (s : State) : set_log (log s ++ []) s = s.
Proof. rewrite app_nil_r. destruct s; reflexivity. Qed.

(** X3: the relay closure built for a handled kind and a name that has no
    legacy and no stage prefix (the bare name 'error' going with kernel),
    when its source fires, returns after handing exactly one request to the
    Bus of its own kind, with the same name and the arguments it received:
    a deferred trigger for video, a synchronous trigger for kernel,
    container, wrapper and video-dom.  Nothing else changes, and nothing is
    logged. *)
Theorem relay_forwards_to_its_bus (env : Env) (t : binderTarget) (u : nat) (n : string)
      (args : list JSVal) (s : State) :
  t <> T_plugin -> t <> T_esFullscreen ->
  n <> EmptyString -> secondaryReg_test n = false -> targetKeyReg_test n = false ->
  (n = "error" -> t = T_kernel) ->
  callFn env (relayFor t u n) args s
  = Return (VBusReturn (relayKind t)) (dispatchedOn t (relayKind t) n args s).
Proof.
  intros Hp He Hn Hs Hk Herr.
  assert (R : forall k backup id, id <> EmptyString ->
             guardedDispatch env k backup (mkEmit (VStr id) (VStr n) (Some t)) args s
             = Return (VBusReturn k) (dispatchedOn t k n args s)).
  { intros k backup id Hid.
    rewrite (run_guardedDispatch env k backup id n (Some t) args s Hn Hs Hid).
    rewrite (getEventInfo_own_target env n t Hk Hs Herr). simpl.
    rewrite set_log_same. reflexivity. }
  destruct t; try contradiction; simpl; unfold triggerSync, trigger; apply R; discriminate.
Qed.

Lemma relay_forwards_to_its_bus_witness :
  callFn sampleEnv (relayFor T_video 0 "play") [VNum 1] freshWithKernel
  = Return (VBusReturn D_trigger) (dispatchedOn T_video D_trigger "play" [VNum 1] freshWithKernel).
Proof.
  apply (relay_forwards_to_its_bus sampleEnv T_video 0 "play" [VNum 1] freshWithKernel);
    try discriminate; reflexivity.
Defined.

(* ===================================================================== *)
(** * The pending queue without a media engine                            *)
(* ===================================================================== *)

Lemma pk_set_set {A : Type} (m : perKind A) (t : binderTarget) (v w : A) :
  pk_set (pk_set m t v) t w = pk_set m t w.
Proof. destruct t; reflexivity. Qed.

Lemma set_pendingEventsInfo_same (s : State) :
  set_pendingEventsInfo (pendingEventsInfo s) s = s.
Proof. destruct s; reflexivity. Qed.

Lemma afterAdd_no_engine (env : Env) (n id : string) (s : State) :
  kernel s = None -> pk_get (bindedEventNames s) T_kernel = [] ->
  afterAdd env n T_kernel id s = enqueued T_kernel n id s.
Proof.
  intros Hk Hn. unfold afterAdd. rewrite handled_kernel, Hn, Hk. reflexivity.
Qed.

(** Without a media engine and without kernel relays, replaying entries
    for kernel queues each of them. *)
Lemma replay_no_engine (env : Env) (l : list (string * string)) (s : State) :
  kernel s = None -> pk_get (bindedEventNames s) T_kernel = [] ->
  replay env T_kernel l s
  = set_pendingEventsInfo
      (pk_set (pendingEventsInfo s) T_kernel
              (pk_get (pendingEventsInfo s) T_kernel ++ l)) s.
Proof.
  revert s. induction l as [| [n id] l IH]; intros s Hk Hn.
  - change (replay env T_kernel [] s) with s.
    rewrite app_nil_r, pk_set_get. symmetry. apply set_pendingEventsInfo_same.
  - change (replay env T_kernel ((n, id) :: l) s)
      with (replay env T_kernel l (afterAdd env n T_kernel id s)).
    rewrite (afterAdd_no_engine env n id s Hk Hn).
    rewrite IH by assumption.
    unfold enqueued, set_pendingEventsInfo. cbn [pendingEventsInfo bindedEventNames
      bindedEventInfo buses kernel dom domListeners log nextFn].
    rewrite pk_get_set_same, pk_set_set, <- app_assoc. reflexivity.
Qed.

Lemma wf_no_engine (env : Env) (s : State) :
  wf env s -> kernel s = None -> pk_get (bindedEventNames s) T_kernel = [].
Proof.
  intros [_ Hker] Hk.
  destruct (pk_get (bindedEventNames s) T_kernel) as [| x l]; [reflexivity |].
  exfalso. apply Hker; [discriminate | exact Hk].
Qed.

Lemma flush_no_engine (env : Env) (s : State) :
  kernel s = None -> pk_get (bindedEventNames s) T_kernel = [] ->
  applyPendingEvents env T_kernel s
  = Return tt
      (set_pendingEventsInfo
         (pk_set (pendingEventsInfo s) T_kernel
                 (rev (pk_get (pendingEventsInfo s) T_kernel))) s).
Proof.
  intros Hk Hn. rewrite run_applyPendingEvents.
  rewrite replay_no_engine by assumption.
  unfold cleared, set_pendingEventsInfo. cbn [pendingEventsInfo bindedEventNames
    bindedEventInfo buses kernel dom domListeners log nextFn].
  rewrite pk_get_set_same, pk_set_set. reflexivity.
Qed.

(** X4: in a well-formed binder without a media engine,
    [applyPendingEvents('kernel')] returns, attaches and records nothing,
    and leaves the kernel queue with the same entries in reverse order;
    nothing else changes, so that a second flush restores the state the
    first one started from. *)
Theorem flush_without_engine_requeues (env : Env) (s : State) :
  wf env s -> kernel s = None ->
  applyPendingEvents env T_kernel s
  = Return tt
      (set_pendingEventsInfo
         (pk_set (pendingEventsInfo s) T_kernel
                 (rev (pk_get (pendingEventsInfo s) T_kernel))) s)
  /\ final (applyPendingEvents env T_kernel (final (applyPendingEvents env T_kernel s)))
     = s.
Proof.
  intros Hw Hk. pose proof (wf_no_engine env s Hw Hk) as Hn.
  rewrite (flush_no_engine env s Hk Hn). split; [reflexivity |].
  cbn [final]. rewrite flush_no_engine by assumption.
  cbn [final]. unfold set_pendingEventsInfo. cbn [pendingEventsInfo bindedEventNames
    bindedEventInfo buses kernel dom domListeners log nextFn].
  rewrite pk_get_set_same, pk_set_set, rev_involutive, pk_set_get.
  destruct s; reflexivity.
Qed.

Lemma flush_without_engine_requeues_witness :
  wf sampleEnv (set_kernel None queuedKernel)
  /\ pk_get (pendingEventsInfo
       (final (applyPendingEvents sampleEnv T_kernel (set_kernel None queuedKernel))))
       T_kernel
     = [("mediaInfo", "c"); ("heartbeat", "b"); ("heartbeat", "a")].
Proof.
  assert (Hw : wf sampleEnv (set_kernel None queuedKernel)).
  { apply (wf_bookkeepingOnly sampleEnv (constructor sampleDom None []));
      [reflexivity | reflexivity | intros H; contradiction H; reflexivity
      | apply wf_constructor]. }
  split; [exact Hw |].
  rewrite (proj1 (flush_without_engine_requeues sampleEnv (set_kernel None queuedKernel)
                    Hw eq_refl)).
  reflexivity.
Defined.

Lemma afterAdd_pending_other (env : Env) (n : string) (t u : binderTarget) (id : string)
      (s : State) :
  u <> T_kernel ->
  pk_get (pendingEventsInfo (afterAdd env n t id s)) u = pk_get (pendingEventsInfo s) u.
Proof.
  intros Hu.
  destruct (afterAdd_cases env n t id s)
    as [[E Hc] | [(Hh & Hn & Ht & Hk & E) | [(Hh & Hn & Ht & ls & Hk & E)
                                           | (Hh & Hn & Ht & E)]]]; rewrite E; clear E.
  - reflexivity.
  - subst t. unfold enqueued. cbn [pendingEventsInfo set_pendingEventsInfo].
    apply pk_get_set_other, Hu.
  - reflexivity.
  - reflexivity.
Qed.

Lemma replay_pending_other (env : Env) (t u : binderTarget) (l : list (string * string))
      (s : State) :
  u <> T_kernel ->
  pk_get (pendingEventsInfo (replay env t l s)) u = pk_get (pendingEventsInfo s) u.
Proof.
  intros Hu. revert s. induction l as [| [n id] l IH]; intros s; [reflexivity |].
  change (replay env t ((n, id) :: l) s) with (replay env t l (afterAdd env n t id s)).
  rewrite IH. apply afterAdd_pending_other, Hu.
Qed.

Lemma afterRemove_pending (env : Env) (n : string) (t : binderTarget) (s : State) :
  pendingEventsInfo (afterRemove env n t s) = pendingEventsInfo s.
Proof.
  destruct (afterRemove_cases env n t s) as [[E _] | (_ & _ & _ & _ & E)]; rewrite E.
  - reflexivity.
  - unfold forgotten. simpl. apply unplugged_frame.
Qed.

Lemma guardedDispatch_pending (env : Env) (k : DispatchKind) (backup : option JSVal)
      (info : emitEventInfo) (args : list JSVal) (q : perKind (list (string * string))) :
  invariant (fun s => pendingEventsInfo s = q) (guardedDispatch env k backup info args).
Proof.
  assert (HL : forall msg, invariant (fun s => pendingEventsInfo s = q) (Log_error msg)).
  { intros msg. apply invariant_modify. intros s H. exact H. }
  unfold guardedDispatch. apply invariant_bind.
  - unfold isEventEmitalbe. apply invariant_if.
    + apply invariant_bind; [apply HL | intros _; apply invariant_ret].
    + apply invariant_if; [| apply invariant_ret].
      apply invariant_bind; [apply HL | intros _; apply invariant_ret].
  - intros ok. apply invariant_if; [| apply invariant_ret].
    apply invariant_bind.
    + unfold checkEventEmitParameter. destruct (e_name info); try apply invariant_throw.
      destruct (getEventInfo env s (e_target info) None) as [i warned].
      apply invariant_bind; [| intros _; apply invariant_ret].
      apply invariant_modify. intros x H. exact H.
    + intros info'. destruct (e_target info'); [| apply invariant_throw].
      destruct (e_name info'); try apply invariant_throw.
      apply invariant_bind; [| intros _; apply invariant_ret].
      apply invariant_modify. intros x H. exact H.
Qed.

(** X5: between construction and teardown, only the kernel kind ever has
    pending entries: the queue of every other kind is empty in every
    reachable state. *)
Theorem pending_only_for_kernel (env : Env) (s : State) :
  reachable env s ->
  forall t, t <> T_kernel -> pk_get (pendingEventsInfo s) t = [].
Proof.
  intros Hr.
  induction Hr as [d | d | s Hr IH Hk | s info Hr IH | s info Hr IH | s info Hr IH
                  | s k backup info args Hr IH | s t0 Hr IH]; intros t Ht.
  - destruct t; reflexivity.
  - destruct t; reflexivity.
  - exact (IH t Ht).
  - destruct (isFunction (r_fn info)) eqn:Hf.
    + rewrite (run_on env info s Hf). cbn [final pendingEventsInfo set_buses].
      rewrite afterAdd_pending_other by exact Ht. exact (IH t Ht).
    + unfold on, bind. rewrite (prettifyEventParameter_throws env info s Hf).
      exact (IH t Ht).
  - destruct (isFunction (r_fn info)) eqn:Hf.
    + pose proof (run_off env info s Hf) as R. cbv zeta in R. rewrite R.
      * cbn [final]. rewrite afterRemove_pending. exact (IH t Ht).
      * intros _ Hin. destruct (reachable_inStep env s Hr) as [[_ Hker] _]. apply Hker.
        intros E. rewrite E in Hin. contradiction.
    + unfold off, bind. rewrite (prettifyEventParameter_throws env info s Hf).
      exact (IH t Ht).
  - destruct (isFunction (r_fn info)) eqn:Hf.
    + rewrite (run_once env info s Hf). exact (IH t Ht).
    + unfold once, bind. rewrite (prettifyEventParameter_throws env info s Hf).
      exact (IH t Ht).
  - rewrite (guardedDispatch_pending env k backup info args (pendingEventsInfo s) s eq_refl).
    exact (IH t Ht).
  - rewrite run_applyPendingEvents. cbn [final].
    rewrite replay_pending_other by exact Ht.
    unfold cleared. cbn [pendingEventsInfo set_pendingEventsInfo].
    destruct (binderTarget_eqb_spec t t0) as [-> | Hne].
    + apply pk_get_set_same.
    + rewrite pk_get_set_other by exact Hne. exact (IH t Ht).
Qed.

Lemma pending_only_for_kernel_witness :
  pk_get (pendingEventsInfo
            (final (on sampleEnv (mkRaw "a" handlerA "click" None None) freshNoKernel)))
         T_video_dom = [].
Proof.
  apply (pending_only_for_kernel sampleEnv).
  - apply reach_on. apply reach_new.
  - discriminate.
Defined.

Lemma afterRemove_unbound (env : Env) (n : string) (t : binderTarget) (s : State) :
  ~ In n (pk_get (bindedEventNames s) t) -> afterRemove env n t s = s.
Proof.
  intros Hn.
  destruct (afterRemove_cases env n t s) as [[E _] | (_ & Hin & _)];
    [exact E | contradiction].
Qed.

Lemma replay_frame (env : Env) (t : binderTarget) (l : list (string * string))
      (s : State) :
  buses (replay env t l s) = buses s /\ dom (replay env t l s) = dom s.
Proof.
  revert s. induction l as [| [n id] l IH]; intros s; [split; reflexivity |].
  change (replay env t ((n, id) :: l) s) with (replay env t l (afterAdd env n t id s)).
  destruct (IH (afterAdd env n t id s)) as [Eb Ed].
  destruct (afterAdd_frame env n t id s) as (Eb' & Ed' & _).
  rewrite Eb, Ed. split; assumption.
Qed.

Lemma replay_kernel_names (env : Env) (l : list (string * string)) (s : State) :
  kernel s <> None ->
  pk_get (bindedEventNames (replay env T_kernel l s)) T_kernel
  = fold_left addName (map fst l) (pk_get (bindedEventNames s) T_kernel).
Proof.
  revert s. induction l as [| [n id] l IH]; intros s Hk; [reflexivity |].
  destruct (afterAdd_kernel_present env n id s Hk) as (En & _ & Hk').
  change (replay env T_kernel ((n, id) :: l) s)
    with (replay env T_kernel l (afterAdd env n T_kernel id s)).
  change (map fst ((n, id) :: l)) with (n :: map fst l).
  rewrite (IH _ Hk'), En. reflexivity.
Qed.

Lemma filter_filter_nil {A : Type} (p q : A -> bool) (l : list A) :
  filter p l = [] -> filter p (filter q l) = [].
Proof.
  induction l as [| x l IH]; simpl; [reflexivity |].
  destruct (p x) eqn:Hp; [discriminate |].
  intros H. destruct (q x); simpl; [rewrite Hp |]; apply IH, H.
Qed.

Lemma eventStage_eqb_refl (st : eventStage) : eventStage_eqb st st = true.
Proof. destruct st; reflexivity. Qed.

(** Subscribing and unsubscribing with the same four values leaves a name
    that had no subscriber without subscriber. *)
Lemma events_on_off (b : Bus) (id n : string) (fn : JSVal) (st : eventStage) :
  isFunction fn = true ->
  BusModel.events b n = [] ->
  BusModel.events (BusModel.off (BusModel.on b id n fn st) id n fn st) n = [].
Proof.
  intros Hf He. unfold BusModel.events, BusModel.off, BusModel.on in *. simpl.
  rewrite !filter_app. simpl. unfold sub_matches at 2. simpl.
  rewrite !String.eqb_refl, (same_fn_refl fn Hf), eventStage_eqb_refl. simpl.
  rewrite app_nil_r. apply filter_filter_nil, He.
Qed.

(** X6: unsubscribing does not cancel a queued request.  In a reachable
    binder without a media engine, a kernel subscription queues its name
    and a later [off] with the same descriptor removes the subscriber from
    the Bus but leaves the queue entry; when the engine is attached and the
    queue is flushed, the name is bound and has one native listener on the
    engine although its Bus has no subscriber for it. *)
Theorem unsubscribe_keeps_queued_request (env : Env) (info : rawEventInfo) (s : State) :
  reachable env s ->
  kernel s = None ->
  isFunction (r_fn info) = true ->
  i_target (fst (getEventInfo_raw env info)) = T_kernel ->
  BusModel.events (pk_get (buses s) T_kernel) (i_name (fst (getEventInfo_raw env info)))
  = [] ->
  let n := i_name (fst (getEventInfo_raw env info)) in
  let s2 := final (off env info (final (on env info s))) in
  let s4 := final (applyPendingEvents env T_kernel (set_kernel (Some []) s2)) in
  pk_get (pendingEventsInfo s2) T_kernel
  = pk_get (pendingEventsInfo s) T_kernel ++ [(n, r_id info)]
  /\ BusModel.events (pk_get (buses s2) T_kernel) n = []
  /\ BusModel.events (pk_get (buses s4) T_kernel) n = []
  /\ In n (pk_get (bindedEventNames s4) T_kernel)
  /\ List.length (attachedOn s4 T_kernel n OnKernel) = 1.
Proof.
  intros Hr Hk Hf Ht He n s2 s4.
  destruct (reachable_inStep env s Hr) as [Hw _].
  pose proof (wf_no_engine env s Hw Hk) as Hn.
  (* the state after on *)
  pose proof (run_on env info s Hf) as Ron. cbv zeta in Ron.
  rewrite Ht in Ron. fold n in Ron.
  rewrite (afterAdd_no_engine env n (r_id info)
             (set_log (log s ++ snd (getEventInfo_raw env info)) s) Hk Hn) in Ron.
  set (s1 := final (on env info s)) in *.
  assert (E1 : s1 = set_buses _ _) by (unfold s1; rewrite Ron; reflexivity).
  clear Ron.
  assert (Hk1 : kernel s1 = None) by (rewrite E1; exact Hk).
  assert (Hn1 : pk_get (bindedEventNames s1) T_kernel = []) by (rewrite E1; exact Hn).
  (* the state after off *)
  pose proof (run_off env info s1 Hf) as Roff. cbv zeta in Roff.
  rewrite Ht in Roff. fold n in Roff.
  rewrite afterRemove_unbound in Roff.
  2: { cbn [bindedEventNames set_buses set_log]. rewrite Hn1. intros []. }
  assert (Hpre : T_kernel = T_kernel ->
                 In n (pk_get (bindedEventNames s1) T_kernel) -> kernel s1 <> None).
  { intros _ Hin. rewrite Hn1 in Hin. contradiction. }
  specialize (Roff Hpre).
  assert (E2 : s2 = set_buses _ _) by (unfold s2; rewrite Roff; reflexivity).
  clear Roff Hpre.
  assert (Hk2 : kernel s2 = None) by (rewrite E2; exact Hk1).
  assert (Hp2 : pk_get (pendingEventsInfo s2) T_kernel
                = pk_get (pendingEventsInfo s) T_kernel ++ [(n, r_id info)]).
  { rewrite E2. cbn [pendingEventsInfo set_buses set_log]. rewrite E1.
    unfold enqueued. cbn [pendingEventsInfo set_buses set_log set_pendingEventsInfo].
    apply pk_get_set_same. }
  assert (Hb2 : BusModel.events (pk_get (buses s2) T_kernel) n = []).
  { rewrite E2. cbn [buses set_buses set_log]. rewrite pk_get_set_same.
    rewrite E1. cbn [buses set_buses]. rewrite pk_get_set_same.
    apply events_on_off; assumption. }
  (* the engine arrives and the queue is flushed *)
  assert (Hr4 : reachable env s4).
  { unfold s4, s2, s1. apply reach_flush, reach_engine; [| exact Hk2].
    apply reach_off, reach_on, Hr. }
  assert (Hin : In n (pk_get (bindedEventNames s4) T_kernel)).
  { unfold s4. rewrite run_applyPendingEvents. cbn [final].
    rewrite replay_kernel_names by (cbn; discriminate).
    apply fold_addName_In. right.
    cbn [pendingEventsInfo set_kernel]. rewrite Hp2, rev_app_distr. left. reflexivity. }
  split; [exact Hp2 |]. split; [exact Hb2 |]. split; [| split; [exact Hin |]].
  - unfold s4. rewrite run_applyPendingEvents. cbn [final].
    rewrite (proj1 (replay_frame env T_kernel _ _)). exact Hb2.
  - destruct (reachable_inStep env s4 Hr4) as [Hw4 Hs4].
    destruct (synced_consistent env s4 Hw4 Hs4 T_kernel n) as [Hc _].
    apply Hc; [exact Hin | left; reflexivity].
Qed.

Lemma unsubscribe_keeps_queued_request_witness :
  BusModel.events
    (pk_get (buses
       (final (applyPendingEvents sampleEnv T_kernel
          (set_kernel (Some [])
             (final (off sampleEnv (mkRaw "a" handlerA "heartbeat" None None)
                (final (on sampleEnv (mkRaw "a" handlerA "heartbeat" None None)
                          freshNoKernel)))))))) T_kernel) "heartbeat" = []
  /\ In "heartbeat"
       (pk_get (bindedEventNames
          (final (applyPendingEvents sampleEnv T_kernel
             (set_kernel (Some [])
                (final (off sampleEnv (mkRaw "a" handlerA "heartbeat" None None)
                   (final (on sampleEnv (mkRaw "a" handlerA "heartbeat" None None)
                             freshNoKernel)))))))) T_kernel).
Proof.
  destruct (unsubscribe_keeps_queued_request sampleEnv
              (mkRaw "a" handlerA "heartbeat" None None) freshNoKernel
              (reach_new sampleEnv sampleDom) eq_refl eq_refl eq_refl eq_refl)
    as (_ & _ & Hb & Hin & _).
  split; [exact Hb | exact Hin].
Defined.

(* ===================================================================== *)
(** * Replaying the recorded relays on another node                       *)
(* ===================================================================== *)

Lemma run_rebind_add (env : Env) (node : Node) (l : list (string * JSVal)) (s : State) :
  (forall n fn, In (n, fn) l -> isFunction fn = true) ->
  forEach l (fun '(name, fn) => _addEventOnDom env node name fn) s
  = Return tt (set_domListeners (attachEntries env node l (domListeners s)) s).
Proof.
  revert s. induction l as [| [n fn] l IH]; intros s H.
  - simpl. rewrite set_domListeners_same. reflexivity.
  - cbn [forEach]. unfold bind.
    rewrite (run_addEventOnDom env node n fn s (H n fn (or_introl eq_refl))).
    rewrite IH by (intros n' fn' Hin; apply (H n' fn'); right; exact Hin).
    reflexivity.
Qed.

Lemma run_rebind_remove (node : Node) (l : list (string * JSVal)) (s : State) :
  forEach l (fun '(name, fn) => removeEvent node name fn) s
  = Return tt (set_domListeners (detachEntries node l (domListeners s)) s).
Proof.
  revert s. induction l as [| [n fn] l IH]; intros s.
  - simpl. rewrite set_domListeners_same. reflexivity.
  - cbn [forEach]. unfold bind, removeEvent at 1, modify. rewrite IH. reflexivity.
Qed.

Lemma run_bindEventOnPenetrateNode (env : Env) (node : Node) (remove : bool) (s : State) :
  (remove = false -> forall n fn, In (n, fn) (penetrateEntries s) -> isFunction fn = true) ->
  bindEventOnPenetrateNode env node remove s
  = Return tt
      (set_domListeners
         (if remove then detachEntries node (penetrateEntries s) (domListeners s)
          else attachEntries env node (penetrateEntries s) (domListeners s)) s).
Proof.
  intros H. unfold bindEventOnPenetrateNode, bind, gets. destruct remove.
  - apply run_rebind_remove.
  - apply run_rebind_add, H. reflexivity.
Qed.

Lemma run_bindEventOnVideo (env : Env) (node : Node) (remove : bool) (s : State) :
  (remove = false -> forall n fn, In (n, fn) (videoEntries s) -> isFunction fn = true) ->
  bindEventOnVideo env node remove s
  = Return tt
      (set_domListeners
         (if remove then detachEntries node (videoEntries s) (domListeners s)
          else attachEntries env node (videoEntries s) (domListeners s)) s).
Proof.
  intros H. unfold bindEventOnVideo, bind, gets. destruct remove.
  - apply run_rebind_remove.
  - apply run_rebind_add, H. reflexivity.
Qed.

Lemma wf_penetrateEntries (env : Env) (s : State) :
  wf env s -> forall n fn, In (n, fn) (penetrateEntries s) -> isFunction fn = true.
Proof. intros [Hwt _] n fn. destruct (Hwt T_video_dom) as (_ & _ & Hf & _). apply Hf. Qed.

Lemma wf_videoEntries (env : Env) (s : State) :
  wf env s -> forall n fn, In (n, fn) (videoEntries s) -> isFunction fn = true.
Proof.
  intros [Hwt _] n fn Hin. apply in_app_or in Hin. destruct Hin as [Hin | Hin].
  - destruct (Hwt T_video_dom) as (_ & _ & Hf & _). exact (Hf n fn Hin).
  - destruct (Hwt T_video) as (_ & _ & Hf & _). exact (Hf n fn Hin).
Qed.

Lemma elsewhere_attach (env : Env) (node : Node) (key : string) (fn : JSVal)
      (ls : list DomListener) :
  elsewhere node (attach env node key fn ls) = elsewhere node ls.
Proof.
  unfold attach, elsewhere.
  destruct (existsb (same_listener node key fn) ls); [reflexivity |].
  rewrite filter_app. simpl. rewrite Nat.eqb_refl. simpl. apply app_nil_r.
Qed.






Lemma same_listener_entry (env : Env) (node : Node) (n : string) (fn : JSVal) (p : bool) :
  isFunction fn = true -> same_listener node n fn (mkListener node n fn p) = true.
Proof.
  intros H. unfold same_listener. simpl.
  rewrite Nat.eqb_refl, String.eqb_refl, (same_fn_refl fn H). reflexivity.
Qed.

Lemma attach_registered (env : Env) (node : Node) (n : string) (fn : JSVal)
      (ls : list DomListener) :
  isFunction fn = true ->
  existsb (same_listener node n fn) (attach env node n fn ls) = true.
Proof.
  intros H. unfold attach.
  destruct (existsb (same_listener node n fn) ls) eqn:E; [exact E |].
  rewrite existsb_app. simpl. rewrite (same_listener_entry env node n fn _ H).
  apply orb_true_r.
Qed.

Lemma attach_mono (env : Env) (node : Node) (n : string) (fn : JSVal)
      (q : DomListener -> bool) (ls : list DomListener) :
  existsb q ls = true -> existsb q (attach env node n fn ls) = true.
Proof.
  intros H. unfold attach.
  destruct (existsb (same_listener node n fn) ls); [exact H |].
  rewrite existsb_app, H. reflexivity.
Qed.

Lemma attachEntries_mono (env : Env) (node : Node) (l : list (string * JSVal))
      (q : DomListener -> bool) (ls : list DomListener) :
  existsb q ls = true -> existsb q (attachEntries env node l ls) = true.
Proof.
  revert ls. induction l as [| p l IH]; intros ls H; [exact H |].
  change (attachEntries env node (p :: l) ls)
    with (attachEntries env node l (attach env node (fst p) (snd p) ls)).
  apply IH, attach_mono, H.
Qed.

Lemma attachEntries_registered (env : Env) (node : Node) (l : list (string * JSVal))
      (ls : list DomListener) (n : string) (fn : JSVal) :
  isFunction fn = true -> In (n, fn) l ->
  existsb (same_listener node n fn) (attachEntries env node l ls) = true.
Proof.
  intros Hf. revert ls. induction l as [| p l IH]; intros ls Hin; [contradiction |].
  change (attachEntries env node (p :: l) ls)
    with (attachEntries env node l (attach env node (fst p) (snd p) ls)).
  destruct Hin as [-> | Hin].
  - apply attachEntries_mono. simpl. apply attach_registered, Hf.
  - apply IH, Hin.
Qed.

Lemma detach_antitone (node : Node) (n : string) (fn : JSVal)
      (q : DomListener -> bool) (ls : list DomListener) :
  existsb q ls = false -> existsb q (detach node n fn ls) = false.
Proof.
  unfold detach. induction ls as [| x ls IH]; simpl; [reflexivity |].
  intros H. apply orb_false_iff in H. destruct H as [Hx Hl].
  destruct (negb (same_listener node n fn x)); simpl; [rewrite Hx |]; apply IH, Hl.
Qed.

Lemma detachEntries_antitone (node : Node) (l : list (string * JSVal))
      (q : DomListener -> bool) (ls : list DomListener) :
  existsb q ls = false -> existsb q (detachEntries node l ls) = false.
Proof.
  revert ls. induction l as [| p l IH]; intros ls H; [exact H |].
  change (detachEntries node (p :: l) ls)
    with (detachEntries node l (detach node (fst p) (snd p) ls)).
  apply IH, detach_antitone, H.
Qed.

Lemma detachEntries_unregistered (node : Node) (l : list (string * JSVal))
      (ls : list DomListener) (n : string) (fn : JSVal) :
  In (n, fn) l ->
  existsb (same_listener node n fn) (detachEntries node l ls) = false.
Proof.
  revert ls. induction l as [| p l IH]; intros ls Hin; [contradiction |].
  change (detachEntries node (p :: l) ls)
    with (detachEntries node l (detach node (fst p) (snd p) ls)).
  destruct Hin as [-> | Hin].
  - apply detachEntries_antitone. simpl. unfold detach. apply existsb_filter_negb.
  - apply IH, Hin.
Qed.

(** X8: in a well-formed binder, after [bindEventOnPenetrateNode(node)]
    every relay recorded for video-dom is registered on [node] under its
    name, and after [bindEventOnVideo(node)] so is every relay recorded for
    video-dom or for video; with [remove] set, none of them is registered
    on [node] afterwards. *)
Theorem rebinding_covers_recorded_relays (env : Env) (node : Node) (s : State) :
  wf env s ->
  (forall n fn, In (n, fn) (pk_get (bindedEventInfo s) T_video_dom) ->
     registeredOn (final (bindEventOnPenetrateNode env node false s)) (OnNode node) n fn
     = true
     /\ registeredOn (final (bindEventOnPenetrateNode env node true s)) (OnNode node) n fn
        = false)
  /\ (forall t n fn, t = T_video_dom \/ t = T_video ->
       In (n, fn) (pk_get (bindedEventInfo s) t) ->
       registeredOn (final (bindEventOnVideo env node false s)) (OnNode node) n fn = true
       /\ registeredOn (final (bindEventOnVideo env node true s)) (OnNode node) n fn
          = false).
Proof.
  intros Hw. split.
  - intros n fn Hin.
    rewrite !run_bindEventOnPenetrateNode
      by (intros _; apply (wf_penetrateEntries env s Hw)).
    unfold registeredOn. cbn [final domListeners set_domListeners]. split.
    + apply attachEntries_registered; [| exact Hin].
      apply (wf_penetrateEntries env s Hw n fn Hin).
    + apply detachEntries_unregistered, Hin.
  - intros t n fn Ht Hin.
    assert (Hin' : In (n, fn) (videoEntries s)).
    { unfold videoEntries. apply in_or_app.
      destruct Ht as [-> | ->]; [left | right]; exact Hin. }
    rewrite !run_bindEventOnVideo by (intros _; apply (wf_videoEntries env s Hw)).
    unfold registeredOn. cbn [final domListeners set_domListeners]. split.
    + apply attachEntries_registered; [| exact Hin'].
      apply (wf_videoEntries env s Hw n fn Hin').
    + apply detachEntries_unregistered, Hin'.
Qed.

Lemma wf_clickOnVideo : wf sampleEnv clickOnVideo.
Proof. apply wf_on; [reflexivity | apply wf_constructor]. Qed.

Lemma rebinding_covers_recorded_relays_witness :
  wf sampleEnv clickOnVideo
  /\ registeredOn (final (bindEventOnPenetrateNode sampleEnv 7 false clickOnVideo))
       (OnNode 7) "click" (relayFor T_video_dom 0 "click") = true.
Proof.
  split; [exact wf_clickOnVideo |].
  apply (proj1 (rebinding_covers_recorded_relays sampleEnv 7 clickOnVideo wf_clickOnVideo)).
  left. reflexivity.
Defined.

Lemma attachEntries_present (env : Env) (node : Node) (l : list (string * JSVal))
      (ls : list DomListener) :
  (forall n fn, In (n, fn) l -> existsb (same_listener node n fn) ls = true) ->
  attachEntries env node l ls = ls.
Proof.
  induction l as [| [n fn] l IH]; intros H; [reflexivity |].
  change (attachEntries env node ((n, fn) :: l) ls)
    with (attachEntries env node l (attach env node n fn ls)).
  unfold attach at 1. rewrite (H n fn (or_introl eq_refl)).
  apply IH. intros n' fn' Hin. apply H. right. exact Hin.
Qed.

Lemma filter_filter {A : Type} (p q : A -> bool) (l : list A) :
  filter p (filter q l) = filter (fun x => q x && p x) l.
Proof.
  induction l as [| x l IH]; simpl; [reflexivity |].
  destruct (q x); simpl; [destruct (p x) |]; rewrite IH; reflexivity.
Qed.

(** Removing every entry keeps the listeners that match none of them. *)
Lemma detachEntries_filter (node : Node) (l : list (string * JSVal))
      (ls : list DomListener) :
  detachEntries node l ls
  = filter (fun x => negb (existsb (fun p => same_listener node (fst p) (snd p) x) l)) ls.
Proof.
  revert ls. induction l as [| p l IH]; intros ls.
  - simpl. induction ls as [| x ls IHl]; simpl; [| rewrite <- IHl]; reflexivity.
  - change (detachEntries node (p :: l) ls)
      with (detachEntries node l (detach node (fst p) (snd p) ls)).
    rewrite IH. unfold detach. rewrite filter_filter.
    apply filter_ext. intros x. simpl. rewrite negb_orb. reflexivity.
Qed.

(** Attaching appends listeners of [node] that each belong to an entry. *)
Lemma attachEntries_appends (env : Env) (node : Node) (l : list (string * JSVal))
      (ls : list DomListener) :
  exists added,
    attachEntries env node l ls = ls ++ added
    /\ forall x, In x added ->
         exists n fn p, In (n, fn) l /\ x = mkListener node n fn p.
Proof.
  revert ls. induction l as [| [n fn] l IH]; intros ls.
  - exists []. split; [symmetry; apply app_nil_r | intros x []].
  - change (attachEntries env node ((n, fn) :: l) ls)
      with (attachEntries env node l (attach env node n fn ls)).
    destruct (IH (attach env node n fn ls)) as (added & E & H). rewrite E.
    unfold attach. destruct (existsb (same_listener node n fn) ls).
    + exists added. split; [reflexivity |].
      intros x Hx. destruct (H x Hx) as (n' & fn' & p & Hin & ->).
      exists n', fn', p. split; [right; exact Hin | reflexivity].
    + eexists. split; [rewrite <- app_assoc; reflexivity |].
      intros x [<- | Hx].
      * eexists n, fn, _. split; [left; reflexivity | reflexivity].
      * destruct (H x Hx) as (n' & fn' & p & Hin & ->).
        exists n', fn', p. split; [right; exact Hin | reflexivity].
Qed.

Lemma filter_all {A : Type} (p : A -> bool) (l : list A) :
  (forall x, In x l -> p x = true) -> filter p l = l.
Proof.
  induction l as [| x l IH]; intros H; simpl; [reflexivity |].
  rewrite (H x (or_introl eq_refl)), IH; [reflexivity |].
  intros y Hy. apply H. right. exact Hy.
Qed.

Lemma filter_none {A : Type} (p : A -> bool) (l : list A) :
  (forall x, In x l -> p x = false) -> filter p l = [].
Proof.
  induction l as [| x l IH]; intros H; simpl; [reflexivity |].
  rewrite (H x (or_introl eq_refl)). apply IH.
  intros y Hy. apply H. right. exact Hy.
Qed.

Lemma detach_attach_entries (env : Env) (node : Node) (l : list (string * JSVal))
      (ls : list DomListener) :
  (forall n fn, In (n, fn) l -> isFunction fn = true) ->
  (forall n fn, In (n, fn) l -> existsb (same_listener node n fn) ls = false) ->
  detachEntries node l (attachEntries env node l ls) = ls.
Proof.
  intros Hf Hno.
  destruct (attachEntries_appends env node l ls) as (added & -> & Hadd).
  rewrite detachEntries_filter, filter_app.
  rewrite filter_all, filter_none; [apply app_nil_r | |].
  - intros x Hx. destruct (Hadd x Hx) as (n & fn & p & Hin & ->).
    apply negb_false_iff, existsb_exists. exists (n, fn). split; [exact Hin |].
    apply (same_listener_entry env), (Hf n fn Hin).
  - intros x Hx. apply negb_true_iff.
    destruct (existsb (fun p => same_listener node (fst p) (snd p) x) l) eqn:E;
      [| reflexivity].
    apply existsb_exists in E. destruct E as ([n fn] & Hin & Hm). simpl in Hm.
    assert (Hex : existsb (same_listener node n fn) ls = true).
    { apply existsb_exists. exists x. split; assumption. }
    rewrite (Hno n fn Hin) in Hex. discriminate.
Qed.

(** X9: in a well-formed binder, replaying the recorded relays on a node a
    second time changes nothing, and replaying them on a node that carries
    none of them and then removing them again restores the state exactly;
    this holds for [bindEventOnPenetrateNode] and for [bindEventOnVideo]. *)
Theorem rebinding_round_trip (env : Env) (node : Node) (s : State) :
  wf env s ->
  forall op, In op [bindEventOnPenetrateNode env node; bindEventOnVideo env node] ->
  final (op false (final (op false s))) = final (op false s)
  /\ ((forall t n fn, In (n, fn) (pk_get (bindedEventInfo s) t) ->
         registeredOn s (OnNode node) n fn = false) ->
      final (op true (final (op false s))) = s).
Proof.
  intros Hw op [<- | [<- | []]].
  - pose proof (wf_penetrateEntries env s Hw) as Hf.
    rewrite (run_bindEventOnPenetrateNode env node false s (fun _ => Hf)).
    cbn [final]. split.
    + rewrite run_bindEventOnPenetrateNode by (intros _; exact Hf).
      cbn [final domListeners set_domListeners].
      change (penetrateEntries (set_domListeners _ s)) with (penetrateEntries s).
      rewrite attachEntries_present; [reflexivity |].
      intros n fn Hin. apply attachEntries_registered; [exact (Hf n fn Hin) | exact Hin].
    + intros Hno. rewrite run_bindEventOnPenetrateNode by discriminate.
      cbn [final domListeners set_domListeners].
      change (penetrateEntries (set_domListeners _ s)) with (penetrateEntries s).
      rewrite detach_attach_entries; [destruct s; reflexivity | exact Hf |].
      intros n fn Hin. exact (Hno T_video_dom n fn Hin).
  - pose proof (wf_videoEntries env s Hw) as Hf.
    rewrite (run_bindEventOnVideo env node false s (fun _ => Hf)).
    cbn [final]. split.
    + rewrite run_bindEventOnVideo by (intros _; exact Hf).
      cbn [final domListeners set_domListeners].
      change (videoEntries (set_domListeners _ s)) with (videoEntries s).
      rewrite attachEntries_present; [reflexivity |].
      intros n fn Hin. apply attachEntries_registered; [exact (Hf n fn Hin) | exact Hin].
    + intros Hno. rewrite run_bindEventOnVideo by discriminate.
      cbn [final domListeners set_domListeners].
      change (videoEntries (set_domListeners _ s)) with (videoEntries s).
      rewrite detach_attach_entries; [destruct s; reflexivity | exact Hf |].
      intros n fn Hin. unfold videoEntries in Hin. apply in_app_or in Hin.
      destruct Hin as [Hin | Hin];
        [exact (Hno T_video_dom n fn Hin) | exact (Hno T_video n fn Hin)].
Qed.

Lemma rebinding_round_trip_witness :
  wf sampleEnv clickOnVideo
  /\ final (bindEventOnPenetrateNode sampleEnv 7 true
              (final (bindEventOnPenetrateNode sampleEnv 7 false clickOnVideo)))
     = clickOnVideo.
Proof.
  split; [exact wf_clickOnVideo |].
  apply (proj2 (rebinding_round_trip sampleEnv 7 clickOnVideo wf_clickOnVideo
                  (bindEventOnPenetrateNode sampleEnv 7) (or_introl eq_refl))).
  intros t n fn Hin.
  destruct t; simpl in Hin; try contradiction.
  destruct Hin as [E | []]. inversion E. reflexivity.
Defined.

(* ===================================================================== *)
(** * Switching the media engine                                          *)
(* ===================================================================== *)

Lemma migrateKernelEvent_fold (oldKernel newKernel : KernelRef) (s : State)
      (h : KernelStore) :
  migrateKernelEvent oldKernel newKernel s h
  = fold_left (migrateEntry oldKernel newKernel) (pk_get (bindedEventInfo s) T_kernel) h.
Proof.
  unfold migrateKernelEvent. generalize (pk_get (bindedEventInfo s) T_kernel) as l.
  intros l. revert h. induction l as [| [n fn] l IH]; intros h; [reflexivity |].
  simpl. apply IH.
Qed.

Lemma same_kernel_listener_eq (n : string) (fn : JSVal) (x : string * JSVal) :
  same_kernel_listener n fn x = true -> x = (n, fn).
Proof.
  unfold same_kernel_listener. intros H. apply andb_true_iff in H.
  destruct H as [Hn Hf]. apply String.eqb_eq in Hn. apply same_fn_eq in Hf.
  destruct x as [a b]. simpl in *. subst. reflexivity.
Qed.

Lemma same_kernel_listener_refl (n : string) (fn : JSVal) :
  isFunction fn = true -> same_kernel_listener n fn (n, fn) = true.
Proof.
  intros H. unfold same_kernel_listener. simpl.
  rewrite String.eqb_refl, (same_fn_refl fn H). reflexivity.
Qed.

Lemma migrateEntry_elsewhere (oldKernel newKernel : KernelRef) (h : KernelStore)
      (p : string * JSVal) (r : KernelRef) :
  r <> oldKernel -> r <> newKernel -> migrateEntry oldKernel newKernel h p r = h r.
Proof.
  intros Ho Hn. unfold migrateEntry, engine_on, engine_off, store_set.
  apply Nat.eqb_neq in Ho. apply Nat.eqb_neq in Hn. rewrite Hn, Ho. reflexivity.
Qed.

Lemma migrateEntry_new (oldKernel newKernel : KernelRef) (h : KernelStore)
      (p x : string * JSVal) :
  In x (migrateEntry oldKernel newKernel h p newKernel)
  <-> x = p
      \/ (In x (h newKernel)
          /\ (newKernel = oldKernel -> same_kernel_listener (fst p) (snd p) x = false)).
Proof.
  destruct p as [n fn].
  unfold migrateEntry, engine_on, engine_off, store_set. rewrite Nat.eqb_refl.
  rewrite in_app_iff. cbn [fst snd In].
  destruct (Nat.eqb_spec newKernel oldKernel) as [E | E].
  - rewrite filter_In, negb_true_iff, E. split.
    + intros [[H1 H2] | [H | []]];
        [right; split; [exact H1 | intros _; exact H2] | left; symmetry; exact H].
    + intros [-> | [H1 H2]];
        [right; left; reflexivity | left; split; [exact H1 | apply H2; reflexivity]].
  - split.
    + intros [H | [H | []]];
        [right; split; [exact H | intros C; contradiction] | left; symmetry; exact H].
    + intros [-> | [H1 _]]; [right; left; reflexivity | left; exact H1].
Qed.

Lemma migrateEntry_old (oldKernel newKernel : KernelRef) (h : KernelStore)
      (p x : string * JSVal) :
  oldKernel <> newKernel ->
  (In x (migrateEntry oldKernel newKernel h p oldKernel)
   <-> In x (h oldKernel) /\ same_kernel_listener (fst p) (snd p) x = false).
Proof.
  intros Hne. unfold migrateEntry, engine_on, engine_off, store_set.
  apply Nat.eqb_neq in Hne. rewrite Hne, Nat.eqb_refl.
  rewrite filter_In, negb_true_iff. reflexivity.
Qed.

Lemma same_kernel_listener_other (p x : string * JSVal) :
  x <> p -> same_kernel_listener (fst p) (snd p) x = false.
Proof.
  intros Hne. destruct (same_kernel_listener (fst p) (snd p) x) eqn:E; [| reflexivity].
  apply same_kernel_listener_eq in E. exfalso. apply Hne. rewrite E.
  destruct p; reflexivity.
Qed.

Lemma migrateEntry_new_mono (oldKernel newKernel : KernelRef) (h : KernelStore)
      (p x : string * JSVal) :
  In x (h newKernel) -> In x (migrateEntry oldKernel newKernel h p newKernel).
Proof.
  intros H. apply migrateEntry_new.
  destruct (same_kernel_listener (fst p) (snd p) x) eqn:E.
  - left. apply same_kernel_listener_eq in E. rewrite E. destruct p; reflexivity.
  - right. split; [exact H | intros _; reflexivity].
Qed.

Lemma migrate_fold (oldKernel newKernel : KernelRef) (l : list (string * JSVal)) :
  forall h,
    (forall x, In x l ->
       In x (fold_left (migrateEntry oldKernel newKernel) l h newKernel))
    /\ (forall x, In x (h newKernel) ->
          In x (fold_left (migrateEntry oldKernel newKernel) l h newKernel))
    /\ (oldKernel <> newKernel -> forall x, In x l -> isFunction (snd x) = true ->
          ~ In x (fold_left (migrateEntry oldKernel newKernel) l h oldKernel))
    /\ (oldKernel <> newKernel -> forall x,
          In x (fold_left (migrateEntry oldKernel newKernel) l h oldKernel) ->
          In x (h oldKernel))
    /\ (forall r, r <> oldKernel -> r <> newKernel ->
          fold_left (migrateEntry oldKernel newKernel) l h r = h r)
    /\ (forall x, ~ In x l ->
          (In x (fold_left (migrateEntry oldKernel newKernel) l h newKernel) ->
           In x (h newKernel))
          /\ (oldKernel <> newKernel -> In x (h oldKernel) ->
              In x (fold_left (migrateEntry oldKernel newKernel) l h oldKernel))).
Proof.
  induction l as [| p l IH]; intros h.
  - simpl. repeat split; try (intros; assumption); try (intros; contradiction).
  - cbn [fold_left].
    destruct (IH (migrateEntry oldKernel newKernel h p))
      as (Ia & Ib & Ic & Id & Ie & If'). clear IH.
    split; [| split; [| split; [| split; [| split]]]].
    + intros x [<- | Hx]; [| apply Ia, Hx].
      apply Ib, migrateEntry_new. left. reflexivity.
    + intros x Hx. apply Ib, migrateEntry_new_mono, Hx.
    + intros Hne x [<- | Hx] Hf; [| exact (Ic Hne x Hx Hf)].
      intros Hin. apply (Id Hne) in Hin.
      apply (migrateEntry_old oldKernel newKernel h p p Hne) in Hin.
      destruct Hin as [_ Hs]. destruct p as [n fn]. simpl in *.
      rewrite (same_kernel_listener_refl n fn Hf) in Hs. discriminate.
    + intros Hne x Hin. apply (Id Hne) in Hin.
      apply (migrateEntry_old oldKernel newKernel h p x Hne) in Hin. apply Hin.
    + intros r Ho Hn. rewrite (Ie r Ho Hn). apply migrateEntry_elsewhere; assumption.
    + intros x Hx.
      assert (Hp : x <> p) by (intros ->; apply Hx; left; reflexivity).
      assert (Hl : ~ In x l) by (intros H; apply Hx; right; exact H).
      destruct (If' x Hl) as [F1 F2]. split.
      * intros Hin. apply F1 in Hin. apply migrateEntry_new in Hin.
        destruct Hin as [-> | [Hin _]]; [contradiction Hp; reflexivity | exact Hin].
      * intros Hne Hin. apply (F2 Hne).
        apply (migrateEntry_old oldKernel newKernel h p x Hne).
        split; [exact Hin | apply same_kernel_listener_other, Hp].
Qed.

(** X10: [migrateKernelEvent(oldKernel, newKernel)], in a well-formed
    binder, leaves every recorded kernel relay registered on the new engine
    and, when the two engines are different objects, none of them on the old
    one; a listener that is no recorded relay stays where it was, a third
    engine is untouched, and the binder's own state is only read. *)
Theorem migrateKernelEvent_moves_relays (env : Env) (oldKernel newKernel : KernelRef)
      (s : State) (h : KernelStore) :
  wf env s ->
  let recorded := pk_get (bindedEventInfo s) T_kernel in
  let h' := migrateKernelEvent oldKernel newKernel s h in
  (forall n fn, In (n, fn) recorded -> In (n, fn) (h' newKernel))
  /\ (oldKernel <> newKernel ->
      forall n fn, In (n, fn) recorded -> ~ In (n, fn) (h' oldKernel))
  /\ (forall x, ~ In x recorded ->
        (In x (h' newKernel) <-> In x (h newKernel))
        /\ (oldKernel <> newKernel -> (In x (h' oldKernel) <-> In x (h oldKernel))))
  /\ (forall r, r <> oldKernel -> r <> newKernel -> h' r = h r).
Proof.
  intros Hw recorded h'. unfold h'. rewrite migrateKernelEvent_fold. fold recorded.
  destruct (migrate_fold oldKernel newKernel recorded h) as (Ia & Ib & Ic & Id & Ie & If').
  split; [| split; [| split]].
  - intros n fn Hin. apply Ia, Hin.
  - intros Hne n fn Hin. apply (Ic Hne (n, fn) Hin). simpl.
    destruct Hw as [Hwt _]. destruct (Hwt T_kernel) as (_ & _ & Hf & _).
    exact (Hf n fn Hin).
  - intros x Hx. destruct (If' x Hx) as [F1 F2]. split.
    + split; [exact F1 | apply Ib].
    + intros Hne. split; [apply (Id Hne) | apply (F2 Hne)].
  - exact Ie.
Qed.

Lemma migrateKernelEvent_moves_relays_witness :
  wf sampleEnv boundHeartbeat
  /\ migrateKernelEvent 0 1 boundHeartbeat twoEngines 0 = []
  /\ In ("heartbeat", relayFor T_kernel 0 "heartbeat")
        (migrateKernelEvent 0 1 boundHeartbeat twoEngines 1).
Proof.
  assert (Hw : wf sampleEnv boundHeartbeat)
    by (apply wf_on; [reflexivity | apply wf_constructor]).
  split; [exact Hw |]. split; [reflexivity |].
  apply (proj1 (migrateKernelEvent_moves_relays sampleEnv 0 1 boundHeartbeat twoEngines Hw)).
  left. reflexivity.
Defined.

(* ===================================================================== *)
(** * Registering the pointer tracker                                     *)
(* ===================================================================== *)

Lemma run_listenOnMouseMoveEvent (env : Env) (node : Node) (s : State) :
  listenOnMouseMoveEvent env node s
  = Return tt (trackedAll env node (mustListenVideoDomEvents env) s).
Proof.
  unfold listenOnMouseMoveEvent. generalize (mustListenVideoDomEvents env) as l.
  intros l. revert s. induction l as [| name l IH]; intros s; [reflexivity |].
  cbn [forEach]. unfold bind at 1. unfold bind at 1. unfold newFn at 1.
  unfold bind at 1. rewrite run_addEventOnDom by reflexivity.
  unfold bind at 1. unfold gets at 1. cbv beta iota.
  change (trackedAll env node (name :: l) s)
    with (trackedAll env node l (tracked env node name s)).
  rewrite <- IH. unfold tracked. cbv zeta.
  cbn [bindedEventNames set_domListeners set_nextFn].
  destruct (indexOf (pk_get (bindedEventNames s) T_video_dom) name <? 0)%Z; reflexivity.
Qed.

Lemma tracked_names (env : Env) (node : Node) (name m : string) (s : State) :
  In m (pk_get (bindedEventNames (tracked env node name s)) T_video_dom)
  <-> In m (pk_get (bindedEventNames s) T_video_dom) \/ m = name.
Proof.
  unfold tracked. cbv zeta. rewrite indexOf_negative.
  destruct (indexOf (pk_get (bindedEventNames s) T_video_dom) name >? -1)%Z eqn:E;
    cbn [negb].
  - apply indexOf_found in E. cbn [bindedEventNames set_domListeners set_nextFn].
    split; [intros H; left; exact H | intros [H | ->]; assumption].
  - rewrite bound_names. cbn [bindedEventNames set_domListeners set_nextFn].
    rewrite in_app_iff. simpl. split.
    + intros [H | [H | []]]; [left; exact H | right; symmetry; exact H].
    + intros [H | ->]; [left; exact H | right; left; reflexivity].
Qed.

Lemma tracked_listeners (env : Env) (node : Node) (name : string) (s : State) :
  domListeners (tracked env node name s)
  = attach env node name (VFun (MouseMoveFn (nextFn s) name)) (domListeners s).
Proof.
  unfold tracked. cbv zeta.
  destruct (indexOf (pk_get (bindedEventNames s) T_video_dom) name <? 0)%Z; reflexivity.
Qed.

Lemma trackedAll_names (env : Env) (node : Node) (l : list string) (m : string)
      (s : State) :
  In m (pk_get (bindedEventNames (trackedAll env node l s)) T_video_dom)
  <-> In m (pk_get (bindedEventNames s) T_video_dom) \/ In m l.
Proof.
  revert s. induction l as [| name l IH]; intros s.
  - simpl. split; [intros H; left; exact H | intros [H | []]; exact H].
  - change (trackedAll env node (name :: l) s)
      with (trackedAll env node l (tracked env node name s)).
    rewrite IH, tracked_names. simpl. split.
    + intros [[H | ->] | H]; [left; exact H | right; left; reflexivity | right; right; exact H].
    + intros [H | [<- | H]]; [left; left; exact H | left; right; reflexivity | right; exact H].
Qed.

Lemma trackedAll_mono (env : Env) (node : Node) (l : list string)
      (q : DomListener -> bool) (s : State) :
  existsb q (domListeners s) = true ->
  existsb q (domListeners (trackedAll env node l s)) = true.
Proof.
  revert s. induction l as [| name l IH]; intros s H; [exact H |].
  change (trackedAll env node (name :: l) s)
    with (trackedAll env node l (tracked env node name s)).
  apply IH. rewrite tracked_listeners. apply attach_mono, H.
Qed.

Lemma trackedAll_registered (env : Env) (node : Node) (l : list string) (name : string)
      (s : State) :
  In name l ->
  exists u,
    existsb (same_listener node name (VFun (MouseMoveFn u name)))
            (domListeners (trackedAll env node l s)) = true.
Proof.
  revert s. induction l as [| m l IH]; intros s Hin; [contradiction |].
  change (trackedAll env node (m :: l) s)
    with (trackedAll env node l (tracked env node m s)).
  destruct Hin as [-> | Hin]; [| apply IH, Hin].
  exists (nextFn s). apply trackedAll_mono. rewrite tracked_listeners.
  apply attach_registered. reflexivity.
Qed.

Lemma trackedAll_frame (env : Env) (node : Node) (l : list string) (s : State) :
  buses (trackedAll env node l s) = buses s
  /\ pendingEventsInfo (trackedAll env node l s) = pendingEventsInfo s
  /\ kernel (trackedAll env node l s) = kernel s
  /\ dom (trackedAll env node l s) = dom s
  /\ (forall t, t <> T_video_dom ->
        pk_get (bindedEventNames (trackedAll env node l s)) t
        = pk_get (bindedEventNames s) t
        /\ pk_get (bindedEventInfo (trackedAll env node l s)) t
           = pk_get (bindedEventInfo s) t)
  /\ elsewhere node (domListeners (trackedAll env node l s))
     = elsewhere node (domListeners s).
Proof.
  revert s. induction l as [| name l IH]; intros s.
  - repeat split.
  - change (trackedAll env node (name :: l) s)
      with (trackedAll env node l (tracked env node name s)).
    destruct (IH (tracked env node name s)) as (Eb & Ep & Ek & Ed & Eo & El).
    rewrite Eb, Ep, Ek, Ed, El, tracked_listeners, elsewhere_attach.
    assert (Ht : buses (tracked env node name s) = buses s
                 /\ pendingEventsInfo (tracked env node name s) = pendingEventsInfo s
                 /\ kernel (tracked env node name s) = kernel s
                 /\ dom (tracked env node name s) = dom s
                 /\ forall t, t <> T_video_dom ->
                      pk_get (bindedEventNames (tracked env node name s)) t
                      = pk_get (bindedEventNames s) t
                      /\ pk_get (bindedEventInfo (tracked env node name s)) t
                         = pk_get (bindedEventInfo s) t).
    { unfold tracked. cbv zeta.
      destruct (indexOf (pk_get (bindedEventNames s) T_video_dom) name <? 0)%Z.
      - repeat match goal with |- _ /\ _ => split; [reflexivity |] end.
        intros t Ht. rewrite bound_names_other, bound_info_other by exact Ht.
        split; reflexivity.
      - repeat match goal with |- _ /\ _ => split; [reflexivity |] end.
        intros t Ht. split; reflexivity. }
    destruct Ht as (Tb & Tp & Tk & Td & To).
    split; [exact Tb |]. split; [exact Tp |]. split; [exact Tk |]. split; [exact Td |].
    split; [| reflexivity].
    intros t Ht. destruct (Eo t Ht) as [E1 E2]. destruct (To t Ht) as [E3 E4].
    rewrite E1, E2. split; assumption.
Qed.

(** X11: [listenOnMouseMoveEvent(node)] returns; afterwards every name of
    the always-on whitelist is bound for video-dom and a tracker closure
    built for that name is registered on [node] under it.  The Buses, the
    pending queues, the media engine, the dom, the bookkeeping of every
    other kind and the listeners of every other node are unchanged. *)
Theorem tracker_registration (env : Env) (node : Node) (s : State) :
  exists s',
    listenOnMouseMoveEvent env node s = Return tt s'
    /\ (forall name, In name (mustListenVideoDomEvents env) ->
          In name (pk_get (bindedEventNames s') T_video_dom)
          /\ exists u,
               registeredOn s' (OnNode node) name (VFun (MouseMoveFn u name)) = true)
    /\ (forall name, In name (pk_get (bindedEventNames s) T_video_dom) ->
          In name (pk_get (bindedEventNames s') T_video_dom))
    /\ buses s' = buses s
    /\ pendingEventsInfo s' = pendingEventsInfo s
    /\ kernel s' = kernel s
    /\ dom s' = dom s
    /\ (forall t, t <> T_video_dom ->
          pk_get (bindedEventNames s') t = pk_get (bindedEventNames s) t
          /\ pk_get (bindedEventInfo s') t = pk_get (bindedEventInfo s) t)
    /\ elsewhere node (domListeners s') = elsewhere node (domListeners s).
Proof.
  eexists. split; [apply run_listenOnMouseMoveEvent |].
  split; [| split].
  - intros name Hin. split.
    + apply trackedAll_names. right. exact Hin.
    + apply trackedAll_registered, Hin.
  - intros name Hin. apply trackedAll_names. left. exact Hin.
  - apply trackedAll_frame.
Qed.

(* ===================================================================== *)
(** * Unsubscribing the last subscriber of a bound name                   *)
(* ===================================================================== *)

(** When the name is bound and its Bus has no subscriber for it,
    [_removeEventListenerOnTargetWhenIsUseless] takes the recorded relay off
    every source and forgets the name. *)
Lemma afterRemove_last (env : Env) (n : string) (t : binderTarget) (s : State) :
  wf env s ->
  In n (pk_get (bindedEventNames s) t) ->
  BusModel.events (pk_get (buses s) t) n = [] ->
  exists relay,
    In (n, relay) (pk_get (bindedEventInfo s) t)
    /\ afterRemove env n t s
       = forgotten t (Z.to_nat (indexOf (pk_get (bindedEventNames s) t) n))
           (Z.to_nat (indexOf (pk_get (bindedEventNames s) t) n))
           (unplugged t n relay s)
    /\ (forall src, In src (sourcesOf s t) ->
          registeredOn (afterRemove env n t s) src n relay = false)
    /\ ~ In n (pk_get (bindedEventNames (afterRemove env n t s)) t).
Proof.
  intros [Hwt Hker] Hin He.
  destruct (Hwt t) as (Hlock & Hnd & Hfun & Hhand).
  assert (Hin' : In n (map fst (pk_get (bindedEventInfo s) t)))
    by (rewrite <- Hlock; exact Hin).
  destruct (findBinded_found _ n Hin') as [Hrel Hidx].
  exists (snd (findBinded (pk_get (bindedEventInfo s) t) n)).
  split; [exact Hrel |].
  destruct (afterRemove_cases env n t s)
    as [[E Hc] | (Hh & _ & _ & Hf & E)].
  - exfalso. destruct Hc as [Hc | [Hc | [Hc | Hc]]].
    + rewrite (Hhand n Hin) in Hc. discriminate.
    + exact (Hc Hin).
    + exact (Hc He).
    + rewrite (Hfun n _ Hrel) in Hc. discriminate.
  - rewrite E, Hidx, <- Hlock. split; [reflexivity |]. split.
    + intros src Hsrc.
      change (registeredOn
                (unplugged t n (snd (findBinded (pk_get (bindedEventInfo s) t) n)) s)
                src n (snd (findBinded (pk_get (bindedEventInfo s) t) n)) = false).
      apply unplugged_registered, Hsrc.
    + rewrite forgotten_names.
      destruct (unplugged_frame t n (snd (findBinded (pk_get (bindedEventInfo s) t) n)) s)
        as (_ & En & _).
      rewrite En, pk_get_set_same. apply splice1_indexOf_removes; assumption.
Qed.

Lemma recorded_relay_unique (env : Env) (s : State) (t : binderTarget) (n : string)
      (f g : JSVal) :
  wf env s ->
  In (n, f) (pk_get (bindedEventInfo s) t) ->
  In (n, g) (pk_get (bindedEventInfo s) t) ->
  f = g.
Proof.
  intros [Hwt _]. destruct (Hwt t) as (Hlock & Hnd & _). rewrite Hlock in Hnd. clear Hlock.
  induction (pk_get (bindedEventInfo s) t) as [| [a b] l IH]; intros Hf Hg;
    [contradiction |].
  simpl in Hnd. inversion Hnd as [| ? ? Ha Hl]; subst.
  destruct Hf as [Ef | Hf], Hg as [Eg | Hg].
  - congruence.
  - inversion Ef; subst. exfalso. apply Ha.
    apply (in_map fst) in Hg. exact Hg.
  - inversion Eg; subst. exfalso. apply Ha.
    apply (in_map fst) in Hf. exact Hf.
  - exact (IH Hl Hf Hg).
Qed.

Lemma afterAdd_bound (env : Env) (n : string) (t : binderTarget) (id : string)
      (s : State) :
  In n (pk_get (bindedEventNames s) t) -> afterAdd env n t id s = s.
Proof.
  intros Hin.
  destruct (afterAdd_cases env n t id s)
    as [[E _] | [(_ & Hn & _) | [(_ & Hn & _) | (_ & Hn & _)]]];
    [exact E | contradiction | contradiction | contradiction].
Qed.

Lemma tracked_info (env : Env) (node : Node) (name : string) (s : State) :
  pk_get (bindedEventInfo (tracked env node name s)) T_video_dom
  = if (indexOf (pk_get (bindedEventNames s) T_video_dom) name <? 0)%Z
    then pk_get (bindedEventInfo s) T_video_dom
           ++ [(name, VFun (MouseMoveFn (nextFn s) name))]
    else pk_get (bindedEventInfo s) T_video_dom.
Proof.
  unfold tracked. cbv zeta.
  destruct (indexOf (pk_get (bindedEventNames s) T_video_dom) name <? 0)%Z;
    [rewrite bound_info |]; reflexivity.
Qed.

Lemma trackedAll_info_mono (env : Env) (node : Node) (l : list string)
      (x : string * JSVal) (s : State) :
  In x (pk_get (bindedEventInfo s) T_video_dom) ->
  In x (pk_get (bindedEventInfo (trackedAll env node l s)) T_video_dom).
Proof.
  revert s. induction l as [| name l IH]; intros s H; [exact H |].
  change (trackedAll env node (name :: l) s)
    with (trackedAll env node l (tracked env node name s)).
  apply IH. rewrite tracked_info.
  destruct (indexOf (pk_get (bindedEventNames s) T_video_dom) name <? 0)%Z;
    [apply in_or_app; left |]; exact H.
Qed.

(** The tracker of a name that was not bound before is both recorded as
    the relay of that name and registered on the node. *)
Lemma trackedAll_tracker (env : Env) (node : Node) (l : list string) (n : string)
      (s : State) :
  ~ In n (pk_get (bindedEventNames s) T_video_dom) -> In n l ->
  exists u,
    In (n, VFun (MouseMoveFn u n))
       (pk_get (bindedEventInfo (trackedAll env node l s)) T_video_dom)
    /\ existsb (same_listener node n (VFun (MouseMoveFn u n)))
               (domListeners (trackedAll env node l s)) = true.
Proof.
  revert s. induction l as [| m l IH]; intros s Hn Hin; [contradiction |].
  change (trackedAll env node (m :: l) s)
    with (trackedAll env node l (tracked env node m s)).
  destruct (String.eqb_spec m n) as [-> | Hne].
  - exists (nextFn s). split.
    + apply trackedAll_info_mono. rewrite tracked_info, indexOf_negative.
      apply indexOf_missing in Hn. rewrite Hn. apply in_or_app. right. left. reflexivity.
    + apply trackedAll_mono. rewrite tracked_listeners.
      apply attach_registered. reflexivity.
  - destruct Hin as [E | Hin]; [contradiction |].
    apply IH; [| exact Hin].
    rewrite tracked_names. intros [H | H]; [exact (Hn H) | apply Hne; symmetry; exact H].
Qed.

(** X12: the always-on tracker is torn down like any relay.  After
    [listenOnMouseMoveEvent(node)] in a well-formed binder, the tracker
    closure of a whitelisted name that was not bound before is recorded as
    the video-dom relay of that name and registered on [node]; if that name
    then gets a video-dom subscriber through [on] and loses it again through
    [off], the name is no longer bound and the tracker is no longer
    registered on the video element nor on any extended node. *)
Theorem last_unsubscribe_removes_tracker (env : Env) (node : Node) (info : rawEventInfo)
      (s : State) :
  wf env s ->
  isFunction (r_fn info) = true ->
  i_target (fst (getEventInfo_raw env info)) = T_video_dom ->
  In (i_name (fst (getEventInfo_raw env info))) (mustListenVideoDomEvents env) ->
  ~ In (i_name (fst (getEventInfo_raw env info))) (pk_get (bindedEventNames s) T_video_dom) ->
  BusModel.events (pk_get (buses s) T_video_dom) (i_name (fst (getEventInfo_raw env info)))
  = [] ->
  let n := i_name (fst (getEventInfo_raw env info)) in
  let s1 := final (listenOnMouseMoveEvent env node s) in
  let s3 := final (off env info (final (on env info s1))) in
  exists u,
    In (n, VFun (MouseMoveFn u n)) (pk_get (bindedEventInfo s1) T_video_dom)
    /\ registeredOn s1 (OnNode node) n (VFun (MouseMoveFn u n)) = true
    /\ ~ In n (pk_get (bindedEventNames s3) T_video_dom)
    /\ forall m, m = videoElement (dom s) \/ In m (videoExtendedNodes (dom s)) ->
         registeredOn s3 (OnNode m) n (VFun (MouseMoveFn u n)) = false.
Proof.
  intros Hw Hf Ht Hwl Hnb He n s1 s3.
  assert (Hw1 : wf env s1) by (apply wf_listenOnMouseMoveEvent, Hw).
  assert (E1 : s1 = trackedAll env node (mustListenVideoDomEvents env) s)
    by (unfold s1; rewrite run_listenOnMouseMoveEvent; reflexivity).
  destruct (trackedAll_tracker env node _ n s Hnb Hwl) as (u & Hrec & Hreg).
  rewrite <- E1 in Hrec, Hreg.
  destruct (trackedAll_frame env node (mustListenVideoDomEvents env) s)
    as (Eb & _ & _ & Ed & _).
  rewrite <- E1 in Eb, Ed.
  assert (Hin1 : In n (pk_get (bindedEventNames s1) T_video_dom)).
  { rewrite E1. apply trackedAll_names. right. exact Hwl. }
  exists u. split; [exact Hrec |]. split; [exact Hreg |].
  (* on finds the name bound and only reaches the Bus *)
  pose proof (run_on env info s1 Hf) as Ron. cbv zeta in Ron.
  rewrite Ht in Ron. fold n in Ron.
  rewrite afterAdd_bound in Ron by exact Hin1.
  set (s2 := final (on env info s1)) in *.
  assert (E2 : s2 = set_buses _ _) by (unfold s2; rewrite Ron; reflexivity).
  clear Ron.
  (* off empties the Bus and removes the recorded relay *)
  pose proof (run_off env info s2 Hf) as Roff. cbv zeta in Roff.
  rewrite Ht in Roff. fold n in Roff.
  assert (Hpre : T_video_dom = T_kernel ->
                 In n (pk_get (bindedEventNames s2) T_kernel) -> kernel s2 <> None)
    by discriminate.
  specialize (Roff Hpre). clear Hpre.
  set (sb := set_buses _ (set_log _ s2)) in Roff.
  assert (E3 : s3 = afterRemove env n T_video_dom sb)
    by (unfold s3; rewrite Roff; reflexivity).
  assert (Hnames : bindedEventNames sb = bindedEventNames s1)
    by (unfold sb; rewrite E2; reflexivity).
  assert (Hinfo : bindedEventInfo sb = bindedEventInfo s1)
    by (unfold sb; rewrite E2; reflexivity).
  assert (Hdom : dom sb = dom s) by (unfold sb; rewrite E2; exact Ed).
  assert (Hwb : wf env sb).
  { apply (wf_bookkeepingOnly env s1); [exact Hnames | exact Hinfo | | exact Hw1].
    unfold sb. rewrite E2. intros H. exact H. }
  assert (Hbus : BusModel.events (pk_get (buses sb) T_video_dom) n = []).
  { unfold sb. cbn [buses set_buses set_log]. rewrite pk_get_set_same.
    rewrite E2. cbn [buses set_buses set_log]. rewrite pk_get_set_same, Eb.
    apply events_on_off; assumption. }
  destruct (afterRemove_last env n T_video_dom sb Hwb) as (relay & Hrel & _ & Hoff & Hgone);
    [rewrite Hnames; exact Hin1 | exact Hbus |].
  rewrite Hinfo in Hrel.
  assert (relay = VFun (MouseMoveFn u n))
    by exact (recorded_relay_unique env s1 T_video_dom n _ _ Hw1 Hrel Hrec).
  subst relay. rewrite E3. split; [exact Hgone |].
  intros m Hm. apply Hoff. unfold sourcesOf, domNodes. rewrite Hdom.
  apply in_map, in_or_app. destruct Hm as [-> | Hm]; [right; left; reflexivity | left; exact Hm].
Qed.

Lemma last_unsubscribe_removes_tracker_witness :
  exists u,
    registeredOn (final (listenOnMouseMoveEvent sampleEnv 3 freshWithKernel))
      (OnNode 3) "mouseenter" (VFun (MouseMoveFn u "mouseenter")) = true
    /\ registeredOn
         (final (off sampleEnv (mkRaw "a" handlerA "mouseenter" None None)
            (final (on sampleEnv (mkRaw "a" handlerA "mouseenter" None None)
               (final (listenOnMouseMoveEvent sampleEnv 3 freshWithKernel))))))
         (OnNode 3) "mouseenter" (VFun (MouseMoveFn u "mouseenter")) = false.
Proof.
  destruct (last_unsubscribe_removes_tracker sampleEnv 3
              (mkRaw "a" handlerA "mouseenter" None None) freshWithKernel
              (wf_constructor sampleEnv sampleDom (Some []) []) eq_refl eq_refl
              (or_introl eq_refl) (fun H : False => H) eq_refl)
    as (u & _ & Hreg & _ & Hoff).
  exists u. split; [exact Hreg |]. apply Hoff. left. reflexivity.
Defined.

(* ===================================================================== *)
(** * Subscribing and unsubscribing again                                 *)
(* ===================================================================== *)

Lemma bus_on_off (b : Bus) (id n : string) (fn : JSVal) (st : eventStage) :
  isFunction fn = true ->
  BusModel.events b n = [] ->
  BusModel.off (BusModel.on b id n fn st) id n fn st = b.
Proof.
  intros Hf He. unfold BusModel.off, BusModel.on. cbn [subscribers dispatched].
  rewrite filter_app. cbn [filter]. unfold sub_matches at 2. cbn [s_id s_name s_fn s_stage].
  rewrite !String.eqb_refl, (same_fn_refl fn Hf), eventStage_eqb_refl. cbn [andb negb].
  rewrite app_nil_r, filter_all; [destruct b; reflexivity |].
  intros x Hx. unfold sub_matches.
  destruct (String.eqb (s_name x) n) eqn:E.
  - exfalso. assert (Hin : In x (BusModel.events b n)).
    { unfold BusModel.events. apply filter_In. split; assumption. }
    rewrite He in Hin. contradiction.
  - rewrite andb_false_r. reflexivity.
Qed.

Lemma indexOf_snoc (l : list string) (n : string) :
  ~ In n l -> Z.to_nat (indexOf (l ++ [n]) n) = List.length l.
Proof.
  induction l as [| y l IH]; intros Hn.
  - simpl. rewrite String.eqb_refl. reflexivity.
  - assert (Hne : y <> n) by (intros ->; apply Hn; left; reflexivity).
    change ((y :: l) ++ [n]) with (y :: (l ++ [n])).
    rewrite (indexOf_to_nat_cons y n (l ++ [n]) Hne)
      by (apply in_or_app; right; left; reflexivity).
    rewrite IH; [reflexivity |]. intros H. apply Hn. right. exact H.
Qed.

Lemma splice1_snoc {A : Type} (l : list A) (x : A) :
  splice1 (List.length l) (l ++ [x]) = l.
Proof. induction l as [| y l IH]; simpl; [| rewrite IH]; reflexivity. Qed.

Lemma detachAll_filter (nodes : list Node) (key : string) (fn : JSVal)
      (ls : list DomListener) :
  detachAll nodes key fn ls
  = filter (fun x => negb (existsb (fun m => same_listener m key fn x) nodes)) ls.
Proof.
  revert ls. induction nodes as [| m nodes IH]; intros ls.
  - simpl. induction ls as [| x ls IHl]; simpl; [| rewrite <- IHl]; reflexivity.
  - change (detachAll (m :: nodes) key fn ls)
      with (detachAll nodes key fn (detach m key fn ls)).
    rewrite IH. unfold detach. rewrite filter_filter.
    apply filter_ext. intros x. simpl. rewrite negb_orb. reflexivity.
Qed.

Lemma attachAll_appends (env : Env) (nodes : list Node) (key : string) (fn : JSVal)
      (ls : list DomListener) :
  exists added,
    attachAll env nodes key fn ls = ls ++ added
    /\ forall x, In x added -> exists m p, In m nodes /\ x = mkListener m key fn p.
Proof.
  revert ls. induction nodes as [| m nodes IH]; intros ls.
  - exists []. split; [symmetry; apply app_nil_r | intros x []].
  - change (attachAll env (m :: nodes) key fn ls)
      with (attachAll env nodes key fn (attach env m key fn ls)).
    destruct (IH (attach env m key fn ls)) as (added & E & H). rewrite E.
    unfold attach. destruct (existsb (same_listener m key fn) ls).
    + exists added. split; [reflexivity |].
      intros x Hx. destruct (H x Hx) as (m' & p & Hin & ->).
      exists m', p. split; [right; exact Hin | reflexivity].
    + eexists. split; [rewrite <- app_assoc; reflexivity |].
      intros x [<- | Hx].
      * eexists m, _. split; [left; reflexivity | reflexivity].
      * destruct (H x Hx) as (m' & p & Hin & ->).
        exists m', p. split; [right; exact Hin | reflexivity].
Qed.

(** Detaching a relay from the nodes it was just attached to restores the
    listener table, when none of these nodes carried it before. *)
Lemma detachAll_attachAll (env : Env) (nodes nodes' : list Node) (key : string)
      (fn : JSVal) (ls : list DomListener) :
  isFunction fn = true ->
  (forall m, In m nodes -> In m nodes') ->
  (forall m x, In m nodes' -> In x ls -> same_listener m key fn x = false) ->
  detachAll nodes' key fn (attachAll env nodes key fn ls) = ls.
Proof.
  intros Hf Hsub Hno.
  destruct (attachAll_appends env nodes key fn ls) as (added & -> & Hadd).
  rewrite detachAll_filter, filter_app.
  rewrite filter_all, filter_none; [apply app_nil_r | |].
  - intros x Hx. destruct (Hadd x Hx) as (m & p & Hin & ->).
    apply negb_false_iff, existsb_exists. exists m. split; [apply Hsub, Hin |].
    apply (same_listener_entry env), Hf.
  - intros x Hx. apply negb_true_iff.
    destruct (existsb (fun m => same_listener m key fn x) nodes') eqn:E; [| reflexivity].
    apply existsb_exists in E. destruct E as (m & Hin & Hm).
    rewrite (Hno m x Hin Hx) in Hm. discriminate.
Qed.

Lemma filter_nil_all {A : Type} (p : A -> bool) (l : list A) (x : A) :
  filter p l = [] -> In x l -> p x = false.
Proof.
  intros H Hin. destruct (p x) eqn:E; [| reflexivity].
  assert (Hf : In x (filter p l)) by (apply filter_In; split; assumption).
  rewrite H in Hf. contradiction.
Qed.

(** The listeners after the relay [fn] of a DOM kind is taken off. *)
Lemma unplugged_listeners (t : binderTarget) (n : string) (fn : JSVal) (s : State) :
  t <> T_kernel -> t <> T_plugin -> t <> T_esFullscreen ->
  exists nodes',
    domListeners (unplugged t n fn s) = detachAll nodes' n fn (domListeners s)
    /\ kernel (unplugged t n fn s) = kernel s
    /\ forall m, In m nodes' <-> In m (domNodes s t).
Proof.
  intros Hk Hp He. destruct t; try contradiction.
  - exists [container (dom s)]. repeat split; intros H; exact H.
  - exists [wrapper (dom s)]. repeat split; intros H; exact H.
  - exists [videoElement (dom s)]. repeat split; intros H; exact H.
  - exists (videoElement (dom s) :: videoExtendedNodes (dom s)).
    split; [reflexivity |]. split; [reflexivity |].
    intros m. unfold domNodes. rewrite in_app_iff. simpl. tauto.
Qed.

Lemma wf_lengths (env : Env) (s : State) (t : binderTarget) :
  wf env s ->
  List.length (pk_get (bindedEventNames s) t) = List.length (pk_get (bindedEventInfo s) t).
Proof.
  intros [Hwt _]. destruct (Hwt t) as (Hlock & _). rewrite Hlock. apply length_map.
Qed.

(** The bookkeeping after a relay was recorded last and is forgotten
    again. *)
Lemma forgotten_after_bound (env : Env) (t : binderTarget) (n : string) (fn : JSVal)
      (s u : State) :
  wf env s ->
  ~ In n (pk_get (bindedEventNames s) t) ->
  bindedEventNames u
  = pk_set (bindedEventNames s) t (pk_get (bindedEventNames s) t ++ [n]) ->
  bindedEventInfo u
  = pk_set (bindedEventInfo s) t (pk_get (bindedEventInfo s) t ++ [(n, fn)]) ->
  let i := Z.to_nat (indexOf (pk_get (bindedEventNames u) t) n) in
  bindedEventNames (forgotten t i i u) = bindedEventNames s
  /\ bindedEventInfo (forgotten t i i u) = bindedEventInfo s.
Proof.
  intros Hw Hn En Ei i.
  assert (Hi : i = List.length (pk_get (bindedEventNames s) t)).
  { unfold i. rewrite En, pk_get_set_same. apply indexOf_snoc, Hn. }
  rewrite forgotten_names, forgotten_info, En, Ei, !pk_get_set_same, !pk_set_set.
  split.
  - rewrite Hi, splice1_snoc. apply pk_set_get.
  - rewrite Hi, (wf_lengths env s t Hw), splice1_snoc. apply pk_set_get.
Qed.

Lemma add_then_remove (env : Env) (n : string) (t : binderTarget) (id : string)
      (s : State) (B : perKind Bus) (l : list LogEntry) :
  wf env s -> relayConsistent s t n ->
  ~ In n (pk_get (bindedEventNames s) t) ->
  (t = T_kernel -> kernel s <> None) ->
  BusModel.events (pk_get B t) n = [] ->
  sameBinderState (set_buses B s)
    (afterRemove env n t (set_buses B (set_log l (afterAdd env n t id s)))).
Proof.
  intros Hw [_ Hc] Hn Hk He.
  pose proof (wf_afterAdd env n t id s Hw) as Hwa.
  destruct (afterAdd_cases env n t id s)
    as [[E Hc1] | [(Hh & _ & Ht & Hk0 & E) | [(Hh & _ & Ht & ls & Hk0 & E)
                                            | (Hh & _ & Ht & E)]]].
  - rewrite E. destruct Hc1 as [Hh | Hin]; [| contradiction].
    destruct (afterRemove_cases env n t (set_buses B (set_log l s)))
      as [[E' _] | (Hh' & _)]; [| congruence].
    rewrite E'. repeat split.
  - exfalso. exact (Hk Ht Hk0).
  - (* kernel, with an engine *)
    set (fn := relayFor t (nextFn s) n) in *.
    set (sb := set_buses B (set_log l (afterAdd env n t id s))).
    assert (Hwb : wf env sb).
    { apply (wf_bookkeepingOnly env (afterAdd env n t id s));
        [reflexivity | reflexivity | intros H; exact H | exact Hwa]. }
    assert (En : bindedEventNames sb
                 = pk_set (bindedEventNames s) t (pk_get (bindedEventNames s) t ++ [n]))
      by (unfold sb; rewrite E; reflexivity).
    assert (Ei : bindedEventInfo sb
                 = pk_set (bindedEventInfo s) t (pk_get (bindedEventInfo s) t ++ [(n, fn)]))
      by (unfold sb; rewrite E; reflexivity).
    assert (Ek : kernel sb = Some (ls ++ [(n, fn)])) by (unfold sb; rewrite E; reflexivity).
    destruct (afterRemove_last env n t sb Hwb) as (relay & Hrel & Eform & _);
      [rewrite En, pk_get_set_same; apply in_or_app; right; left; reflexivity
      | exact He |].
    assert (relay = fn).
    { apply (recorded_relay_unique env sb t n relay fn Hwb Hrel).
      rewrite Ei, pk_get_set_same. apply in_or_app. right. left. reflexivity. }
    subst relay. rewrite Eform.
    destruct (unplugged_frame t n fn sb) as (Ub & Un & Ui & Up & _).
    destruct (forgotten_after_bound env t n fn s (unplugged t n fn sb) Hw Hn)
      as [Fn' Fi]; [rewrite Un; exact En | rewrite Ui; exact Ei |].
    rewrite Un in Fn', Fi.
    unfold sameBinderState. rewrite Fn', Fi.
    split; [exact Ub |]. split; [reflexivity |]. split; [reflexivity |].
    split; [unfold forgotten; cbn [pendingEventsInfo set_bindedEventNames
                                    set_bindedEventInfo]; rewrite Up;
            unfold sb; rewrite E; reflexivity |].
    assert (Hls : filter (fun x => negb (same_kernel_listener n fn x)) (ls ++ [(n, fn)])
                  = ls).
    { rewrite filter_app. cbn [filter].
      rewrite (same_kernel_listener_refl n fn)
        by (subst t; reflexivity).
      cbn [negb]. rewrite app_nil_r. apply filter_all. intros x Hx.
      apply negb_true_iff.
      destruct (same_kernel_listener n fn x) eqn:Es; [| reflexivity].
      apply same_kernel_listener_eq in Es. subst x. exfalso.
      specialize (Hc Hn OnKernel). subst t. specialize (Hc (or_introl eq_refl)).
      unfold attachedOn in Hc. rewrite Hk0 in Hc.
      apply map_eq_nil in Hc.
      pose proof (filter_nil_all _ ls (n, fn) Hc Hx) as Hf.
      cbn [fst snd] in Hf. rewrite String.eqb_refl in Hf. discriminate. }
    subst t. unfold forgotten, unplugged.
    cbn [kernel domListeners set_bindedEventNames set_bindedEventInfo].
    rewrite Ek. cbn [kernel domListeners set_kernel]. rewrite Hls.
    split; [symmetry; exact Hk0 |]. unfold sb. rewrite E. reflexivity.
  - (* a DOM kind *)
    destruct (handled_kinds env t n Hh) as [Hp Hes].
    set (fn := relayFor t (nextFn s) n) in *.
    set (sb := set_buses B (set_log l (afterAdd env n t id s))).
    assert (Hwb : wf env sb).
    { apply (wf_bookkeepingOnly env (afterAdd env n t id s));
        [reflexivity | reflexivity | intros H; exact H | exact Hwa]. }
    assert (En : bindedEventNames sb
                 = pk_set (bindedEventNames s) t (pk_get (bindedEventNames s) t ++ [n]))
      by (unfold sb; rewrite E; reflexivity).
    assert (Ei : bindedEventInfo sb
                 = pk_set (bindedEventInfo s) t (pk_get (bindedEventInfo s) t ++ [(n, fn)]))
      by (unfold sb; rewrite E; reflexivity).
    assert (El : domListeners sb = attachAll env (domNodes s t) n fn (domListeners s))
      by (unfold sb; rewrite E; reflexivity).
    assert (Ed : dom sb = dom s) by (unfold sb; rewrite E; reflexivity).
    destruct (afterRemove_last env n t sb Hwb) as (relay & Hrel & Eform & _);
      [rewrite En, pk_get_set_same; apply in_or_app; right; left; reflexivity
      | exact He |].
    assert (relay = fn).
    { apply (recorded_relay_unique env sb t n relay fn Hwb Hrel).
      rewrite Ei, pk_get_set_same. apply in_or_app. right. left. reflexivity. }
    subst relay. rewrite Eform.
    destruct (unplugged_frame t n fn sb) as (Ub & Un & Ui & Up & _).
    destruct (forgotten_after_bound env t n fn s (unplugged t n fn sb) Hw Hn)
      as [Fn' Fi]; [rewrite Un; exact En | rewrite Ui; exact Ei |].
    rewrite Un in Fn', Fi.
    destruct (unplugged_listeners t n fn sb Ht Hp Hes) as (nodes' & Ul & Uk & Hnodes).
    unfold sameBinderState. rewrite Fn', Fi.
    split; [exact Ub |]. split; [reflexivity |]. split; [reflexivity |].
    split; [unfold forgotten; cbn [pendingEventsInfo set_bindedEventNames
                                    set_bindedEventInfo]; rewrite Up;
            unfold sb; rewrite E; reflexivity |].
    unfold forgotten. cbn [kernel domListeners set_bindedEventNames set_bindedEventInfo].
    split; [rewrite Uk; unfold sb; rewrite E; reflexivity |].
    rewrite Ul, El.
    assert (Hdn : domNodes sb t = domNodes s t)
      by (unfold domNodes, targetDomOf; rewrite Ed; reflexivity).
    apply detachAll_attachAll.
    + apply relayFor_isFunction; assumption.
    + intros m Hm. apply Hnodes. rewrite Hdn. exact Hm.
    + intros m x Hm Hx. apply Hnodes in Hm. rewrite Hdn in Hm.
      destruct (same_listener m n fn x) eqn:Es; [| reflexivity]. exfalso.
      assert (Hsrc : In (OnNode m) (sourcesOf s t)).
      { unfold sourcesOf. destruct t; try contradiction; apply in_map, Hm. }
      specialize (Hc Hn (OnNode m) Hsrc). unfold attachedOn in Hc.
      apply map_eq_nil in Hc.
      pose proof (filter_nil_all _ _ x Hc Hx) as Hf.
      rewrite (same_listener_native t n fn (relayFor_relayOf t (nextFn s) n Hp Hes) m x Es)
        in Hf.
      discriminate.
Qed.

(** X13: [on] followed by [off] with the same descriptor is a round trip.
    In a well-formed binder whose bookkeeping agrees with the sources for
    the resolved pair, if the name is not bound for its target, its Bus has
    no subscriber for it and, for a kernel event, a media engine is
    attached, then both calls return and the Buses, the relay bookkeeping,
    the pending queues, the listeners of the media engine, the DOM listeners
    and the dom are exactly as before the two calls. *)
Theorem subscribe_unsubscribe_round_trip (env : Env) (info : rawEventInfo) (s : State) :
  wf env s ->
  isFunction (r_fn info) = true ->
  relayConsistent s (i_target (fst (getEventInfo_raw env info)))
                    (i_name (fst (getEventInfo_raw env info))) ->
  ~ In (i_name (fst (getEventInfo_raw env info)))
       (pk_get (bindedEventNames s) (i_target (fst (getEventInfo_raw env info)))) ->
  BusModel.events (pk_get (buses s) (i_target (fst (getEventInfo_raw env info))))
                  (i_name (fst (getEventInfo_raw env info))) = [] ->
  (i_target (fst (getEventInfo_raw env info)) = T_kernel -> kernel s <> None) ->
  exists s1 s2,
    on env info s = Return tt s1
    /\ off env info s1 = Return tt s2
    /\ sameBinderState s s2
    /\ dom s2 = dom s.
Proof.
  intros Hw Hf Hc Hn He Hk.
  set (t := i_target (fst (getEventInfo_raw env info))) in *.
  set (n := i_name (fst (getEventInfo_raw env info))) in *.
  set (st := i_stage (fst (getEventInfo_raw env info))).
  set (w := snd (getEventInfo_raw env info)).
  set (s0 := set_log (log s ++ w) s).
  set (a := afterAdd env n t (r_id info) s0).
  pose proof (run_on env info s Hf) as Ron. cbv zeta in Ron.
  fold t n st w s0 a in Ron.
  set (s1 := set_buses _ a) in Ron.
  assert (Hwa : wf env a) by (apply wf_afterAdd; exact Hw).
  assert (Hw1 : wf env s1).
  { apply (wf_bookkeepingOnly env a);
      [reflexivity | reflexivity | intros H; exact H | exact Hwa]. }
  pose proof (run_off env info s1 Hf) as Roff. cbv zeta in Roff.
  fold t n st w in Roff.
  assert (Hpre : t = T_kernel -> In n (pk_get (bindedEventNames s1) T_kernel) ->
                 kernel s1 <> None).
  { intros _ Hin. destruct Hw1 as [_ Hker]. apply Hker.
    intros E. rewrite E in Hin. contradiction. }
  specialize (Roff Hpre). clear Hpre.
  destruct (afterAdd_frame env n t (r_id info) s0) as (Eb & Ed & _). fold a in Eb, Ed.
  set (B := pk_set (buses (set_log (log s1 ++ w) s1)) t
              (BusModel.off (pk_get (buses (set_log (log s1 ++ w) s1)) t)
                            (r_id info) n (r_fn info) st)) in *.
  assert (HB : B = buses s).
  { unfold B, s1. cbn [buses set_buses set_log]. rewrite !pk_get_set_same, pk_set_set, Eb.
    change (buses s0) with (buses s).
    rewrite (bus_on_off _ (r_id info) n (r_fn info) st Hf He). apply pk_set_get. }
  change (set_buses B (set_log (log s1 ++ w) s1))
    with (set_buses B (set_log (log s1 ++ w) a)) in Roff.
  set (sb := set_buses B (set_log (log s1 ++ w) a)) in *.
  exists s1, (afterRemove env n t sb).
  split; [exact Ron |]. split; [exact Roff |].
  assert (HeB : BusModel.events (pk_get B t) n = []) by (rewrite HB; exact He).
  pose proof (add_then_remove env n t (r_id info) s0 B (log s1 ++ w) Hw Hc Hn Hk HeB) as R.
  fold a sb in R. destruct R as (R1 & R2 & R3 & R4 & R5 & R6).
  split.
  - unfold sameBinderState. rewrite R1, R2, R3, R4, R5, R6.
    cbn [buses set_buses]. repeat split. exact HB.
  - destruct (afterRemove_cases env n t sb) as [[E _] | (_ & _ & _ & _ & E)]; rewrite E.
    + exact Ed.
    + unfold forgotten. cbn [dom set_bindedEventNames set_bindedEventInfo].
      destruct (unplugged_frame t n (snd (findBinded (pk_get (bindedEventInfo sb) t) n)) sb)
        as (_ & _ & _ & _ & Ud).
      rewrite Ud. exact Ed.
Qed.

Lemma subscribe_unsubscribe_round_trip_witness :
  exists s1 s2,
    on sampleEnv clickOnContainer freshWithKernel = Return tt s1
    /\ off sampleEnv clickOnContainer s1 = Return tt s2
    /\ sameBinderState freshWithKernel s2
    /\ dom s2 = dom freshWithKernel.
Proof.
  apply (subscribe_unsubscribe_round_trip sampleEnv clickOnContainer freshWithKernel).
  - apply wf_constructor.
  - reflexivity.
  - split; [intros [] | intros _ src _; destruct src; reflexivity].
  - intros [].
  - reflexivity.
  - discriminate.
Defined.

(* ===================================================================== *)
(** * What teardown leaves behind                                         *)
(* ===================================================================== *)

Lemma logical_detachKind (P : State -> Prop) (target : binderTarget) :
  logicalOnly P -> invariant P (detachKind target).
Proof.
  intros HP.
  assert (Hrem : forall element key fn, invariant P (removeEvent element key fn)).
  { intros element key fn. apply invariant_modify. intros s H.
    apply (HP s); [reflexivity | reflexivity | reflexivity | exact H]. }
  assert (Hdom : invariant P
    (targetDom <- _getTargetDom target ;;
     l <- gets (fun s => pk_get (bindedEventInfo s) target) ;;
     forEach l (fun '(name, fn) =>
       removeEvent targetDom name fn ;;
       if binderTarget_eqb target T_video_dom then
         nodes <- gets (fun s => videoExtendedNodes (dom s)) ;;
         forEach nodes (fun node => removeEvent node name fn)
       else ret tt))%js).
  { apply invariant_bind; [apply invariant_gets | intros targetDom].
    apply invariant_bind; [apply invariant_gets | intros l].
    apply invariant_forEach. intros [name fn].
    apply invariant_bind; [apply Hrem | intros _].
    apply invariant_if; [| apply invariant_ret].
    apply invariant_bind; [apply invariant_gets | intros nodes].
    apply invariant_forEach. intros node. apply Hrem. }
  destruct target; try exact Hdom.
  apply invariant_bind; [apply invariant_gets | intros l].
  apply invariant_forEach. intros [name fn]. intros s H. unfold kernel_off.
  destruct (kernel s); [| exact H].
  apply (HP s); [reflexivity | reflexivity | reflexivity | exact H].
Qed.

Lemma logical_destroy (P : State -> Prop) : logicalOnly P -> invariant P destroy.
Proof.
  intros HP. rewrite destroy_rounds. apply invariant_forEach. intros target.
  apply invariant_bind; [apply logical_detachKind, HP | intros _].
  apply invariant_modify. intros s H.
  apply (HP s); [reflexivity | reflexivity | reflexivity | exact H].
Qed.

(** X14: in a well-formed binder [destroy] returns; afterwards no relay
    that was recorded, of any kind, is registered on any source of its kind
    (the media engine, the target's DOM node, every extended node for
    video-dom).  The Buses keep their subscribers, the pending queues keep
    their entries and the dom is unchanged: teardown removes native
    listeners only. *)
Theorem destroy_removes_listeners_only (env : Env) (s : State) :
  wf env s ->
  exists s',
    destroy s = Return tt s'
    /\ (forall t n fn, In (n, fn) (pk_get (bindedEventInfo s) t) ->
          forall src, In src (sourcesOf s t) -> registeredOn s' src n fn = false)
    /\ buses s' = buses s
    /\ pendingEventsInfo s' = pendingEventsInfo s
    /\ dom s' = dom s.
Proof.
  intros Hw. pose proof (destroy_returns env s Hw) as Hr.
  destruct (destroy s) as [[] s' | e s'] eqn:R; [| discriminate].
  exists s'. split; [reflexivity |]. split; [exact (destroy_detaches s s' R) |].
  assert (HP : logicalOnly (fun x => buses x = buses s
                                     /\ pendingEventsInfo x = pendingEventsInfo s
                                     /\ dom x = dom s)).
  { intros a b Eb Ep Ed (H1 & H2 & H3). rewrite Eb, Ep, Ed. repeat split; assumption. }
  pose proof (logical_destroy _ HP s) as Hinv. rewrite R in Hinv.
  apply Hinv. repeat split.
Qed.

Lemma destroy_removes_listeners_only_witness :
  wf sampleEnv boundClick
  /\ exists s',
       destroy boundClick = Return tt s'
       /\ registeredOn s' (OnNode 1) "click" (relayFor T_container 0 "click") = false
       /\ buses s' = buses boundClick.
Proof.
  assert (Hw : wf sampleEnv boundClick)
    by (apply wf_on; [reflexivity | apply wf_constructor]).
  split; [exact Hw |].
  destruct (destroy_removes_listeners_only sampleEnv boundClick Hw)
    as (s' & R & Hd & Hb & _).
  exists s'. split; [exact R |]. split; [| exact Hb].
  apply (Hd T_container "click" (relayFor T_container 0 "click"));
    left; reflexivity.
Defined.

(* ===================================================================== *)
(** * The passive hint                                                    *)
(* ===================================================================== *)

Lemma attachAll_In (env : Env) (nodes : list Node) (key : string) (fn : JSVal)
      (ls : list DomListener) (x : DomListener) :
  In x (attachAll env nodes key fn ls) ->
  In x ls
  \/ exists m, In m nodes
       /\ x = mkListener m key fn (indexOf (passiveEvents env) key >? -1)%Z.
Proof.
  revert ls. induction nodes as [| m nodes IH]; intros ls H; [left; exact H |].
  change (attachAll env (m :: nodes) key fn ls)
    with (attachAll env nodes key fn (attach env m key fn ls)) in H.
  destruct (IH _ H) as [Hin | (m' & Hm & ->)].
  - unfold attach in Hin. destruct (existsb (same_listener m key fn) ls);
      [left; exact Hin |].
    apply in_app_or in Hin. destruct Hin as [Hin | [<- | []]]; [left; exact Hin |].
    right. exists m. split; [left; reflexivity | reflexivity].
  - right. exists m'. split; [right; exact Hm | reflexivity].
Qed.

(** X15: every DOM listener that [on] adds is the relay built for the
    resolved pair, registered under the resolved name on a node of the
    resolved target, and it is registered as passive exactly when that name
    is listed in passiveEvents. *)
Theorem on_attaches_passive_by_name (env : Env) (info : rawEventInfo) (s : State)
      (x : DomListener) :
  In x (domListeners (final (on env info s))) ->
  In x (domListeners s)
  \/ (let i := fst (getEventInfo_raw env info) in
      l_type x = i_name i
      /\ l_fn x = relayFor (i_target i) (nextFn s) (i_name i)
      /\ In (l_node x) (domNodes s (i_target i))
      /\ l_passive x = (indexOf (passiveEvents env) (i_name i) >? -1)%Z).
Proof.
  intros Hx. destruct (isFunction (r_fn info)) eqn:Hf.
  - rewrite (run_on env info s Hf) in Hx. cbn [final domListeners set_buses] in Hx.
    set (i := fst (getEventInfo_raw env info)) in *.
    set (s0 := set_log (log s ++ snd (getEventInfo_raw env info)) s) in *.
    destruct (afterAdd_cases env (i_name i) (i_target i) (r_id info) s0)
      as [[E _] | [(_ & _ & _ & _ & E) | [(_ & _ & _ & ls & _ & E) | (_ & _ & _ & E)]]];
      rewrite E in Hx.
    + left. exact Hx.
    + left. exact Hx.
    + left. exact Hx.
    + cbn [domListeners bound set_bindedEventInfo set_bindedEventNames set_domListeners]
        in Hx.
      apply attachAll_In in Hx. destruct Hx as [Hx | (m & Hm & ->)]; [left; exact Hx |].
      right. repeat split. exact Hm.
  - unfold on, bind in Hx. rewrite (prettifyEventParameter_throws env info s Hf) in Hx.
    left. exact Hx.
Qed.

Lemma on_attaches_passive_by_name_witness :
  In (mkListener 1 "wheel" (relayFor T_container 0 "wheel") true)
     (domListeners
        (final (on sampleEnv (mkRaw "a" handlerA "wheel" (Some T_container) None)
                   freshWithKernel)))
  /\ (indexOf (passiveEvents sampleEnv) "wheel" >? -1)%Z = true.
Proof.
  assert (Hin : In (mkListener 1 "wheel" (relayFor T_container 0 "wheel") true)
                  (domListeners
                     (final (on sampleEnv
                               (mkRaw "a" handlerA "wheel" (Some T_container) None)
                               freshWithKernel))))
    by (left; reflexivity).
  split; [exact Hin |].
  destruct (on_attaches_passive_by_name sampleEnv
              (mkRaw "a" handlerA "wheel" (Some T_container) None) freshWithKernel
              (mkListener 1 "wheel" (relayFor T_container 0 "wheel") true) Hin)
    as [[] | (_ & _ & _ & H)].
  symmetry. exact H.
Defined.

(* ===================================================================== *)
(** * Invariants, as seen from outside                                    *)
(* ===================================================================== *)

Lemma wf_preserved_witness :
  wf sampleEnv freshWithKernel
  /\ wf sampleEnv (final (on sampleEnv clickOnContainer freshWithKernel)).
Proof.
  split; [apply wf_constructor |].
  apply (proj1 (wf_preserved sampleEnv freshWithKernel
                  (wf_constructor sampleEnv sampleDom (Some []) []))).
Defined.

(** X17: in every state reached from construction through [on], [off],
    [once], the four emission methods, [applyPendingEvents] and the
    attachment of a media engine, the relay bookkeeping matches the native
    listeners: the names and the relay entries of every kind are in
    lockstep, every recorded relay is the one and only native relay listener
    of its kind and name on every source of its kind, and a name that is
    not bound has no native relay listener on any source of its kind. *)
Theorem reachable_bookkeeping_matches_listeners (env : Env) (s : State) :
  reachable env s ->
  forall t,
    pk_get (bindedEventNames s) t = map fst (pk_get (bindedEventInfo s) t)
    /\ (forall n fn, In (n, fn) (pk_get (bindedEventInfo s) t) ->
          forall src, In src (sourcesOf s t) -> attachedOn s t n src = [fn])
    /\ (forall n, ~ In n (pk_get (bindedEventNames s) t) ->
          forall src, In src (sourcesOf s t) -> attachedOn s t n src = []).
Proof.
  intros Hr t. destruct (reachable_inStep env s Hr) as [[Hwt _] Hs].
  destruct (Hwt t) as (Hlock & _). destruct (Hs t) as [P1 P2].
  split; [exact Hlock |]. split; [| exact P2].
  intros n fn Hin. apply (P1 n fn Hin).
Qed.

Lemma reachable_bookkeeping_matches_listeners_witness :
  attachedOn boundClick T_container "click" (OnNode 1)
  = [relayFor T_container 0 "click"].
Proof.
  apply (proj1 (proj2 (reachable_bookkeeping_matches_listeners sampleEnv boundClick
                         (reach_on sampleEnv freshWithKernel clickOnContainer
                            (reach_new_engine sampleEnv sampleDom))
                         T_container))).
  - left. reflexivity.
  - left. reflexivity.
Defined.

(* ===================================================================== *)
(** * Names that start with a stage prefix                                *)
(* ===================================================================== *)

(** X19: a name that starts with "before", "after" or "_" is resolved by
    what follows the prefix, whatever that is: the resolved name is
    [camelize] of the remainder, the stage is the caller's stage if one is
    given and the stage of the prefix otherwise, the target is the caller's
    target if one is given and otherwise the one inferred from the camelized
    remainder, not from the name as written; no warning is logged. *)
Theorem stage_prefix_resolution (env : Env) (p rest : string) (st : eventStage)
      (target : option binderTarget) (stage : option eventStage) :
  stageOfPrefix p = Some st ->
  getEventInfo env (p ++ rest) target stage
  = ({| i_name := camelize env rest;
        i_stage := match stage with Some given => given | None => st end;
        i_target := match target with
                    | Some t => t
                    | None => getEventTargetByEventName env (camelize env rest)
                    end |}, []).
Proof.
  unfold stageOfPrefix. intros H.
  destruct (String.eqb_spec p "before") as [-> | _];
    [| destruct (String.eqb_spec p "after") as [-> | _];
       [| destruct (String.eqb_spec p "_") as [-> | _]; [| discriminate]]];
    inversion H; subst st;
    unfold getEventInfo, getEventTargetByOldLogic, getEventStage, secondaryReg_strip,
      secondaryReg_match, targetKeyReg_test;
    simpl; rewrite ?prefix_empty; simpl; rewrite ?prefix_empty; reflexivity.
Qed.

Lemma stage_prefix_resolution_witness :
  getEventInfo sampleEnv "afternoon" None None
  = ({| i_name := "noon"; i_stage := S_after; i_target := T_plugin |}, []).
Proof.
  apply (stage_prefix_resolution sampleEnv "after" "noon" S_after None None).
  reflexivity.
Defined.

(* ===================================================================== *)
(** * Kinds and names that never get a relay                              *)
(* ===================================================================== *)

(** X20: in every reachable state no relay is recorded for the kinds
    plugin and esFullscreen, and no name of the always-on whitelist is
    recorded for the kind video: for these pairs the binder only ever talks
    to the Bus. *)
Theorem never_relayed (env : Env) (s : State) :
  reachable env s ->
  pk_get (bindedEventNames s) T_plugin = []
  /\ pk_get (bindedEventInfo s) T_plugin = []
  /\ pk_get (bindedEventNames s) T_esFullscreen = []
  /\ pk_get (bindedEventInfo s) T_esFullscreen = []
  /\ forall n, In n (mustListenVideoDomEvents env) ->
       ~ In n (pk_get (bindedEventNames s) T_video).
Proof.
  intros Hr. destruct (reachable_inStep env s Hr) as [[Hwt _] _].
  assert (Hempty : forall t, (forall n, _isEventNeedToBeHandled env t n = false) ->
             pk_get (bindedEventNames s) t = []
             /\ pk_get (bindedEventInfo s) t = []).
  { intros t Hno. destruct (Hwt t) as (Hlock & _ & _ & Hh).
    assert (En : pk_get (bindedEventNames s) t = []).
    { destruct (pk_get (bindedEventNames s) t) as [| n l]; [reflexivity |].
      specialize (Hh n (or_introl eq_refl)). rewrite Hno in Hh. discriminate. }
    split; [exact En |]. rewrite En in Hlock.
    destruct (pk_get (bindedEventInfo s) t); [reflexivity | discriminate]. }
  destruct (Hempty T_plugin (fun n => eq_refl)) as [E1 E2].
  destruct (Hempty T_esFullscreen (fun n => eq_refl)) as [E3 E4].
  repeat match goal with |- _ /\ _ => split; [assumption |] end.
  intros n Hwl Hin. destruct (Hwt T_video) as (_ & _ & _ & Hh).
  specialize (Hh n Hin). unfold _isEventNeedToBeHandled in Hh.
  apply indexOf_found in Hwl. rewrite indexOf_negative, Hwl in Hh. discriminate.
Qed.

Lemma never_relayed_witness :
  pk_get (bindedEventInfo
            (final (on sampleEnv (mkRaw "a" handlerA "custom" None None) freshWithKernel)))
         T_plugin = []
  /\ ~ In "mouseenter"
       (pk_get (bindedEventNames
                  (final (on sampleEnv (mkRaw "a" handlerA "mouseenter" (Some T_video) None)
                             freshWithKernel)))
               T_video).
Proof.
  split.
  - apply (never_relayed sampleEnv). apply reach_on, reach_new_engine.
  - apply (never_relayed sampleEnv).
    + apply reach_on, reach_new_engine.
    + left. reflexivity.
Defined.

(* ===================================================================== *)
(** * A subscription and an emission under the same plain name            *)
(* ===================================================================== *)

(** X21: for a non-empty name without legacy prefix and without stage
    prefix, other than 'error', a subscription and an emission made with
    the same name and the same target argument (given or omitted) meet: the
    subscriber is stored under that name on the Bus of the resolved target,
    and the emission asks that same Bus for that same name. *)
Theorem plain_name_subscription_meets_emission (env : Env) (n id : string) (fn : JSVal)
      (target : option binderTarget) (stage : option eventStage) (k : DispatchKind)
      (args : list JSVal) (s : State) :
  n <> EmptyString -> targetKeyReg_test n = false -> secondaryReg_test n = false ->
  n <> "error" ->
  isFunction fn = true ->
  id <> EmptyString ->
  let t := match target with
           | Some t0 => t0
           | None => getEventTargetByEventName env n
           end in
  exists s1 s2,
    on env (mkRaw id fn n target stage) s = Return tt s1
    /\ emissionMethod env k (mkEmit (VStr id) (VStr n) target) args s1
       = Return (VBusReturn k) s2
    /\ subscribers (pk_get (buses s2) t)
       = subscribers (pk_get (buses s) t)
           ++ [mkSub id n fn (match stage with Some st => st | None => S_main end) false]
    /\ dispatched (pk_get (buses s2) t)
       = dispatched (pk_get (buses s) t) ++ [mkDispatch k n args].
Proof.
  intros Hn Hk Hs He Hf Hi t.
  pose proof (run_on env (mkRaw id fn n target stage) s Hf) as Ron.
  cbv zeta in Ron. unfold getEventInfo_raw in Ron. simpl in Ron.
  rewrite (getEventInfo_plain env n target stage Hk He Hs) in Ron. simpl in Ron.
  fold t in Ron.
  eexists. eexists. split; [exact Ron |].
  split; [apply run_emissionMethod; assumption |].
  rewrite (getEventInfo_plain env n target None Hk He Hs). simpl. fold t.
  unfold dispatchedOn. simpl. rewrite !pk_get_set_same. simpl.
  destruct (afterAdd_frame env n t id (set_log (log s ++ []) s)) as (Eb & _ & _).
  rewrite Eb. simpl. split; reflexivity.
Qed.

Lemma plain_name_subscription_meets_emission_witness :
  exists s1 s2,
    on sampleEnv (mkRaw "a" handlerA "play" None None) freshWithKernel = Return tt s1
    /\ emissionMethod sampleEnv D_emit (mkEmit (VStr "a") (VStr "play") None) [] s1
       = Return (VBusReturn D_emit) s2
    /\ subscribers (pk_get (buses s2) T_video) = [mkSub "a" "play" handlerA S_main false]
    /\ dispatched (pk_get (buses s2) T_video) = [mkDispatch D_emit "play" []].
Proof.
  apply (plain_name_subscription_meets_emission sampleEnv "play" "a" handlerA None None
           D_emit [] freshWithKernel); try discriminate; reflexivity.
Defined.
